(** * Codebase Genius: code analyzer, language detector and repository mapper

    A shallow embedding of [Codebase_genius/agents/code_analyzer.py],
    [Codebase_genius/utils/language_detector.py] and parts of
    [Codebase_genius/agents/repo_mapper.py] and
    [Codebase_genius/utils/git_utils.py], with the properties of the Code
    Context Graph (CCG) that the design document states.

    Conventions of the embedding.
    - A Python [str] is a [string], a sequence of characters with code
      points below 256; [str.lower] acts on the letters A-Z, as Python's
      does on ASCII text. The search needles and the table keys of the
      program are ASCII.
    - A [dict] keyed by strings is a [gmap string _] where only its content
      matters, and an association list where its insertion order is
      observed ([file_counts], the pattern table).
    - Exceptions are explicit: a primitive that can raise returns a
      [result], and [try ... except] is [try_except].
    - A path is the list of its parts, as [pathlib] holds it; joining,
      [relative_to] and [str] are those of POSIX paths.
    - The file system is one snapshot: the listing that [rglob('*')]
      returns below the root, and what [os.stat] meets at a path. A path
      can be found without being listed: outside the root, or through
      [..].
    - The libraries the program calls ([re], [tree_sitter], the codec of
      [open]) are not part of the repository; they are the fields of the
      class [Runtime], over which the program is parametric. *)

From Stdlib Require Import String Ascii List ZArith QArith Lia Bool.
From stdpp Require Import base option gmap strings list fin_maps.

Import ListNotations.
#[local] Set Warnings "-clear-no-such-hyp".
Local Open Scope string_scope.
Local Open Scope list_scope.

(** ** Exceptions *)

Inductive result (A : Type) : Type :=
| Ok (a : A)
| Raise (e : string).
Arguments Ok {A} a.
Arguments Raise {A} e.

#[global] Instance result_ret : MRet result := fun A a => Ok a.

#[global] Instance result_bind : MBind result := fun A B k m =>
  match m with
  | Ok a => k a
  | Raise e => Raise e
  end.

(** [try: body except: handler] *)
Definition try_except {A} (body : result A) (handler : string -> result A)
  : result A :=
  match body with
  | Ok a => Ok a
  | Raise e => handler e
  end.

(** ** Strings as Python uses them *)

Module Str.

Definition lower_ascii (c : ascii) : ascii :=
  let n := nat_of_ascii c in
  if (65 <=? n)%nat && (n <=? 90)%nat then ascii_of_nat (n + 32) else c.

(** [s.lower()] *)
Fixpoint lower (s : string) : string :=
  match s with
  | EmptyString => EmptyString
  | String c s' => String (lower_ascii c) (lower s')
  end.

(** [needle in s] *)
Fixpoint contains (needle s : string) : bool :=
  String.prefix needle s ||
  match s with
  | EmptyString => false
  | String _ s' => contains needle s'
  end.

(** [s[a:b]] for non-negative [a] and [b] *)
Definition slice (a b : nat) (s : string) : string :=
  String.substring a (b - a) s.

(** [s.endswith(suffix)] *)
Definition endswith (s suffix : string) : bool :=
  let n := String.length s in
  let k := String.length suffix in
  (k <=? n)%nat && String.eqb (String.substring (n - k) k s) suffix.

Definition newline : ascii := ascii_of_nat 10.

(** [s.count('\n')] *)
Fixpoint count_newlines (s : string) : nat :=
  match s with
  | EmptyString => 0
  | String c s' =>
      (if Ascii.eqb c newline then 1 else 0) + count_newlines s'
  end.

(** [s.rfind('\n', 0, stop)], [-1] when there is none *)
Fixpoint rfind_newline_from (i : Z) (stop : nat) (s : string) (last : Z) : Z :=
  match stop, s with
  | S stop', String c s' =>
      rfind_newline_from (i + 1) stop' s'
        (if Ascii.eqb c newline then i else last)
  | _, _ => last
  end.

Definition rfind_newline (s : string) (stop : nat) : Z :=
  rfind_newline_from 0 stop s (-1).

(** [name.rfind('.')] as an option *)
Fixpoint rfind_dot_from (i : nat) (s : string) (last : option nat) : option nat :=
  match s with
  | EmptyString => last
  | String c s' =>
      rfind_dot_from (S i) s' (if Ascii.eqb c "." then Some i else last)
  end.

Definition rfind_dot (s : string) : option nat := rfind_dot_from 0 s None.

(** [s.split('\n')] *)
Fixpoint split_lines_from (s cur : string) : list string :=
  match s with
  | EmptyString => [cur]
  | String c s' =>
      if Ascii.eqb c newline then cur :: split_lines_from s' EmptyString
      else split_lines_from s' (cur ++ String c EmptyString)
  end.

Definition split_lines (s : string) : list string := split_lines_from s EmptyString.

(** [bool(s)] for an [Optional[str]] *)
Definition truthy (o : option string) : bool :=
  match o with
  | Some (String _ _) => true
  | _ => false
  end.

(** [sep.join(parts)] *)
Definition join (sep : string) (parts : list string) : string :=
  String.concat sep parts.

End Str.

(** ** The element model *)

Inductive ElementType := Function_ | Class_ | Variable_ | Import_ | Module_.

Record CodeElement := {
  name : string;
  type : ElementType;
  file_path : string;
  line_start : Z;
  line_end : Z;
  column_start : Z;
  column_end : Z;
  docstring : option string;
  parameters : option (list string);
  return_type : option string;
  parent : option string;
  children : option (list string)
}.

(** [(from, to, relationship_type)] *)
Definition Relationship : Type := string * string * string.

(** [networkx.DiGraph]: the node table with the attributes given to
    [add_node] ([None] for a node that only [add_edge] created) and the
    edge table with the [relationship] attribute. *)
Record DiGraph := {
  nodes : gmap string (option CodeElement);
  edges : gmap (string * string) string
}.

Definition empty_graph : DiGraph := {| nodes := ∅; edges := ∅ |}.

(** [graph.add_node(n, **attrs)] *)
Definition add_node (n : string) (attrs : CodeElement) (g : DiGraph) : DiGraph :=
  {| nodes := <[n := Some attrs]> (nodes g); edges := edges g |}.

(** The node table after [add_edge] has seen endpoint [n]: a node is
    created without attributes when it is missing. *)
Definition touch_node (n : string) (ns : gmap string (option CodeElement))
  : gmap string (option CodeElement) :=
  match ns !! n with
  | Some _ => ns
  | None => <[n := None]> ns
  end.

(** [graph.add_edge(u, v, relationship=rel_type)] *)
Definition add_edge (u v rel_type : string) (g : DiGraph) : DiGraph :=
  {| nodes := touch_node v (touch_node u (nodes g));
     edges := <[(u, v) := rel_type]> (edges g) |}.

Record CodeContextGraph := {
  elements : gmap string CodeElement;
  relationships : list Relationship;
  graph : DiGraph
}.

(** ** What the program takes from its libraries and from the file system *)

(** [tree_sitter.Node], with the fields the analyzer reads. *)
#[local] Unset Elimination Schemes.
Inductive Node :=
| mkNode (ntype : string) (start_byte end_byte : nat)
         (start_point end_point : nat * nat) (nchildren : list Node).
#[local] Set Elimination Schemes.

Definition node_type (n : Node) : string :=
  let 'mkNode t _ _ _ _ _ := n in t.
Definition node_start_byte (n : Node) : nat :=
  let 'mkNode _ a _ _ _ _ := n in a.
Definition node_end_byte (n : Node) : nat :=
  let 'mkNode _ _ b _ _ _ := n in b.
Definition node_start_point (n : Node) : nat * nat :=
  let 'mkNode _ _ _ p _ _ := n in p.
Definition node_end_point (n : Node) : nat * nat :=
  let 'mkNode _ _ _ _ q _ := n in q.
Definition node_children (n : Node) : list Node :=
  let 'mkNode _ _ _ _ _ cs := n in cs.

(** A registered parser: [parser.parse(bytes(content, 'utf8')).root_node],
    which may raise. *)
Definition Parser : Type := string -> result Node.

(** One match object of [re.finditer]: [start()], [end()], [group(1)]. *)
Record Match := {
  m_start : nat;
  m_end : nat;
  group1 : string
}.

Class Runtime := {
  (** [re.finditer(pattern, content, re.MULTILINE)], in order *)
  re_finditer : string -> string -> list Match;
  (** [re.search(pattern, content, re.MULTILINE | re.IGNORECASE)] is not [None] *)
  re_search : string -> string -> bool;
  (** the text that [open(path, 'r', encoding='utf-8', errors='ignore')]
      yields for the bytes of a file *)
  decode : string -> string;
  (** [Parser(Language('build/my-languages.so', name))] *)
  load_parser : string -> result Parser
}.

(** ** Paths, as [pathlib] holds them *)

Module PurePath.

(** [s.split('/')] *)
Fixpoint split_from (s cur : string) : list string :=
  match s with
  | EmptyString => [cur]
  | String c s' =>
      if Ascii.eqb c "/" then cur :: split_from s' EmptyString
      else split_from s' (cur ++ String c EmptyString)
  end.

(** A name that a path keeps: not empty and not [.]; [..] is kept. *)
Definition kept (p : string) : bool :=
  negb (String.eqb p "" || String.eqb p ".").

(** The names of a path text: what stands between its slashes. *)
Definition components (s : string) : list string :=
  List.filter kept (split_from s EmptyString).

(** The root of a path text: exactly two leading slashes are a root of
    their own, one slash or three and more are [/]. *)
Definition anchor (s : string) : option string :=
  if String.prefix "///" s then Some "/"
  else if String.prefix "//" s then Some "//"
  else if String.prefix "/" s then Some "/"
  else None.

(** [(base / s).parts]: a text with a root replaces the base. *)
Definition joinpath (base : list string) (s : string) : list string :=
  match anchor s with
  | Some root => root :: components s
  | None => base ++ components s
  end.

Fixpoint strip_prefix (pre l : list string) : option (list string) :=
  match pre, l with
  | [], _ => Some l
  | p :: pre', x :: l' => if String.eqb p x then strip_prefix pre' l' else None
  | _ :: _, [] => None
  end.

(** The parts begin with a root. *)
Definition anchored (parts : list string) : bool :=
  match parts with
  | p :: _ => String.prefix "/" p
  | [] => false
  end.

(** [self.relative_to(other).parts]: [ValueError] unless the parts of
    [other] begin those of [self]; the empty path begins every path
    without a root. *)
Definition relative_to (self other : list string) : result (list string) :=
  match strip_prefix other self with
  | Some rest =>
      match other with
      | [] => if anchored self then Raise "ValueError" else Ok rest
      | _ :: _ => Ok rest
      end
  | None => Raise "ValueError"
  end.

(** [str(path)] for a path without a root *)
Definition str (parts : list string) : string :=
  match parts with
  | [] => "."
  | _ :: _ => Str.join "/" parts
  end.

End PurePath.

(** ** The file system *)

(** One entry below the repository root, as [rglob] meets it. *)
Record FsEntry := {
  rel_path : string;        (** the path relative to the root, as text *)
  is_file : bool;
  readable : bool;          (** [open] succeeds *)
  raw : string              (** the bytes of the file *)
}.

(** What the file system has at a path. *)
Inductive Stat :=
| Missing                                         (** [exists()] is [False] *)
| Fails (err : string)                            (** [os.stat] raises *)
| Present (file can_read : bool) (bytes : string).

Record Repo := {
  root_exists : bool;       (** [repo_path.exists()] *)
  repo_parts : list string; (** [repo_path.parts] *)
  entries : list FsEntry;   (** [repo_path.rglob('*')], in its order *)
  (** what [os.stat] meets at a path, given by its parts; at a path that
      [entries] names, only whether it raises is taken from it *)
  os_stat : list string -> Stat
}.

(** The parts of the path relative to the root *)
Definition rel_parts (e : FsEntry) : list string :=
  PurePath.components (rel_path e).

(** [str(file_path.relative_to(repo_path))] *)
Definition rel_str (e : FsEntry) : string := PurePath.str (rel_parts e).

(** [file_path.name] *)
Definition path_name (e : FsEntry) : string := List.last (rel_parts e) "".

(** [file_path.parts] *)
Definition path_parts (r : Repo) (e : FsEntry) : list string :=
  repo_parts r ++ rel_parts e.

(** [PurePath.suffix]: the last dot of the name and what follows, unless
    the dot is the first or the last character. *)
Definition suffix (nm : string) : string :=
  match Str.rfind_dot nm with
  | Some i =>
      if (0 <? i)%nat && (i <? String.length nm - 1)%nat
      then String.substring i (String.length nm - i) nm
      else ""
  | None => ""
  end.

(** The entry of the listing at a relative path *)
Definition lookup_path (r : Repo) (p : string) : option FsEntry :=
  List.find (fun e => String.eqb (rel_str e) p) (entries r).

(** A path as [_analyze_file] receives it, with what the file system has
    there: a path that the parts of the root begin, with its relative path
    and its file, or a path apart from the root. *)
Inductive FilePath :=
| Below (e : FsEntry)
| Apart (file can_read : bool) (bytes : string).

(** [file_path.exists()], and the path with its file when it does:
    [exists()] raises when [os.stat] does; the listing answers for the
    paths it names. *)
Definition stat (r : Repo) (path : list string) : result (option FilePath) :=
  match os_stat r path with
  | Fails err => Raise err
  | found =>
      match PurePath.relative_to path (repo_parts r) with
      | Ok rel =>
          match lookup_path r (PurePath.str rel) with
          | Some e => Ok (Some (Below e))
          | None =>
              match found with
              | Present file can_read bytes =>
                  Ok (Some (Below {| rel_path := PurePath.str rel; is_file := file;
                                     readable := can_read; raw := bytes |}))
              | _ => Ok None
              end
          end
      | Raise _ =>
          match found with
          | Present file can_read bytes => Ok (Some (Apart file can_read bytes))
          | _ => Ok None
          end
      end
  end.

(** [repo_path.rglob('*' + ext)] *)
Definition rglob_suffix (r : Repo) (ext : string) : list FsEntry :=
  List.filter (fun e => Str.endswith (path_name e) ext) (entries r).

(** [with open(file_path, 'rb') as f: f.read(n)] *)
Definition read_bytes (e : FsEntry) (n : nat) : result string :=
  if is_file e && readable e then Ok (String.substring 0 n (raw e))
  else Raise "OSError".

(** [with open(file_path, 'r', encoding='utf-8', errors='ignore') as f: f.read()] *)
Definition read_text `{Runtime} (e : FsEntry) : result string :=
  if is_file e && readable e then Ok (decode (raw e))
  else Raise "OSError".

(** The same for a path that [_analyze_file] receives *)
Definition open_text `{Runtime} (file_path : FilePath) : result string :=
  match file_path with
  | Below e => read_text e
  | Apart file can_read bytes =>
      if file && can_read then Ok (decode bytes) else Raise "OSError"
  end.

(** [str(file_path.relative_to(Path(repo_root)))] *)
Definition relative_path (file_path : FilePath) : result string :=
  match file_path with
  | Below e => Ok (rel_str e)
  | Apart _ _ _ => Raise "ValueError"
  end.

(** [file_path.stat().st_size] *)
Definition st_size (e : FsEntry) : N := N.of_nat (String.length (raw e)).

(** [for x in xs: body], where the body may raise *)
Fixpoint for_each {A S : Type} (xs : list A) (body : S -> A -> result S) (s : S)
  : result S :=
  match xs with
  | [] => Ok s
  | x :: xs' => s' ← body s x; for_each xs' body s'
  end.

(** An insertion-ordered [dict] with string keys. *)
Fixpoint dict_get {V : Type} (d : list (string * V)) (k : string) : option V :=
  match d with
  | [] => None
  | (k', v) :: d' => if String.eqb k' k then Some v else dict_get d' k
  end.

(** [d[k] = v]: in place when the key is present, at the end otherwise *)
Fixpoint dict_set {V : Type} (d : list (string * V)) (k : string) (v : V)
  : list (string * V) :=
  match d with
  | [] => [(k, v)]
  | (k', v') :: d' =>
      if String.eqb k' k then (k', v) :: d' else (k', v') :: dict_set d' k v
  end.

(** ** [code_analyzer.py] *)

Module CodeAnalyzer.

(** What one parse pass accumulates: the [elements] dict and the
    [relationships] list that the nested [traverse_node] closures mutate. *)
Definition Parsed : Type := gmap string CodeElement * list Relationship.

Definition no_elements : Parsed := (∅, []).

(** [f"{file_path}:{name}"] *)
Definition element_id (fp nm : string) : string := fp ++ ":" ++ nm.

(** [f"{file_path}:import:{module_name}"] *)
Definition import_id (fp module_name : string) : string :=
  fp ++ ":import:" ++ module_name.

(** [elements[element_id] = element] *)
Definition set_element (k : string) (el : CodeElement) (st : Parsed) : Parsed :=
  (<[k := el]> (fst st), snd st).

(** [relationships.append(r)] *)
Definition append_relationship (r : Relationship) (st : Parsed) : Parsed :=
  (fst st, snd st ++ [r]).

(** [if parent: relationships.append((parent, element_id, 'contains'))] *)
Definition contains_edge (parent : option string) (k : string) (st : Parsed) : Parsed :=
  match parent with
  | Some p => if Str.truthy parent then append_relationship (p, k, "contains") st else st
  | None => st
  end.

(** The element that the grammar-based traversals build for a node. *)
Definition element_of_node (nm : string) (ty : ElementType) (fp : string)
    (node : Node) (parent : option string) : CodeElement :=
  {| name := nm; type := ty; file_path := fp;
     line_start := (Z.of_nat (fst (node_start_point node)) + 1)%Z;
     line_end := (Z.of_nat (fst (node_end_point node)) + 1)%Z;
     column_start := Z.of_nat (snd (node_start_point node));
     column_end := Z.of_nat (snd (node_end_point node));
     docstring := None; parameters := None; return_type := None;
     parent := parent; children := None |}.

(** [_get_node_text]: the text of the first child of the given type *)
Fixpoint first_child_text (cs : list Node) (content child_type : string)
  : option string :=
  match cs with
  | [] => None
  | child :: cs' =>
      if String.eqb (node_type child) child_type
      then Some (Str.slice (node_start_byte child) (node_end_byte child) content)
      else first_child_text cs' content child_type
  end.

Definition _get_node_text (node : Node) (content child_type : string)
  : option string :=
  first_child_text (node_children node) content child_type.

Definition _get_import_name (node : Node) (content : string) : option string :=
  first_child_text (node_children node) content "dotted_name".

(** [_find_function_calls]: the body is [pass] *)
Definition _find_function_calls (node : Node) (content parent_id : string)
    (fp : string) (st : Parsed) : Parsed := st.

(** Registration of a declaration: the element, its [contains] edge. *)
Definition declare (nm : string) (ty : ElementType) (fp : string) (node : Node)
    (parent : option string) (st : Parsed) : Parsed :=
  contains_edge parent (element_id fp nm)
    (set_element (element_id fp nm) (element_of_node nm ty fp node parent) st).

(** [traverse_node] of [_parse_python_ast] *)
Fixpoint py_traverse_node (fp content : string) (node : Node)
    (parent : option string) (st : Parsed) {struct node} : Parsed :=
  let st1 :=
    if String.eqb (node_type node) "function_definition" then
      match _get_node_text node content "identifier" with
      | Some nm =>
          if Str.truthy (Some nm) then
            _find_function_calls node content (element_id fp nm) fp
              (declare nm Function_ fp node parent st)
          else st
      | None => st
      end
    else if String.eqb (node_type node) "class_definition" then
      match _get_node_text node content "identifier" with
      | Some nm =>
          if Str.truthy (Some nm) then
            fold_left
              (fun s child =>
                 if String.eqb (node_type child) "block" then
                   fold_left
                     (fun s' grandchild =>
                        py_traverse_node fp content grandchild
                          (Some (element_id fp nm)) s')
                     (node_children child) s
                 else s)
              (node_children node)
              (declare nm Class_ fp node parent st)
          else st
      | None => st
      end
    else if String.eqb (node_type node) "import_statement" then
      match _get_import_name node content with
      | Some module_name =>
          if Str.truthy (Some module_name) then
            set_element (import_id fp module_name)
              (element_of_node module_name Import_ fp node None) st
          else st
      | None => st
      end
    else st
  in
  fold_left (fun s child => py_traverse_node fp content child parent s)
    (node_children node) st1.

Definition _parse_python_ast (root_node : Node) (fp content : string) : Parsed :=
  py_traverse_node fp content root_node None no_elements.

(** [traverse_node] of [_parse_javascript_ast] *)
Fixpoint js_traverse_node (fp content : string) (node : Node)
    (parent : option string) (st : Parsed) {struct node} : Parsed :=
  let st1 :=
    if String.eqb (node_type node) "function_declaration" then
      match _get_node_text node content "identifier" with
      | Some nm =>
          if Str.truthy (Some nm) then declare nm Function_ fp node parent st
          else st
      | None => st
      end
    else if String.eqb (node_type node) "class_declaration" then
      match _get_node_text node content "identifier" with
      | Some nm =>
          if Str.truthy (Some nm) then declare nm Class_ fp node parent st
          else st
      | None => st
      end
    else st
  in
  fold_left (fun s child => js_traverse_node fp content child parent s)
    (node_children node) st1.

Definition _parse_javascript_ast (root_node : Node) (fp content : string) : Parsed :=
  js_traverse_node fp content root_node None no_elements.

(** [traverse_node] of [_parse_java_ast] *)
Fixpoint java_traverse_node (fp content : string) (node : Node)
    (parent : option string) (st : Parsed) {struct node} : Parsed :=
  let st1 :=
    if String.eqb (node_type node) "method_declaration" then
      match _get_node_text node content "identifier" with
      | Some nm =>
          if Str.truthy (Some nm) then declare nm Function_ fp node parent st
          else st
      | None => st
      end
    else if String.eqb (node_type node) "class_declaration" then
      match _get_node_text node content "identifier" with
      | Some nm =>
          if Str.truthy (Some nm) then
            fold_left
              (fun s child =>
                 if String.eqb (node_type child) "class_body" then
                   fold_left
                     (fun s' grandchild =>
                        java_traverse_node fp content grandchild
                          (Some (element_id fp nm)) s')
                     (node_children child) s
                 else s)
              (node_children node)
              (declare nm Class_ fp node parent st)
          else st
      | None => st
      end
    else st
  in
  fold_left (fun s child => java_traverse_node fp content child parent s)
    (node_children node) st1.

Definition _parse_java_ast (root_node : Node) (fp content : string) : Parsed :=
  java_traverse_node fp content root_node None no_elements.

(** *** The regex strategy *)

(** The element that the regex strategies build for a match. *)
Definition element_of_match (ty : ElementType) (fp content : string) (m : Match)
  : CodeElement :=
  let line_num :=
    (Z.of_nat (Str.count_newlines (String.substring 0 (m_start m) content)) + 1)%Z in
  {| name := group1 m; type := ty; file_path := fp;
     line_start := line_num; line_end := line_num;
     column_start :=
       (Z.of_nat (m_start m) - Str.rfind_newline content (m_start m) - 1)%Z;
     column_end :=
       (Z.of_nat (m_end m) - Str.rfind_newline content (m_start m) - 1)%Z;
     docstring := None; parameters := None; return_type := None;
     parent := None; children := None |}.

(** [for match in re.finditer(pattern, content, re.MULTILINE): ...] *)
Definition scan `{Runtime} (pattern : string) (ty : ElementType)
    (fp content : string) (st : Parsed) : Parsed :=
  fold_left
    (fun s m =>
       set_element (element_id fp (group1 m)) (element_of_match ty fp content m) s)
    (re_finditer pattern content) st.

Definition _regex_parse_python `{Runtime} (content fp : string)
    (lines : list string) : Parsed :=
  let func_pattern := "^def\s+(\w+)\s*\([^)]*\):" in
  let st := scan func_pattern Function_ fp content no_elements in
  let class_pattern := "^class\s+(\w+)(?:\([^)]*\))?:" in
  scan class_pattern Class_ fp content st.

Definition _regex_parse_javascript `{Runtime} (content fp : string)
    (lines : list string) : Parsed :=
  let func_patterns :=
    [ "function\s+(\w+)\s*\(";
      "const\s+(\w+)\s*=\s*(?:async\s+)?\([^)]*\)\s*=>";
      "let\s+(\w+)\s*=\s*(?:async\s+)?\([^)]*\)\s*=>";
      "var\s+(\w+)\s*=\s*(?:async\s+)?\([^)]*\)\s*=>" ] in
  let st :=
    fold_left (fun s pattern => scan pattern Function_ fp content s)
      func_patterns no_elements in
  let class_pattern := "class\s+(\w+)(?:\s+extends\s+\w+)?\s*{" in
  scan class_pattern Class_ fp content st.

Definition _regex_parse_java `{Runtime} (content fp : string)
    (lines : list string) : Parsed :=
  let method_pattern :=
    "(?:public|private|protected)?\s*(?:static\s+)?(?:final\s+)?(?:\w+\s+)*(\w+)\s*\([^)]*\)\s*{" in
  let st := scan method_pattern Function_ fp content no_elements in
  let class_pattern :=
    "(?:public\s+)?class\s+(\w+)(?:\s+extends\s+\w+)?(?:\s+implements\s+[^{]+)?\s*{" in
  scan class_pattern Class_ fp content st.

Definition _parse_with_regex `{Runtime} (content fp language : string) : Parsed :=
  let lines := Str.split_lines content in
  if String.eqb language "python" then _regex_parse_python content fp lines
  else if String.eqb language "javascript" then
    _regex_parse_javascript content fp lines
  else if String.eqb language "java" then _regex_parse_java content fp lines
  else no_elements.

(** *** The analyzer object *)

Record t := { parsers : gmap string Parser }.

Definition language_files : list (string * string) :=
  [ ("python", "tree-sitter-python");
    ("javascript", "tree-sitter-javascript");
    ("java", "tree-sitter-java");
    ("cpp", "tree-sitter-cpp");
    ("rust", "tree-sitter-rust");
    ("go", "tree-sitter-go") ].

(** The body of the [try] of [_initialize_parsers]: the languages are
    loaded in turn, and the first failure leaves the block. *)
Fixpoint load_parsers `{Runtime} (langs : list string) (ps : gmap string Parser)
  : gmap string Parser :=
  match langs with
  | [] => ps
  | l :: langs' =>
      match dict_get language_files l with
      | Some _ =>
          match load_parser l with
          | Ok p => load_parsers langs' (<[l := p]> ps)
          | Raise _ => ps
          end
      | None => load_parsers langs' ps
      end
  end.

Definition _initialize_parsers `{Runtime} : gmap string Parser :=
  load_parsers ["python"; "javascript"; "java"; "cpp"; "rust"; "go"] ∅.

(** [CodeAnalyzer()] *)
Definition __init__ `{Runtime} : t := {| parsers := _initialize_parsers |}.

Definition _parse_with_treesitter `{Runtime} (self : t)
    (content fp language : string) : result Parsed :=
  try_except
    (parser ← match parsers self !! language with
              | Some p => Ok p
              | None => Raise "KeyError"
              end;
     root_node ← parser content;
     if String.eqb language "python" then
       Ok (_parse_python_ast root_node fp content)
     else if String.eqb language "javascript" then
       Ok (_parse_javascript_ast root_node fp content)
     else if String.eqb language "java" then
       Ok (_parse_java_ast root_node fp content)
     else Ok no_elements)
    (fun _ => Ok (_parse_with_regex content fp language)).

Definition _analyze_file `{Runtime} (self : t) (file_path : FilePath)
    (language : string) : result Parsed :=
  match open_text file_path with
  | Raise _ => Ok no_elements
  | Ok content =>
      relative_path ← relative_path file_path;
      if bool_decide (is_Some (parsers self !! language)) then
        _parse_with_treesitter self content relative_path language
      else Ok (_parse_with_regex content relative_path language)
  end.

Definition extensions : list (string * list string) :=
  [ ("python", [".py"]);
    ("jac", [".jac"]);
    ("javascript", [".js"; ".jsx"]);
    ("java", [".java"]);
    ("cpp", [".cpp"; ".cc"; ".cxx"; ".hpp"; ".h"]);
    ("rust", [".rs"]);
    ("go", [".go"]) ].

Definition _get_code_files (r : Repo) (language : string) : list FsEntry :=
  let lang_extensions := default [] (dict_get extensions language) in
  fold_left (fun code_files ext => code_files ++ rglob_suffix r ext)
    lang_extensions [].

(** [elements.update(file_elements); relationships.extend(file_relationships)] *)
Definition merge (acc file : Parsed) : Parsed :=
  (fst file ∪ fst acc, snd acc ++ snd file).

(** The graph view, as [analyze_codebase] builds it once all files are
    merged: a node per element, then an edge per relationship. *)
Definition build_graph (els : gmap string CodeElement) (rels : list Relationship)
  : DiGraph :=
  let g := map_fold (fun element_id element g => add_node element_id element g)
             empty_graph els in
  fold_left (fun g '(from_id, to_id, rel_type) => add_edge from_id to_id rel_type g)
    rels g.

(** The body of the loop over the entry points. *)
Definition analyze_entry_point `{Runtime} (self : t) (r : Repo)
    (language : string) (acc : Parsed) (entry_point : string) : result Parsed :=
  let file_path := PurePath.joinpath (repo_parts r) entry_point in
  found ← stat r file_path;
  match found with
  | Some file_path =>
      file ← _analyze_file self file_path language;
      Ok (merge acc file)
  | None => Ok acc
  end.

(** The loop over the entry points. *)
Definition analyze_entry_points `{Runtime} (self : t) (r : Repo)
    (language : string) (entry_points : list string) (acc : Parsed)
  : result Parsed :=
  for_each entry_points (analyze_entry_point self r language) acc.

(** The loop over the remaining files. *)
Definition analyze_remaining `{Runtime} (self : t) (r : Repo)
    (language : string) (entry_points : list string) (acc : Parsed)
  : result Parsed :=
  for_each (_get_code_files r language)
    (fun acc file_path =>
       if negb (existsb (String.eqb (rel_str file_path)) entry_points) then
         file ← _analyze_file self (Below file_path) language;
         Ok (merge acc file)
       else Ok acc)
    acc.

Definition analyze_codebase `{Runtime} (self : t) (r : Repo) (language : string)
    (entry_points : list string) : result CodeContextGraph :=
  acc ← analyze_entry_points self r language entry_points no_elements;
  acc ← analyze_remaining self r language entry_points acc;
  Ok {| elements := fst acc;
        relationships := snd acc;
        graph := build_graph (fst acc) (snd acc) |}.

(** One record of a query result: [{'from', 'to', 'relationship'}]. *)
Record QueryRecord := {
  from : string;
  to : string;
  relationship : string
}.

(** [for from_id, to_id, rel_type in ccg.relationships:
       if rel_type == kind: results.append({...})] *)
Definition select_kind (kind : string) (rels : list Relationship)
  : list QueryRecord :=
  fold_left
    (fun results '(from_id, to_id, rel_type) =>
       if String.eqb rel_type kind
       then results ++ [{| from := from_id; to := to_id; relationship := rel_type |}]
       else results)
    rels [].

Definition query_relationships (ccg : CodeContextGraph) (query : string)
  : list QueryRecord :=
  if Str.contains "calls" (Str.lower query) then
    select_kind "calls" (relationships ccg)
  else if Str.contains "inherits" (Str.lower query) then
    select_kind "inherits" (relationships ccg)
  else [].

End CodeAnalyzer.

(** ** [language_detector.py] *)

Module LanguageDetector.

Definition EXTENSION_MAP : list (string * string) :=
  [ (".py", "python"); (".jac", "jac"); (".js", "javascript");
    (".jsx", "javascript"); (".ts", "typescript"); (".tsx", "typescript");
    (".java", "java"); (".cpp", "cpp"); (".cc", "cpp"); (".cxx", "cpp");
    (".c", "c"); (".h", "c"); (".hpp", "cpp"); (".rs", "rust"); (".go", "go");
    (".rb", "ruby"); (".php", "php"); (".swift", "swift"); (".kt", "kotlin");
    (".scala", "scala"); (".r", "r"); (".m", "matlab"); (".jl", "julia");
    (".sh", "shell"); (".bash", "shell"); (".zsh", "shell"); (".fish", "shell");
    (".ps1", "powershell"); (".bat", "batch"); (".cmd", "batch");
    (".sql", "sql"); (".html", "html"); (".css", "css"); (".scss", "scss");
    (".sass", "sass"); (".less", "less"); (".xml", "xml"); (".yaml", "yaml");
    (".yml", "yaml"); (".json", "json"); (".toml", "toml"); (".ini", "ini");
    (".cfg", "config"); (".conf", "config"); (".dockerfile", "dockerfile");
    (".dockerignore", "dockerignore"); (".gitignore", "gitignore");
    (".md", "markdown"); (".rst", "restructuredtext"); (".tex", "latex");
    (".txt", "text") ].

Definition dquote : string := String (ascii_of_nat 34) EmptyString.

Definition LANGUAGE_PATTERNS : list (string * list string) :=
  [ ("python",
     [ "^#!/usr/bin/env python"; "^#!/usr/bin/python"; "import\s+\w+";
       "from\s+\w+\s+import"; "def\s+\w+\s*\("; "class\s+\w+" ]);
    ("jac",
     [ "node\s+\w+"; "walker\s+\w+"; "edge\s+\w+"; "graph\s+\w+";
       "can\s+\w+"; "with\s+entry" ]);
    ("javascript",
     [ "^#!/usr/bin/env node"; "^#!/usr/bin/node"; "function\s+\w+\s*\(";
       "const\s+\w+\s*="; "let\s+\w+\s*="; "var\s+\w+\s*="; "=>\s*{";
       "require\s*\("; "import\s+.*from" ]);
    ("java",
     [ "public\s+class\s+\w+"; "package\s+\w+"; "import\s+\w+";
       "public\s+static\s+void\s+main"; "@Override"; "@Component"; "@Service" ]);
    ("cpp",
     [ "#include\s*<.*>"; ("#include\s*" ++ dquote ++ ".*" ++ dquote)%string;
       "using\s+namespace\s+\w+"; "class\s+\w+\s*{"; "int\s+main\s*\(";
       "std::" ]);
    ("rust",
     [ "use\s+\w+"; "fn\s+\w+\s*\("; "struct\s+\w+"; "impl\s+\w+";
       "let\s+\w+\s*="; "match\s+\w+" ]);
    ("go",
     [ "package\s+\w+"; "import\s+\("; "func\s+\w+\s*\(";
       "type\s+\w+\s+struct"; "interface\s+\w+"; "var\s+\w+\s*=" ]) ].

(** The state of a detector: [detected_languages] and [file_counts]. *)
Record t := {
  detected_languages : gset string;
  file_counts : list (string * nat)
}.

(** [LanguageDetector()] *)
Definition __init__ : t := {| detected_languages := ∅; file_counts := [] |}.

Definition exclude_dirs : list string :=
  [ ".git"; "node_modules"; "__pycache__"; ".pytest_cache";
    "venv"; "env"; ".venv"; ".env"; "build"; "dist";
    "target"; ".cargo"; ".idea"; ".vscode"; ".vs";
    "coverage"; ".coverage"; "htmlcov"; ".tox";
    "site-packages"; ".mypy_cache"; ".ruff_cache" ].

Definition NUL : string := String (ascii_of_nat 0) EmptyString.

Definition _is_binary_file (file_path : FsEntry) : bool :=
  match read_bytes file_path 1024 with
  | Ok chunk => Str.contains NUL chunk
  | Raise _ => true
  end.

(** The body of the loop of [_get_code_files]: whether the file is kept. *)
Definition is_code_file (r : Repo) (file_path : FsEntry) : bool :=
  if is_file file_path then
    if existsb (fun excluded => existsb (String.eqb excluded) (path_parts r file_path))
         exclude_dirs
    then false
    else if _is_binary_file file_path || (10 * 1024 * 1024 <? st_size file_path)%N
    then false
    else true
  else false.

Definition _get_code_files (r : Repo) : list FsEntry :=
  fold_left
    (fun code_files file_path =>
       if is_code_file r file_path then code_files ++ [file_path] else code_files)
    (entries r) [].

(** The first language of the table one of whose patterns is found. *)
Fixpoint first_language `{Runtime} (table : list (string * list string))
    (content : string) : option string :=
  match table with
  | [] => None
  | (language, patterns) :: table' =>
      if existsb (fun pattern => re_search pattern content) patterns
      then Some language
      else first_language table' content
  end.

Definition _detect_file_language `{Runtime} (file_path : FsEntry) : option string :=
  let extension := Str.lower (suffix (path_name file_path)) in
  match dict_get EXTENSION_MAP extension with
  | Some language => Some language
  | None =>
      match read_text file_path with
      | Ok text => first_language LANGUAGE_PATTERNS (String.substring 0 1024 text)
      | Raise _ => None
      end
  end.

(** [sorted(items, key=lambda x: x[1], reverse=True)]: a stable sort, so
    items of equal count keep their order. *)
Fixpoint insert_by_count (x : string * nat) (l : list (string * nat))
  : list (string * nat) :=
  match l with
  | [] => [x]
  | y :: l' =>
      if (snd y <=? snd x)%nat then x :: y :: l' else y :: insert_by_count x l'
  end.

Definition sorted_by_count (items : list (string * nat)) : list (string * nat) :=
  fold_right insert_by_count [] items.

Definition _get_primary_language (self : t) : string :=
  match file_counts self with
  | [] => "unknown"
  | _ =>
      match sorted_by_count (file_counts self) with
      | (language, _) :: _ => language
      | [] => "unknown"
      end
  end.

(** [sum(self.file_counts.values())] *)
Definition total_files_of (self : t) : nat :=
  fold_left (fun acc item => acc + snd item) (file_counts self) 0.

(** [max(self.file_counts.values())] for a non-empty dict *)
Definition max_count (self : t) : nat :=
  fold_left (fun acc item => Nat.max acc (snd item)) (file_counts self) 0.

(** The quotient is the exact rational; Python returns the float nearest
    to it. *)
Definition _calculate_confidence (self : t) : Q :=
  match file_counts self with
  | [] => 0%Q
  | _ =>
      let total_files := total_files_of self in
      if (total_files =? 0)%nat then 0%Q
      else
        let primary_count := max_count self in
        (Z.of_nat primary_count # Pos.of_nat total_files)%Q
  end.

(** The loop body of [detect_languages_in_repo]. *)
Definition record_language (self : t) (language : option string) : t :=
  match language with
  | Some l =>
      if Str.truthy language then
        {| detected_languages := {[ l ]} ∪ detected_languages self;
           file_counts :=
             dict_set (file_counts self) l
               (default 0 (dict_get (file_counts self) l) + 1) |}
      else self
  | None => self
  end.

Record Detection := {
  primary_language : string;
  detected : gset string;
  counts : list (string * nat);
  total_files : nat;
  confidence : Q
}.

Definition summary (self : t) : Detection :=
  {| primary_language := _get_primary_language self;
     detected := detected_languages self;
     counts := file_counts self;
     total_files := total_files_of self;
     confidence := _calculate_confidence self |}.

(** The detector after the scan of the given files, from a cleared state. *)
Definition scan_files `{Runtime} (files : list FsEntry) : t :=
  fold_left (fun self file_path => record_language self (_detect_file_language file_path))
    files __init__.

Definition detect_languages_in_repo `{Runtime} (r : Repo) : result Detection :=
  if negb (root_exists r) then Raise "ValueError"
  else Ok (summary (scan_files (_get_code_files r))).

End LanguageDetector.

(** ** [repo_mapper.py] *)

(** [str(path)] for a path given by its parts *)
Definition posix_str (parts : list string) : string :=
  match parts with
  | "/" :: rest => "/" ++ Str.join "/" rest
  | _ => Str.join "/" parts
  end.

(** [repo_path.rglob(name)] for a pattern without wildcards *)
Definition rglob_name (r : Repo) (pattern : string) : list FsEntry :=
  List.filter (fun e => String.eqb (path_name e) pattern) (entries r).

Module RepoMapper.

(** The set [self.ignore_patterns]; [_should_ignore] asks whether some
    pattern matches, so the order of the list is immaterial. *)
Definition ignore_patterns : list string :=
  [ ".git"; "node_modules"; "__pycache__"; ".pytest_cache";
    "venv"; "env"; ".venv"; ".env"; "build"; "dist";
    "target"; ".cargo"; ".idea"; ".vscode"; ".vs";
    "coverage"; ".coverage"; "htmlcov"; ".tox";
    "site-packages"; ".mypy_cache"; ".ruff_cache";
    ".gitignore"; ".dockerignore"; ".DS_Store";
    "Thumbs.db"; "*.pyc"; "*.pyo"; "*.pyd" ].

(** The test that [_should_ignore] makes for one pattern. *)
Definition pattern_matches (parts : list string) (pattern : string) : bool :=
  if String.prefix "*" pattern then
    Str.endswith (posix_str parts)
      (String.substring 1 (String.length pattern - 1) pattern)
  else
    existsb (String.eqb pattern) parts || String.eqb (List.last parts "") pattern.

(** [_should_ignore], on the parts of the path and for a set of patterns *)
Definition should_ignore_parts (patterns parts : list string) : bool :=
  existsb (pattern_matches parts) patterns.

Definition _should_ignore (r : Repo) (path : FsEntry) : bool :=
  should_ignore_parts ignore_patterns (path_parts r path).

Definition entry_patterns : list (string * list string) :=
  [ ("python", ["main.py"; "app.py"; "run.py"; "__main__.py"; "setup.py"]);
    ("jac", ["main.jac"; "app.jac"; "run.jac"]);
    ("javascript", ["index.js"; "app.js"; "main.js"; "server.js"; "package.json"]);
    ("java", ["Main.java"; "App.java"; "Application.java"]);
    ("cpp", ["main.cpp"; "app.cpp"; "main.c"]);
    ("rust", ["main.rs"; "lib.rs"; "Cargo.toml"]);
    ("go", ["main.go"; "app.go"; "go.mod"]) ].

Definition dquote : string := String (ascii_of_nat 34) EmptyString.

Definition main_patterns : list (string * list string) :=
  [ ("python",
     [ ("if\s+__name__\s*==\s*[" ++ dquote ++ "\']__main__[" ++ dquote ++ "\']")%string;
       "def\s+main\s*\(" ]);
    ("javascript",
     [ "function\s+main\s*\("; "module\.exports\s*="; "export\s+default" ]);
    ("java", [ "public\s+static\s+void\s+main\s*\(" ]);
    ("cpp", [ "int\s+main\s*\(" ]);
    ("rust", [ "fn\s+main\s*\(" ]);
    ("go", [ "func\s+main\s*\(" ]) ].

(** The body of the loop of [_find_main_functions] for one path: whether
    the path is appended. *)
Definition has_main `{Runtime} (r : Repo) (patterns : list string)
    (file_path : FsEntry) : bool :=
  if is_file file_path && negb (_should_ignore r file_path) then
    match read_text file_path with
    | Ok text =>
        existsb (fun pattern => re_search pattern (String.substring 0 1024 text))
          patterns
    | Raise _ => false
    end
  else false.

Definition _find_main_functions `{Runtime} (r : Repo) (language : string)
  : list string :=
  let patterns := default [] (dict_get main_patterns language) in
  match patterns with
  | [] => []
  | _ =>
      fold_left
        (fun entry_files file_path =>
           if has_main r patterns file_path
           then entry_files ++ [rel_str file_path]
           else entry_files)
        (entries r) []
  end.

(** The list [entry_points] before its duplicates are removed. *)
Definition entry_point_candidates `{Runtime} (r : Repo) (primary_language : string)
  : list string :=
  let patterns := default [] (dict_get entry_patterns primary_language) in
  let entry_points :=
    fold_left
      (fun entry_points pattern =>
         fold_left
           (fun entry_points file_path =>
              if is_file file_path then entry_points ++ [rel_str file_path]
              else entry_points)
           (rglob_name r pattern) entry_points)
      patterns [] in
  if existsb (String.eqb primary_language)
       ["python"; "javascript"; "java"; "cpp"; "rust"; "go"]
  then entry_points ++ _find_main_functions r primary_language
  else entry_points.

(** [list(set(entry_points))]: the order of the result is not specified,
    so the result is the set. *)
Definition _find_entry_points `{Runtime} (r : Repo) (primary_language : string)
  : gset string :=
  list_to_set (entry_point_candidates r primary_language).

End RepoMapper.

(** ** [git_utils.py] and [code_genius.py]: the name of a repository *)

Module GitManager.

(** [s.replace(old, new)] for a non-empty [old]: [skip] characters of a
    match that has been replaced remain to be dropped. *)
Fixpoint replace_from (old new : string) (skip : nat) (s : string) : string :=
  match s with
  | EmptyString => EmptyString
  | String c s' =>
      match skip with
      | S skip' => replace_from old new skip' s'
      | O =>
          if String.prefix old s
          then (new ++ replace_from old new (String.length old - 1) s')%string
          else String c (replace_from old new 0 s')
      end
  end.

Definition replace (old new s : string) : string := replace_from old new 0 s.

(** [s.rstrip('/')] *)
Fixpoint rstrip_slash (s : string) : string :=
  match s with
  | EmptyString => EmptyString
  | String c s' =>
      match rstrip_slash s' with
      | EmptyString => if Ascii.eqb c "/" then EmptyString else String c EmptyString
      | rest => String c rest
      end
  end.

(** [s.split('/')] *)
Fixpoint split_slash_from (s cur : string) : list string :=
  match s with
  | EmptyString => [cur]
  | String c s' =>
      if Ascii.eqb c "/" then cur :: split_slash_from s' EmptyString
      else split_slash_from s' (cur ++ String c EmptyString)
  end.

Definition split_slash (s : string) : list string := split_slash_from s EmptyString.

(** [f"{parts[-2]}_{parts[-1]}"] when [len(parts) >= 2] *)
Fixpoint last_two (parts : list string) : option (string * string) :=
  match parts with
  | [a; b] => Some (a, b)
  | _ :: rest => last_two rest
  | [] => None
  end.

Definition _extract_repo_name (url : string) : string :=
  let url :=
    if Str.endswith url ".git"
    then String.substring 0 (String.length url - 4) url else url in
  let url :=
    if String.prefix "git@github.com:" url
    then replace "git@github.com:" "https://github.com/" url else url in
  match last_two (split_slash (rstrip_slash url)) with
  | Some (owner, repo) => (owner ++ "_" ++ repo)%string
  | None => "unknown_repo"
  end.

End GitManager.

(** ** Concrete inputs *)

Module Demo.

Definition nl : string := String Str.newline EmptyString.

(** A Python file with a class [Foo] that has a method [bar], and a
    top-level function [bar]. *)
Definition source : string :=
  "class Foo:" ++ nl ++
  "    def bar(self):" ++ nl ++
  "        pass" ++ nl ++
  "def bar():" ++ nl ++
  "    pass" ++ nl.

Definition leaf (t : string) (a b : nat) (p q : nat * nat) : Node :=
  mkNode t a b p q [].

(** The syntax tree of [source]. *)
Definition method_bar : Node :=
  mkNode "function_definition" 15 42 (1, 4) (2, 12)
    [ leaf "def" 15 18 (1, 4) (1, 7);
      leaf "identifier" 19 22 (1, 8) (1, 11);
      mkNode "parameters" 22 28 (1, 11) (1, 17)
        [ leaf "(" 22 23 (1, 11) (1, 12);
          leaf "identifier" 23 27 (1, 12) (1, 16);
          leaf ")" 27 28 (1, 16) (1, 17) ];
      leaf ":" 28 29 (1, 17) (1, 18);
      mkNode "block" 38 42 (2, 8) (2, 12)
        [ mkNode "pass_statement" 38 42 (2, 8) (2, 12)
            [ leaf "pass" 38 42 (2, 8) (2, 12) ] ] ].

Definition class_foo : Node :=
  mkNode "class_definition" 0 42 (0, 0) (2, 12)
    [ leaf "class" 0 5 (0, 0) (0, 5);
      leaf "identifier" 6 9 (0, 6) (0, 9);
      leaf ":" 9 10 (0, 9) (0, 10);
      mkNode "block" 15 42 (1, 4) (2, 12) [ method_bar ] ].

Definition function_bar : Node :=
  mkNode "function_definition" 43 62 (3, 0) (4, 8)
    [ leaf "def" 43 46 (3, 0) (3, 3);
      leaf "identifier" 47 50 (3, 4) (3, 7);
      mkNode "parameters" 50 52 (3, 7) (3, 9)
        [ leaf "(" 50 51 (3, 7) (3, 8);
          leaf ")" 51 52 (3, 8) (3, 9) ];
      leaf ":" 52 53 (3, 9) (3, 10);
      mkNode "block" 58 62 (4, 4) (4, 8)
        [ mkNode "pass_statement" 58 62 (4, 4) (4, 8)
            [ leaf "pass" 58 62 (4, 4) (4, 8) ] ] ].

Definition root : Node :=
  mkNode "module" 0 63 (0, 0) (5, 0) [ class_foo; function_bar ].

(** A file with a NUL byte at its start and a Python function after it. *)
Definition blob_bytes : string :=
  LanguageDetector.NUL ++ nl ++ "def f():" ++ nl ++ "    pass" ++ nl.

Definition blob : FsEntry :=
  {| rel_path := "blob.py"; is_file := true; readable := true;
     raw := blob_bytes |}.

(** A file that cannot be opened. *)
Definition locked : FsEntry :=
  {| rel_path := "pkg/locked.py"; is_file := true; readable := false;
     raw := "" |}.

Definition main_py : FsEntry :=
  {| rel_path := "Main.PY"; is_file := true; readable := true;
     raw := "package main" |}.

Definition server_go : FsEntry :=
  {| rel_path := "cmd/server.go"; is_file := true; readable := true;
     raw := "package main" |}.

Definition repo : Repo :=
  {| root_exists := true; repo_parts := ["/"; "srv"; "checkout"];
     entries := [blob; locked; main_py; server_go];
     os_stat := fun _ => Missing |}.

(** A run time without grammars: loading fails, the text of a file is its
    bytes, and [re] finds in [blob_bytes] what Python's [re] finds there
    for the function pattern of [_regex_parse_python] (one match, at
    offsets 2 to 10, of the name [f]) and nothing else. *)
Definition runtime : Runtime :=
  {| re_finditer := fun pattern content =>
       if String.eqb pattern "^def\s+(\w+)\s*\([^)]*\):"
          && String.eqb content blob_bytes
       then [ {| m_start := 2; m_end := 10; group1 := "f" |} ]
       else [];
     re_search := fun _ _ => false;
     decode := fun bytes => bytes;
     load_parser := fun _ => Raise "OSError" |}.

(** An analyzer whose Python grammar raises on every input. *)
Definition failing_analyzer : CodeAnalyzer.t :=
  {| CodeAnalyzer.parsers := {[ "python" := (fun _ => Raise "ValueError") : Parser ]} |}.

Definition graph_of (rels : list Relationship) : CodeContextGraph :=
  {| elements := ∅; relationships := rels; graph := empty_graph |}.

Definition mixed : CodeContextGraph :=
  graph_of [ ("a.py:f", "a.py:g", "calls");
             ("a.py:B", "a.py:A", "inherits");
             ("a.py:A", "a.py:f", "contains");
             ("a.py:g", "a.py:f", "calls") ].

(** A run time with a Python grammar that parses [source] into [root] and
    raises on any other text. *)
Definition grammar_runtime : Runtime :=
  {| re_finditer := fun _ _ => [];
     re_search := fun _ _ => false;
     decode := fun bytes => bytes;
     load_parser := fun language =>
       if String.eqb language "python"
       then Ok (fun content =>
                  if String.eqb content source then Ok root
                  else Raise "ValueError")
       else Raise "OSError" |}.

Definition foo_py : FsEntry :=
  {| rel_path := "pkg/foo.py"; is_file := true; readable := true;
     raw := source |}.

Definition project : Repo :=
  {| root_exists := true; repo_parts := ["/"; "srv"; "project"];
     entries := [foo_py; locked];
     os_stat := fun _ => Missing |}.

(** The project on a file system that also has, outside the checkout, the
    readable file [/etc/hostname], beside the checkout a copy of [source]
    at [/srv/other/x.py], and a directory [/root] that cannot be
    searched. *)
Definition hosted : Repo :=
  {| root_exists := true; repo_parts := ["/"; "srv"; "project"];
     entries := [foo_py; locked];
     os_stat := fun path =>
       if bool_decide (path = ["/"; "etc"; "hostname"])
       then Present true true "box"
       else if bool_decide (path = ["/"; "srv"; "project"; ".."; "other"; "x.py"])
       then Present true true source
       else if bool_decide (path = ["/"; "root"; "x.py"])
       then Fails "PermissionError"
       else Missing |}.





(** A Java file with a class [Box] that has a method [size], and its
    syntax tree. *)
Definition java_source : string :=
  "class Box {" ++ nl ++
  "  int size() { return 0; }" ++ nl ++
  "}" ++ nl.

Definition method_size : Node :=
  mkNode "method_declaration" 14 38 (1, 2) (1, 26)
    [ leaf "integral_type" 14 17 (1, 2) (1, 5);
      leaf "identifier" 18 22 (1, 6) (1, 10);
      leaf "formal_parameters" 22 24 (1, 10) (1, 12);
      leaf "block" 25 38 (1, 13) (1, 26) ].

Definition box_body : Node :=
  mkNode "class_body" 10 40 (0, 10) (2, 1)
    [ leaf "{" 10 11 (0, 10) (0, 11); method_size; leaf "}" 39 40 (2, 0) (2, 1) ].

Definition class_box : Node :=
  mkNode "class_declaration" 0 40 (0, 0) (2, 1)
    [ leaf "class" 0 5 (0, 0) (0, 5);
      leaf "identifier" 6 9 (0, 6) (0, 9);
      box_body ].

Definition java_root : Node :=
  mkNode "program" 0 41 (0, 0) (3, 0) [ class_box ].

(** The block of [Foo] in the tree of [source]. *)
Definition foo_block : Node :=
  mkNode "block" 15 42 (1, 4) (2, 12) [ method_bar ].

(** A checkout below a directory named [build]. *)
Definition built_repo : Repo :=
  {| root_exists := true; repo_parts := ["/"; "tmp"; "build"; "checkout"];
     entries := [main_py; server_go];
     os_stat := fun _ => Missing |}.

(** An empty file with a conventional name, below an ignored directory. *)
Definition vendored_main : FsEntry :=
  {| rel_path := "node_modules/pkg/main.py"; is_file := true;
     readable := true; raw := "" |}.

Definition vendored : Repo :=
  {| root_exists := true; repo_parts := ["/"; "srv"; "app"];
     entries := [vendored_main];
     os_stat := fun _ => Missing |}.

(** A file without suffix, and a run time whose [re.search] finds in its
    text what Python's [re] finds there among the patterns of the language
    table: the pattern [import\s+\w+], which python and java share. *)
Definition script : FsEntry :=
  {| rel_path := "tools/Deps"; is_file := true; readable := true;
     raw := "import java.util.List;" |}.

Definition search_runtime : Runtime :=
  {| re_finditer := fun _ _ => [];
     re_search := fun pattern content =>
       String.eqb pattern "import\s+\w+"
       && String.eqb content "import java.util.List;";
     decode := fun bytes => bytes;
     load_parser := fun _ => Raise "OSError" |}.

(** A detector after one go file, two python files and two java files. *)
Definition tied : LanguageDetector.t :=
  {| LanguageDetector.detected_languages := {[ "go"; "python"; "java" ]};
     LanguageDetector.file_counts := [("go", 1); ("python", 2); ("java", 2)] |}.

End Demo.

(** ** Notions of the specification *)

(** The relationships of one kind as [{from, to, relationship}] records,
    in discovery order. *)
Definition records_of_kind (kind : string) (rels : list Relationship)
  : list CodeAnalyzer.QueryRecord :=
  List.map
    (fun '(f, t, k) =>
       {| CodeAnalyzer.from := f; CodeAnalyzer.to := t;
          CodeAnalyzer.relationship := k |})
    (List.filter (fun '(_, _, k) => String.eqb k kind) rels).

(** A query mentions a word when the word occurs in it, whatever the case. *)
Definition mentions (word query : string) : bool :=
  Str.contains word (Str.lower query).

(** The languages that a scan assigns to the files, in scan order; a file
    that gets no language is left out. *)
Definition classified `{Runtime} (files : list FsEntry) : list string :=
  flat_map
    (fun file_path =>
       match LanguageDetector._detect_file_language file_path with
       | Some l => if Str.truthy (Some l) then [l] else []
       | None => []
       end)
    files.

(** The number of files classified as a language. *)
Definition occurrences (language : string) (languages : list string) : nat :=
  length (List.filter (String.eqb language) languages).

(** What [file_counts] holds once the files classified as [languages] have
    been recorded: one entry per language, with the number of its files. *)
Definition counts_of (languages : list string) (self : LanguageDetector.t) : Prop :=
  List.NoDup (map fst (LanguageDetector.file_counts self))
  /\ (forall l,
        dict_get (LanguageDetector.file_counts self) l
        = if (occurrences l languages =? 0)%nat then None
          else Some (occurrences l languages))
  /\ LanguageDetector.total_files_of self = length languages.

(** The repository without the entry at a relative path: the path is not
    listed and nothing is found at it. *)
Definition without_path (r : Repo) (p : string) : Repo :=
  {| root_exists := root_exists r;
     repo_parts := repo_parts r;
     entries := List.filter (fun e => negb (String.eqb (rel_str e) p)) (entries r);
     os_stat := fun path =>
       if bool_decide (path = repo_parts r ++ PurePath.components p)
       then Missing else os_stat r path |}.

(** A file is binary when a NUL byte occurs in its first 1024 bytes. *)
Definition has_nul_in_first_kb (e : FsEntry) : bool :=
  Str.contains LanguageDetector.NUL (String.substring 0 1024 (raw e)).

(** Both endpoints of every relationship are keys of the element mapping. *)
Definition rel_closed (st : CodeAnalyzer.Parsed) : Prop :=
  Forall (fun '(f, t, _) => f ∈ dom (fst st) /\ t ∈ dom (fst st)) (snd st).

Definition parent_known (parent : option string) (st : CodeAnalyzer.Parsed) : Prop :=
  forall p, parent = Some p -> p ∈ dom (fst st).

(** A traversal step keeps the relationships closed and drops no key. *)
Definition keeps_closed
    (traverse : Node -> option string -> CodeAnalyzer.Parsed -> CodeAnalyzer.Parsed)
    (node : Node) : Prop :=
  forall parent st,
    rel_closed st -> parent_known parent st ->
    rel_closed (traverse node parent st)
    /\ dom (fst st) ⊆ dom (fst (traverse node parent st)).

(** A name of a path: not empty, not [.], and without a slash. *)
Definition plain (p : string) : Prop :=
  PurePath.kept p = true /\ Str.contains "/" p = false.

(** The check of an entry point goes through: [os.stat] does not raise
    for its path, and when the parts of the root do not begin the path,
    no file that can be read is found there. *)
Definition passes (r : Repo) (entry_point : string) : Prop :=
  let path := PurePath.joinpath (repo_parts r) entry_point in
  match os_stat r path with
  | Fails _ => False
  | Missing => True
  | Present file can_read _ =>
      match PurePath.relative_to path (repo_parts r) with
      | Ok _ => True
      | Raise _ => file && can_read = false
      end
  end.

(** A path under which a run analyses a file: the relative path of an
    entry of the listing, or the relative path of an entry point. *)
Definition analysed_path (r : Repo) (entry_points : list string) (fp : string)
  : Prop :=
  (exists e, In e (entries r) /\ fp = rel_str e)
  \/ (exists entry_point rel,
        In entry_point entry_points
        /\ PurePath.relative_to (PurePath.joinpath (repo_parts r) entry_point)
             (repo_parts r) = Ok rel
        /\ fp = PurePath.str rel).


(** *** A common form of the three grammar traversals

    [_parse_python_ast], [_parse_javascript_ast] and [_parse_java_ast]
    differ in the node types they look for and in whether they descend into
    a class body; [traverse] is that common shape, and the three traversals
    are shown equal to its instances before it is used in a proof. *)

Record Grammar := {
  function_kind : string;
  class_kind : string;
  body_kind : option string;
  import_kind : option string
}.

Definition python_grammar : Grammar :=
  {| function_kind := "function_definition"; class_kind := "class_definition";
     body_kind := Some "block"; import_kind := Some "import_statement" |}.

Definition javascript_grammar : Grammar :=
  {| function_kind := "function_declaration"; class_kind := "class_declaration";
     body_kind := None; import_kind := None |}.

Definition java_grammar : Grammar :=
  {| function_kind := "method_declaration"; class_kind := "class_declaration";
     body_kind := Some "class_body"; import_kind := None |}.

(** The descent into the bodies of a class: every child of the body type
    has its own children traversed with the class as parent. *)
Definition descend
    (visit : Node -> option string -> CodeAnalyzer.Parsed -> CodeAnalyzer.Parsed)
    (bk k : string) (cs : list Node) (st : CodeAnalyzer.Parsed)
  : CodeAnalyzer.Parsed :=
  fold_left
    (fun s child =>
       if String.eqb (node_type child) bk then
         fold_left (fun s' grandchild => visit grandchild (Some k) s')
           (node_children child) s
       else s)
    cs st.

(** What a node contributes before its children are traversed. *)
Definition declaration_step (g : Grammar)
    (visit : Node -> option string -> CodeAnalyzer.Parsed -> CodeAnalyzer.Parsed)
    (fp content : string) (node : Node) (parent : option string)
    (st : CodeAnalyzer.Parsed) : CodeAnalyzer.Parsed :=
  if String.eqb (node_type node) (function_kind g) then
    match CodeAnalyzer._get_node_text node content "identifier" with
    | Some nm =>
        if Str.truthy (Some nm)
        then CodeAnalyzer.declare nm Function_ fp node parent st
        else st
    | None => st
    end
  else if String.eqb (node_type node) (class_kind g) then
    match CodeAnalyzer._get_node_text node content "identifier" with
    | Some nm =>
        if Str.truthy (Some nm) then
          match body_kind g with
          | Some bk =>
              descend visit bk (CodeAnalyzer.element_id fp nm) (node_children node)
                (CodeAnalyzer.declare nm Class_ fp node parent st)
          | None => CodeAnalyzer.declare nm Class_ fp node parent st
          end
        else st
    | None => st
    end
  else
    match import_kind g with
    | Some ik =>
        if String.eqb (node_type node) ik then
          match CodeAnalyzer._get_import_name node content with
          | Some module_name =>
              if Str.truthy (Some module_name) then
                CodeAnalyzer.set_element (CodeAnalyzer.import_id fp module_name)
                  (CodeAnalyzer.element_of_node module_name Import_ fp node None) st
              else st
          | None => st
          end
        else st
    | None => st
    end.

Fixpoint traverse (g : Grammar) (fp content : string) (node : Node)
    (parent : option string) (st : CodeAnalyzer.Parsed) {struct node}
  : CodeAnalyzer.Parsed :=
  match node with
  | mkNode _ _ _ _ _ cs =>
      fold_left (fun s child => traverse g fp content child parent s) cs
        (declaration_step g (traverse g fp content) fp content node parent st)
  end.

(** The id that a node is registered under, when it is registered. *)
Definition own_ids (g : Grammar) (fp content : string) (node : Node) : gset string :=
  if String.eqb (node_type node) (function_kind g)
     || String.eqb (node_type node) (class_kind g) then
    match CodeAnalyzer._get_node_text node content "identifier" with
    | Some nm =>
        if Str.truthy (Some nm) then {[ CodeAnalyzer.element_id fp nm ]} else ∅
    | None => ∅
    end
  else
    match import_kind g with
    | Some ik =>
        if String.eqb (node_type node) ik then
          match CodeAnalyzer._get_import_name node content with
          | Some module_name =>
              if Str.truthy (Some module_name)
              then {[ CodeAnalyzer.import_id fp module_name ]} else ∅
          | None => ∅
          end
        else ∅
    | None => ∅
    end.

(** The ids that the traversal of a tree writes. *)
Fixpoint written_ids (g : Grammar) (fp content : string) (node : Node)
  : gset string :=
  match node with
  | mkNode _ _ _ _ _ cs =>
      own_ids g fp content node
      ∪ union_list (List.map (written_ids g fp content) cs)
  end.

(** [d] is [n] or one of its descendants. *)
Inductive subnode : Node -> Node -> Prop :=
| subnode_here (n : Node) : subnode n n
| subnode_below (n c d : Node) :
    In c (node_children n) -> subnode c d -> subnode n d.

(** The id that a record is stored under is built from the record's own
    path and name, in the form of its kind; its optional fields other than
    [parent] are unset. *)
Definition record_of (fp k : string) (el : CodeElement) : Prop :=
  file_path el = fp
  /\ k = match type el with
         | Import_ => CodeAnalyzer.import_id fp (name el)
         | _ => CodeAnalyzer.element_id fp (name el)
         end
  /\ (type el = Function_ \/ type el = Class_ \/ type el = Import_)
  /\ docstring el = None /\ parameters el = None
  /\ return_type el = None /\ children el = None.



(** The kind of every relationship is [contains]. *)
Definition only_contains (rels : list Relationship) : Prop :=
  Forall (fun '(_, _, kind) => kind = "contains") rels.

(** The instance of [traverse] that [_parse_with_treesitter] runs for a
    language. *)
Definition grammar_for (language : string) : option Grammar :=
  if String.eqb language "python" then Some python_grammar
  else if String.eqb language "javascript" then Some javascript_grammar
  else if String.eqb language "java" then Some java_grammar
  else None.



(** The languages of a list up to the first one whose grammar fails to
    load. *)
Fixpoint loadable_prefix `{Runtime} (langs : list string) : list string :=
  match langs with
  | [] => []
  | l :: langs' =>
      match load_parser l with
      | Ok _ => l :: loadable_prefix langs'
      | Raise _ => []
      end
  end.

(** The languages that [_initialize_parsers] tries, in its order. *)
Definition grammar_languages : list string :=
  ["python"; "javascript"; "java"; "cpp"; "rust"; "go"].

(** The merged state holds what a file has contributed. *)
Definition includes (file acc : CodeAnalyzer.Parsed) : Prop :=
  dom (fst file) ⊆ dom (fst acc)
  /\ forall rel, In rel (snd file) -> In rel (snd acc).

(** * Properties *)

(** ** Strings and paths *)

Section Strings.

Lemma append_nil_r (s : string) : (s ++ "")%string = s.
Proof.
  induction s as [|c s IH]; [done|].
  change (String c s ++ "")%string with (String c (s ++ "")). by rewrite IH.
Qed.

Lemma append_assoc (a b c : string) : ((a ++ b) ++ c = a ++ (b ++ c))%string.
Proof.
  induction a as [|x a IH]; [done|].
  change (String x (((a ++ b) ++ c)%string) = String x (a ++ (b ++ c))%string).
  by rewrite IH.
Qed.

Lemma length_append (a b : string) :
  String.length (a ++ b) = String.length a + String.length b.
Proof.
  induction a as [|x a IH]; [done|].
  change (S (String.length (a ++ b)) = S (String.length a + String.length b)).
  by rewrite IH.
Qed.

Lemma contains_slash_cons (x : ascii) (s : string) :
  Str.contains "/" (String x s) = Ascii.eqb "/" x || Str.contains "/" s.
Proof.
  cbn [Str.contains String.prefix].
  destruct (Ascii.ascii_dec "/" x) as [<-|Hne].
  - rewrite Ascii.eqb_refl. by destruct s.
  - apply Ascii.eqb_neq in Hne. by rewrite Hne.
Qed.

Lemma contains_slash_app (a b : string) :
  Str.contains "/" (a ++ b) = Str.contains "/" a || Str.contains "/" b.
Proof.
  induction a as [|x a IH].
  - change ("" ++ b)%string with b. by destruct b.
  - change (String x a ++ b)%string with (String x (a ++ b)).
    rewrite !contains_slash_cons, IH. by rewrite orb_assoc.
Qed.

End Strings.

Section Paths.

Import PurePath.

Lemma split_from_free (s cur : string) :
  Str.contains "/" cur = false ->
  Forall (fun part => Str.contains "/" part = false) (split_from s cur).
Proof.
  revert cur. induction s as [|c s IH]; intros cur Hcur; simpl.
  - by repeat constructor.
  - destruct (Ascii.eqb c "/") eqn:Hc.
    + constructor; [done|]. by apply IH.
    + apply IH. rewrite contains_slash_app, Hcur, contains_slash_cons.
      rewrite Ascii.eqb_sym, Hc. done.
Qed.

Lemma components_plain (s : string) : Forall plain (components s).
Proof.
  apply Forall_forall. intros p Hin. apply list_elem_of_In in Hin.
  unfold components in Hin. apply filter_In in Hin as [Hin Hkept].
  split; [done|].
  pose proof (split_from_free s "" eq_refl) as Hfree.
  rewrite Forall_forall in Hfree. by apply Hfree, list_elem_of_In.
Qed.

Lemma split_from_app (a s cur : string) :
  Str.contains "/" a = false ->
  split_from (a ++ String "/" s) cur = (cur ++ a)%string :: split_from s "".
Proof.
  revert cur. induction a as [|c a IH]; intros cur Ha.
  - change ("" ++ String "/" s)%string with (String "/" s). simpl.
    by rewrite append_nil_r.
  - rewrite contains_slash_cons in Ha. apply orb_false_iff in Ha as [Hc Ha].
    change (String c a ++ String "/" s)%string with (String c (a ++ String "/" s)).
    simpl. rewrite Ascii.eqb_sym, Hc, IH by done.
    by rewrite append_assoc.
Qed.

Lemma split_from_whole (a cur : string) :
  Str.contains "/" a = false -> split_from a cur = [(cur ++ a)%string].
Proof.
  revert cur. induction a as [|c a IH]; intros cur Ha; simpl.
  - by rewrite append_nil_r.
  - rewrite contains_slash_cons in Ha. apply orb_false_iff in Ha as [Hc Ha].
    rewrite Ascii.eqb_sym, Hc, IH by done. by rewrite append_assoc.
Qed.

Lemma split_join (p : string) (ps : list string) :
  Forall plain (p :: ps) -> split_from (Str.join "/" (p :: ps)) "" = p :: ps.
Proof.
  revert p. induction ps as [|q ps IH]; intros p Hplain.
  - apply Forall_inv in Hplain as [_ Hfree]. by apply split_from_whole.
  - inversion Hplain as [|? ? [_ Hfree] Hrest]; subst.
    change (Str.join "/" (p :: q :: ps))
      with (p ++ String "/" (Str.join "/" (q :: ps)))%string.
    rewrite split_from_app by done. by rewrite IH.
Qed.

Lemma filter_kept (ps : list string) :
  Forall plain ps -> List.filter kept ps = ps.
Proof.
  induction 1 as [|p ps [Hkept _] _ IH]; simpl; [done|].
  by rewrite Hkept, IH.
Qed.

(** The text of a path without a root parses back to its parts. *)
Lemma components_str (ps : list string) :
  Forall plain ps -> components (str ps) = ps.
Proof.
  intros Hplain. destruct ps as [|p ps]; [done|].
  unfold components, str. rewrite split_join by done. by apply filter_kept.
Qed.

Lemma plain_no_root (p : string) : plain p -> String.prefix "/" p = false.
Proof.
  intros [Hkept Hfree]. destruct p as [|c p]; [done|].
  rewrite contains_slash_cons in Hfree. apply orb_false_iff in Hfree as [Hc _].
  apply Ascii.eqb_neq in Hc. cbn [String.prefix].
  destruct (Ascii.ascii_dec "/" c) as [Heq|_]; [by destruct Hc | done].
Qed.

Lemma prefix_of_root (a s : string) :
  String.prefix "/" s = false -> String.prefix (String "/" a) s = false.
Proof.
  destruct s as [|c s]; [reflexivity|]. cbn [String.prefix].
  destruct (Ascii.ascii_dec "/" c) as [_|_]; [|done].
  by destruct s.
Qed.

Lemma prefix_root_app (p s : string) :
  String.prefix "/" p = false -> p <> "" -> String.prefix "/" (p ++ s) = false.
Proof.
  intros Hp Hne. destruct p as [|c p]; [done|].
  change (String c p ++ s)%string with (String c (p ++ s)).
  cbn [String.prefix] in *.
  destruct (Ascii.ascii_dec "/" c) as [_|_]; [|done].
  by destruct p.
Qed.

Lemma anchor_str (ps : list string) : Forall plain ps -> anchor (str ps) = None.
Proof.
  intros Hplain. destruct ps as [|p ps]; [done|].
  assert (Hroot : String.prefix "/" (str (p :: ps)) = false).
  { apply Forall_inv in Hplain as Hp. pose proof (plain_no_root p Hp) as Hno.
    destruct ps as [|q ps]; [done|].
    change (str (p :: q :: ps))
      with (p ++ String "/" (Str.join "/" (q :: ps)))%string.
    apply prefix_root_app; [done|]. destruct Hp as [Hkept _]. by destruct p. }
  unfold anchor.
  by rewrite (prefix_of_root "//" _ Hroot), (prefix_of_root "/" _ Hroot), Hroot.
Qed.

Lemma strip_prefix_app (pre l : list string) : strip_prefix pre (pre ++ l) = Some l.
Proof.
  induction pre as [|p pre IH]; simpl; [done|]. by rewrite String.eqb_refl.
Qed.

Lemma strip_prefix_spec (pre l rest : list string) :
  strip_prefix pre l = Some rest -> l = pre ++ rest.
Proof.
  revert l. induction pre as [|p pre IH]; intros l; simpl.
  - by intros [= ->].
  - destruct l as [|x l]; [done|].
    destruct (String.eqb p x) eqn:Hpx; [|done].
    apply String.eqb_eq in Hpx as ->. intros Hrest. f_equal. by apply IH.
Qed.

Lemma relative_to_spec (self other rel : list string) :
  relative_to self other = Ok rel -> self = other ++ rel.
Proof.
  unfold relative_to.
  destruct (strip_prefix other self) as [rest|] eqn:Hstrip; [|done].
  apply strip_prefix_spec in Hstrip.
  destruct other; [destruct (anchored self)|]; intros [= <-]; done.
Qed.

Lemma relative_to_app (root ps : list string) :
  Forall plain ps -> relative_to (root ++ ps) root = Ok ps.
Proof.
  intros Hplain. unfold relative_to. rewrite strip_prefix_app.
  destruct root as [|x root]; [|done]. simpl.
  destruct ps as [|p ps]; [done|]. simpl.
  by rewrite (plain_no_root p (Forall_inv Hplain)).
Qed.

(** The relative path of a joined path, when there is one, is made of
    names of the text that was joined. *)
Lemma relative_to_joinpath (root : list string) (s : string) (rel : list string) :
  relative_to (joinpath root s) root = Ok rel -> Forall plain rel.
Proof.
  unfold joinpath. destruct (anchor s) as [a|] eqn:Hanchor.
  - intros Hrel.
    assert (Ha : String.prefix "/" a = true).
    { unfold anchor in Hanchor. by repeat case_match; simplify_eq. }
    destruct root as [|x root].
    + unfold relative_to in Hrel. simpl in Hrel. by rewrite Ha in Hrel.
    + apply relative_to_spec in Hrel. injection Hrel as -> Hrel.
      pose proof (components_plain s) as Hplain. rewrite Hrel in Hplain.
      by apply Forall_app in Hplain as [_ ?].
  - intros Hrel. apply relative_to_spec in Hrel.
    apply app_inv_head in Hrel as <-. apply components_plain.
Qed.

Lemma rel_parts_plain (e : FsEntry) : Forall plain (rel_parts e).
Proof. apply components_plain. Qed.

(** The relative path of an entry, taken as an entry point, is the path of
    the entry. *)
Lemma joinpath_rel_str (root : list string) (e : FsEntry) :
  joinpath root (rel_str e) = root ++ rel_parts e.
Proof.
  unfold joinpath, rel_str.
  by rewrite anchor_str, components_str by apply rel_parts_plain.
Qed.

Lemma str_inj (ps qs : list string) :
  Forall plain ps -> Forall plain qs -> str ps = str qs -> ps = qs.
Proof.
  intros Hps Hqs Heq. rewrite <- (components_str ps), <- (components_str qs) by done.
  by rewrite Heq.
Qed.

End Paths.


(** ** The relationship query *)

Section Query.

Import CodeAnalyzer.

Lemma select_kind_from (kind : string) (rels : list Relationship)
    (acc : list QueryRecord) :
  fold_left
    (fun results '(from_id, to_id, rel_type) =>
       if String.eqb rel_type kind
       then results ++ [{| from := from_id; to := to_id; relationship := rel_type |}]
       else results)
    rels acc
  = acc ++ records_of_kind kind rels.
Proof.
  revert acc. induction rels as [|[[f t] k] rels IH]; intros acc; simpl.
  - by rewrite app_nil_r.
  - rewrite IH. unfold records_of_kind. simpl.
    destruct (String.eqb k kind); simpl; [|done].
    by rewrite <- app_assoc.
Qed.

Lemma select_kind_spec (kind : string) (rels : list Relationship) :
  select_kind kind rels = records_of_kind kind rels.
Proof. unfold select_kind. by rewrite select_kind_from. Qed.

Lemma records_of_kind_relationship (kind : string) (rels : list Relationship)
    (rec : QueryRecord) :
  In rec (records_of_kind kind rels) -> relationship rec = kind.
Proof.
  unfold records_of_kind. rewrite in_map_iff.
  intros [[[f t] k] [<- Hin]]. apply filter_In in Hin as [_ Hk].
  simpl. by apply String.eqb_eq.
Qed.

(** C5, as amended: a query that mentions "calls" gets exactly the [calls]
    relationships, as records and in discovery order; a query that mentions
    "inherits" and does not mention "calls" gets exactly the [inherits]
    relationships; a query that mentions neither gets the empty result. *)
Theorem query_relationships_by_kind (ccg : CodeContextGraph) (query : string) :
  (mentions "calls" query = true ->
     query_relationships ccg query = records_of_kind "calls" (relationships ccg))
  /\ (mentions "calls" query = false -> mentions "inherits" query = true ->
     query_relationships ccg query = records_of_kind "inherits" (relationships ccg))
  /\ (mentions "calls" query = false -> mentions "inherits" query = false ->
     query_relationships ccg query = []).
Proof.
  unfold query_relationships, mentions.
  repeat split; intros; repeat match goal with H : _ = _ |- _ => rewrite H end;
    auto using select_kind_spec.
Qed.

(** C9: a query that mentions both "calls" and "inherits" gets the [calls]
    relationships only; no record of the result is an [inherits] one. *)
Theorem query_calls_takes_precedence (ccg : CodeContextGraph) (query : string) :
  mentions "calls" query = true ->
  mentions "inherits" query = true ->
  query_relationships ccg query = records_of_kind "calls" (relationships ccg)
  /\ forall rec, In rec (query_relationships ccg query) ->
       relationship rec = "calls" /\ relationship rec <> "inherits".
Proof.
  intros Hc _.
  assert (Hq : query_relationships ccg query
               = records_of_kind "calls" (relationships ccg)).
  { unfold query_relationships. unfold mentions in Hc. rewrite Hc.
    apply select_kind_spec. }
  split; [exact Hq|].
  intros rec Hin. rewrite Hq in Hin.
  apply records_of_kind_relationship in Hin. rewrite Hin. by split.
Qed.

End Query.

(** ** The two parsing strategies *)

Section Strategies.

Context `{Runtime}.

Import CodeAnalyzer.

(** C10: for a language other than [python], [javascript] and [java] the
    regex strategy returns no element and no relationship. *)
Theorem parse_with_regex_other_language (content fp language : string) :
  language <> "python" -> language <> "javascript" -> language <> "java" ->
  _parse_with_regex content fp language = (∅, []).
Proof.
  intros Hpy Hjs Hjava. unfold _parse_with_regex.
  apply String.eqb_neq in Hpy, Hjs, Hjava.
  by rewrite Hpy, Hjs, Hjava.
Qed.

Lemma parse_with_treesitter_ok (self : t) (content fp language : string) :
  exists parsed, _parse_with_treesitter self content fp language = Ok parsed.
Proof.
  unfold _parse_with_treesitter.
  destruct (parsers self !! language) as [parser|]; simpl; [|eauto].
  destruct (parser content) as [root_node|err]; simpl; [|eauto].
  repeat case_match; simpl; eauto.
Qed.

(** [_analyze_file] for a path below the root. *)
Lemma analyze_file_below (self : t) (e : FsEntry) (language : string) :
  _analyze_file self (Below e) language
  = match read_text e with
    | Raise _ => Ok no_elements
    | Ok content =>
        if bool_decide (is_Some (parsers self !! language)) then
          _parse_with_treesitter self content (rel_str e) language
        else Ok (_parse_with_regex content (rel_str e) language)
    end.
Proof. unfold _analyze_file. simpl. by destruct (read_text e). Qed.

(** [_analyze_file] for a path apart from the root: [relative_to] raises
    once the file has been read. *)
Lemma analyze_file_apart (self : t) (file can_read : bool) (bytes language : string) :
  _analyze_file self (Apart file can_read bytes) language
  = if file && can_read then Raise "ValueError" else Ok no_elements.
Proof. unfold _analyze_file. simpl. by destruct (file && can_read). Qed.

Lemma analyze_file_ok (self : t) (e : FsEntry) (language : string) :
  exists parsed, _analyze_file self (Below e) language = Ok parsed.
Proof.
  rewrite analyze_file_below. destruct (read_text e) as [content|err]; [|eauto].
  case_bool_decide; [apply parse_with_treesitter_ok | eauto].
Qed.

(** C4: when the text of a file has been read, and either no parser is
    registered for the language or the registered parser raises on that
    text, [_analyze_file] returns the result of the regex strategy; it does
    not raise. *)
Theorem analyze_file_falls_back (self : t) (e : FsEntry)
    (language content : string) :
  read_text e = Ok content ->
  parsers self !! language = None
  \/ (exists parser err,
        parsers self !! language = Some parser /\ parser content = Raise err) ->
  _analyze_file self (Below e) language
  = Ok (_parse_with_regex content (rel_str e) language).
Proof.
  intros Hread Hgrammar. rewrite analyze_file_below, Hread.
  destruct Hgrammar as [Hnone | (parser & err & Hsome & Hraise)].
  - rewrite bool_decide_eq_false_2; [done|].
    rewrite Hnone. by intros [? ?].
  - rewrite bool_decide_eq_true_2 by eauto.
    unfold _parse_with_treesitter. rewrite Hsome. simpl.
    by rewrite Hraise.
Qed.

End Strategies.

(** ** Classification of one file *)

Section Classification.

Context `{Runtime}.

Import LanguageDetector.

Lemma detect_by_extension (file_path : FsEntry) (language : string) :
  dict_get EXTENSION_MAP (Str.lower (suffix (path_name file_path))) = Some language ->
  _detect_file_language file_path = Some language.
Proof. intros Hext. unfold _detect_file_language. by rewrite Hext. Qed.

(** C7: a file whose suffix is [.py], whatever the case of its letters, is
    classified as [python]; its content is not looked at, so the result is
    the same for every content, readable or not. *)
Theorem detect_py_extension (file_path : FsEntry) :
  Str.lower (suffix (path_name file_path)) = ".py" ->
  forall (bytes : string) (can_read : bool),
    _detect_file_language
      {| rel_path := rel_path file_path; is_file := is_file file_path;
         readable := can_read; raw := bytes |}
    = Some "python"
    /\ _detect_file_language file_path = Some "python".
Proof.
  intros Hext bytes can_read.
  split; apply detect_by_extension.
  - change (path_name {| rel_path := rel_path file_path;
                         is_file := is_file file_path;
                         readable := can_read; raw := bytes |})
      with (path_name file_path).
    by rewrite Hext.
  - by rewrite Hext.
Qed.

End Classification.

(** ** Aggregation over a repository *)

Section Dict.

Context {V : Type}.

Lemma dict_get_set (d : list (string * V)) (k l : string) (v : V) :
  dict_get (dict_set d k v) l = if String.eqb k l then Some v else dict_get d l.
Proof.
  induction d as [|[k' v'] d IH]; simpl.
  - done.
  - destruct (String.eqb k' k) eqn:Hk; simpl.
    + apply String.eqb_eq in Hk as ->. by destruct (String.eqb k l).
    + rewrite IH. destruct (String.eqb k' l) eqn:Hl; [|done].
      apply String.eqb_eq in Hl as <-. by rewrite String.eqb_sym, Hk.
Qed.

Lemma dict_get_In (d : list (string * V)) (k : string) (v : V) :
  dict_get d k = Some v -> In (k, v) d.
Proof.
  induction d as [|[k' v'] d IH]; simpl; [done|].
  destruct (String.eqb k' k) eqn:Hk.
  - apply String.eqb_eq in Hk as ->. intros [= ->]. by left.
  - intros Hget. right. by apply IH.
Qed.

Lemma dict_get_not_key (d : list (string * V)) (k : string) :
  ~ In k (map fst d) -> dict_get d k = None.
Proof.
  induction d as [|[k' v'] d IH]; simpl; [done|].
  intros Hnot. destruct (String.eqb k' k) eqn:Hk.
  - apply String.eqb_eq in Hk. tauto.
  - apply IH. tauto.
Qed.

Lemma In_dict_get (d : list (string * V)) (k : string) (v : V) :
  List.NoDup (map fst d) -> In (k, v) d -> dict_get d k = Some v.
Proof.
  induction d as [|[k' v'] d IH]; simpl; [done|].
  intros Hnodup [Heq | Hin].
  - injection Heq as -> ->. by rewrite String.eqb_refl.
  - inversion Hnodup as [|? ? Hnot Hrest]; subst.
    destruct (String.eqb k' k) eqn:Hk.
    + apply String.eqb_eq in Hk as ->. exfalso. apply Hnot.
      apply in_map_iff. by exists (k, v).
    + by apply IH.
Qed.

Lemma dict_set_keys (d : list (string * V)) (k : string) (v : V) :
  map fst (dict_set d k v)
  = if existsb (String.eqb k) (map fst d) then map fst d else map fst d ++ [k].
Proof.
  induction d as [|[k' v'] d IH]; simpl; [done|].
  rewrite (String.eqb_sym k k').
  destruct (String.eqb k' k) eqn:Hk; simpl; [done|].
  rewrite IH. by destruct (existsb _ _).
Qed.

Lemma dict_set_NoDup (d : list (string * V)) (k : string) (v : V) :
  List.NoDup (map fst d) -> List.NoDup (map fst (dict_set d k v)).
Proof.
  intros Hnodup. rewrite dict_set_keys.
  destruct (existsb (String.eqb k) (map fst d)) eqn:Hex; [done|].
  apply NoDup_ListNoDup, NoDup_app. repeat split.
  - by apply NoDup_ListNoDup.
  - intros x Hx Hk. apply list_elem_of_In in Hx.
    apply list_elem_of_singleton in Hk as ->.
    assert (existsb (String.eqb k) (map fst d) = true); [|congruence].
    apply existsb_exists. exists k. split; [done | apply String.eqb_refl].
  - apply NoDup_singleton.
Qed.

End Dict.

Section Aggregation.

Import LanguageDetector.

Lemma sum_from (d : list (string * nat)) (a : nat) :
  fold_left (fun acc item => acc + snd item) d a = a + list_sum (map snd d).
Proof.
  revert a. induction d as [|x d IH]; intros a; simpl; [lia|].
  rewrite IH. lia.
Qed.

Lemma max_from (d : list (string * nat)) (a : nat) :
  fold_left (fun acc item => Nat.max acc (snd item)) d a
  = Nat.max a (list_max (map snd d)).
Proof.
  revert a. induction d as [|x d IH]; intros a; simpl; [lia|].
  rewrite IH. lia.
Qed.

Lemma list_max_upper (l : list nat) (n : nat) : In n l -> n <= list_max l.
Proof.
  intros Hin. assert (Hall : Forall (fun k => k <= list_max l) l).
  { by apply list_max_le. }
  rewrite Forall_forall in Hall. apply Hall. by apply list_elem_of_In.
Qed.

Lemma sum_after_increment (d : list (string * nat)) (k : string) :
  list_sum (map snd (dict_set d k (default 0 (dict_get d k) + 1)))
  = list_sum (map snd d) + 1.
Proof.
  induction d as [|[k' v'] d IH]; simpl; [done|].
  destruct (String.eqb k' k); simpl; [lia|].
  rewrite IH. lia.
Qed.

Lemma occurrences_snoc (l k : string) (ls : list string) :
  occurrences l (ls ++ [k])
  = occurrences l ls + (if String.eqb l k then 1 else 0).
Proof.
  unfold occurrences. rewrite List.filter_app, length_app. simpl.
  by destruct (String.eqb l k).
Qed.

Lemma occurrences_In (l : string) (ls : list string) :
  occurrences l ls <> 0 -> In l ls.
Proof.
  unfold occurrences. intros Hocc.
  destruct (List.filter (String.eqb l) ls) as [|x xs] eqn:Hf; [done|].
  assert (Hx : In x (List.filter (String.eqb l) ls)) by (rewrite Hf; by left).
  apply filter_In in Hx as [Hin Heq]. by apply String.eqb_eq in Heq as ->.
Qed.

Lemma sorted_by_count_head (items : list (string * nat)) :
  items <> [] ->
  exists h rest,
    sorted_by_count items = h :: rest
    /\ In h items
    /\ forall x, In x items -> snd x <= snd h.
Proof.
  induction items as [|x items IH]; [done|]. intros _. simpl.
  destruct items as [|y items].
  - exists x, []. simpl. repeat split; [tauto|]. intros ? [<- | []]. lia.
  - destruct IH as (h & rest & Hsorted & Hin & Hmax); [done|].
    rewrite Hsorted. simpl. destruct (snd h <=? snd x)%nat eqn:Hle.
    + apply Nat.leb_le in Hle. exists x, (h :: rest).
      repeat split; [tauto|]. intros z [<- | Hz]; [lia|].
      specialize (Hmax z Hz). lia.
    + apply Nat.leb_gt in Hle. exists h, (insert_by_count x rest).
      repeat split; [tauto|]. intros z [<- | Hz]; [lia|]. by apply Hmax.
Qed.

Lemma counts_of_init : counts_of [] __init__.
Proof. repeat split; simpl; try done. constructor. Qed.

Lemma counts_of_record (languages : list string) (self : t) (l : string) :
  Str.truthy (Some l) = true ->
  counts_of languages self ->
  counts_of (languages ++ [l]) (record_language self (Some l)).
Proof.
  intros Htruthy (Hnodup & Hget & Htotal). unfold record_language.
  rewrite Htruthy. repeat split; simpl.
  - by apply dict_set_NoDup.
  - intros l'. rewrite dict_get_set, occurrences_snoc, (String.eqb_sym l l').
    destruct (String.eqb l' l) eqn:Heq.
    + apply String.eqb_eq in Heq as ->. rewrite Hget.
      destruct (occurrences l languages =? 0)%nat eqn:Hz.
      * apply Nat.eqb_eq in Hz. rewrite Hz. done.
      * simpl. destruct (occurrences l languages + 1 =? 0)%nat eqn:Hz'; [|done].
        apply Nat.eqb_eq in Hz'. lia.
    + rewrite Hget, Nat.add_0_r. done.
  - unfold total_files_of in *. simpl. rewrite sum_from in *.
    rewrite sum_after_increment, length_app. simpl. lia.
Qed.

Lemma counts_of_scan `{Runtime} (files : list FsEntry) (languages : list string)
    (self : t) :
  counts_of languages self ->
  counts_of (languages ++ classified files)
    (fold_left
       (fun self file_path => record_language self (_detect_file_language file_path))
       files self).
Proof.
  revert languages self. induction files as [|f files IH]; intros languages self Hinv.
  - simpl. by rewrite app_nil_r.
  - change (classified (f :: files))
      with (match _detect_file_language f with
            | Some l => if Str.truthy (Some l) then [l] else []
            | None => []
            end ++ classified files).
    cbn [fold_left].
    destruct (_detect_file_language f) as [l|] eqn:Hl.
    + destruct (Str.truthy (Some l)) eqn:Htruthy.
      * rewrite app_assoc. apply IH. by apply counts_of_record.
      * rewrite app_nil_l. apply IH. unfold record_language. by rewrite Htruthy.
    + rewrite app_nil_l. by apply IH.
Qed.

Lemma In_occurrences (l : string) (ls : list string) :
  In l ls -> occurrences l ls <> 0.
Proof.
  intros Hin. unfold occurrences.
  assert (Hf : In l (List.filter (String.eqb l) ls)).
  { apply filter_In. split; [done | apply String.eqb_refl]. }
  destruct (List.filter (String.eqb l) ls); [done | simpl; lia].
Qed.

Lemma counts_of_lookup (languages : list string) (self : t) (l : string) (n : nat) :
  counts_of languages self ->
  In (l, n) (file_counts self) ->
  n = occurrences l languages /\ n <> 0.
Proof.
  intros (Hnodup & Hget & _) Hin.
  apply In_dict_get in Hin; [|done]. rewrite Hget in Hin.
  destruct (occurrences l languages =? 0)%nat eqn:Hz; [done|].
  apply Nat.eqb_neq in Hz. injection Hin as <-. done.
Qed.

Lemma counts_of_member (languages : list string) (self : t) (l : string) :
  counts_of languages self ->
  occurrences l languages <> 0 ->
  In (l, occurrences l languages) (file_counts self).
Proof.
  intros (_ & Hget & _) Hocc. apply dict_get_In. rewrite Hget.
  apply Nat.eqb_neq in Hocc. by rewrite Hocc.
Qed.

(** C6: over the files of a scan that were classified, the primary
    language is a language with the largest number of files, and the
    confidence is that number divided by the number of classified files;
    when no file was classified the confidence is 0. *)
Theorem primary_language_and_confidence `{Runtime} (files : list FsEntry) :
  let d := summary (scan_files files) in
  let languages := classified files in
  (languages <> [] ->
     In (primary_language d) languages
     /\ (forall l,
           occurrences l languages <= occurrences (primary_language d) languages)
     /\ confidence d
        = (Z.of_nat (occurrences (primary_language d) languages)
           # Pos.of_nat (length languages))%Q)
  /\ (languages = [] -> confidence d = 0%Q).
Proof.
  intros d languages. subst d. simpl.
  assert (Hinv : counts_of languages (scan_files files)).
  { apply (counts_of_scan files [] __init__), counts_of_init. }
  set (self := scan_files files) in *.
  split.
  - intros Hne.
    assert (Hfc : file_counts self <> []).
    { destruct languages as [|l0 ls] eqn:Hls; [done|].
      assert (Hin : In (l0, occurrences l0 (l0 :: ls)) (file_counts self)).
      { apply counts_of_member; [done|]. apply In_occurrences. by left. }
      intros Hnil. by rewrite Hnil in Hin. }
    destruct (sorted_by_count_head (file_counts self) Hfc)
      as ([lang n] & rest & Hsorted & Hin & Hmax).
    assert (Hprimary : _get_primary_language self = lang).
    { unfold _get_primary_language. rewrite Hsorted.
      by destruct (file_counts self). }
    rewrite Hprimary.
    destruct (counts_of_lookup _ _ _ _ Hinv Hin) as [Hn Hn0].
    assert (Hargmax : forall l, occurrences l languages <= occurrences lang languages).
    { intros l. destruct (Nat.eq_dec (occurrences l languages) 0) as [Hz|Hz]; [lia|].
      specialize (Hmax _ (counts_of_member _ _ _ Hinv Hz)). simpl in Hmax. lia. }
    repeat split; [apply occurrences_In; lia | exact Hargmax |].
    unfold _calculate_confidence.
    destruct Hinv as (_ & _ & Htotal). rewrite Htotal.
    destruct (file_counts self) as [|item items] eqn:Hitems; [done|].
    assert (Hlen : (length languages =? 0)%nat = false).
    { apply Nat.eqb_neq. by destruct languages. }
    rewrite Hlen. f_equal. f_equal.
    unfold max_count. rewrite Hitems, max_from. rewrite <- Hn.
    assert (Hle : list_max (map snd (item :: items)) <= n).
    { apply list_max_le, Forall_forall. intros k Hk.
      apply list_elem_of_In, in_map_iff in Hk as (x & <- & Hx).
      apply (Hmax x Hx). }
    assert (Hge : n <= list_max (map snd (item :: items))).
    { apply list_max_upper, in_map_iff. by exists (lang, n). }
    lia.
  - intros Hnil. unfold _calculate_confidence.
    destruct Hinv as (_ & _ & Htotal). rewrite Htotal, Hnil. simpl.
    by destruct (file_counts self).
Qed.

End Aggregation.

(** ** File selection *)

Section Selection.

Lemma collect_filter {A : Type} (keep : A -> bool) (xs acc : list A) :
  fold_left (fun code_files x => if keep x then code_files ++ [x] else code_files)
    xs acc
  = acc ++ List.filter keep xs.
Proof.
  revert acc. induction xs as [|x xs IH]; intros acc; simpl.
  - by rewrite app_nil_r.
  - rewrite IH. destruct (keep x); [|done]. by rewrite <- app_assoc.
Qed.

Lemma detector_code_files (r : Repo) :
  LanguageDetector._get_code_files r
  = List.filter (LanguageDetector.is_code_file r) (entries r).
Proof. unfold LanguageDetector._get_code_files. by rewrite collect_filter. Qed.


Lemma collect_extensions (r : Repo) (exts : list string) (acc : list FsEntry)
    (e : FsEntry) :
  In e (fold_left (fun code_files ext => code_files ++ rglob_suffix r ext) exts acc)
  <-> In e acc \/ exists ext, In ext exts /\ In e (rglob_suffix r ext).
Proof.
  revert acc. induction exts as [|x exts IH]; intros acc; simpl.
  - split; [tauto|]. intros [?|(? & [] & _)]. done.
  - rewrite IH, in_app_iff. split.
    + intros [[?|?]|(ext & ? & ?)]; eauto 6.
    + intros [?|(ext & [<-|?] & ?)]; eauto 6.
Qed.

Lemma analyzer_code_files (r : Repo) (language : string) (e : FsEntry) :
  In e (CodeAnalyzer._get_code_files r language)
  <-> exists ext,
        In ext (default [] (dict_get CodeAnalyzer.extensions language))
        /\ In e (entries r)
        /\ Str.endswith (path_name e) ext = true.
Proof.
  unfold CodeAnalyzer._get_code_files. rewrite collect_extensions.
  unfold rglob_suffix. split.
  - intros [[]|(ext & Hext & Hin)]. apply filter_In in Hin. eauto.
  - intros (ext & Hext & Hin & Hend). right. exists ext.
    split; [done|]. by apply filter_In.
Qed.

End Selection.

(** ** A run over a repository *)

Section Run.

Context `{Runtime}.

Import CodeAnalyzer.

Lemma merge_no_elements (acc : Parsed) : merge acc no_elements = acc.
Proof.
  destruct acc as [els rels]. unfold merge, no_elements. simpl.
  by rewrite (left_id_L ∅ (∪)), app_nil_r.
Qed.

Lemma for_each_ok {A S : Type} (xs : list A) (body : S -> A -> result S) (s : S) :
  (forall s x, exists s', body s x = Ok s') ->
  exists s', for_each xs body s = Ok s'.
Proof.
  intros Hbody. revert s. induction xs as [|x xs IH]; intros s; simpl; [eauto|].
  destruct (Hbody s x) as [s' ->]. simpl. apply IH.
Qed.

Lemma for_each_invariant {A S : Type} (I : S -> Prop) (xs : list A)
    (body : S -> A -> result S) (s s' : S) :
  (forall s x s', I s -> body s x = Ok s' -> I s') ->
  I s -> for_each xs body s = Ok s' -> I s'.
Proof.
  intros Hbody. revert s. induction xs as [|x xs IH]; intros s Hs; simpl.
  - by intros [= <-].
  - destruct (body s x) as [s1|err] eqn:Hstep; simpl; [|done].
    apply IH. by apply (Hbody s x).
Qed.

Lemma for_each_skip {A S : Type} (keep : A -> bool) (xs : list A)
    (body : S -> A -> result S) (s : S) :
  (forall s x, In x xs -> keep x = false -> body s x = Ok s) ->
  for_each xs body s = for_each (List.filter keep xs) body s.
Proof.
  revert s. induction xs as [|x xs IH]; intros s Hskip; simpl; [done|].
  destruct (keep x) eqn:Hkeep; simpl.
  - destruct (body s x); simpl; [|done]. apply IH.
    intros ? ? ?. apply Hskip. by right.
  - rewrite Hskip by (done || by left). simpl. apply IH.
    intros ? ? ?. apply Hskip. by right.
Qed.

Lemma analyze_remaining_ok (self : t) (r : Repo) (language : string)
    (entry_points : list string) (acc : Parsed) :
  exists acc', analyze_remaining self r language entry_points acc = Ok acc'.
Proof.
  unfold analyze_remaining. apply for_each_ok. intros s x.
  destruct (negb _); [|eauto].
  destruct (analyze_file_ok self x language) as [parsed ->]. simpl. eauto.
Qed.

Lemma analyze_file_unreadable (self : t) (e : FsEntry) (language err : string) :
  read_text e = Raise err -> _analyze_file self (Below e) language = Ok no_elements.
Proof. intros Hread. by rewrite analyze_file_below, Hread. Qed.

Lemma lookup_path_In (r : Repo) (p : string) (e : FsEntry) :
  lookup_path r p = Some e -> In e (entries r) /\ rel_str e = p.
Proof.
  unfold lookup_path. intros Hfind. apply find_some in Hfind as [Hin Heq].
  split; [done | by apply String.eqb_eq].
Qed.

(** What the check of an entry point finds: nothing, a path apart from
    the root, or a path below the root whose relative path is that of the
    entry point; the listing answers for the paths that it names. *)
Lemma stat_cases (r : Repo) (entry_point : string) (found : option FilePath) :
  stat r (PurePath.joinpath (repo_parts r) entry_point) = Ok found ->
  match found with
  | None => True
  | Some (Apart _ _ _) =>
      exists err,
        PurePath.relative_to (PurePath.joinpath (repo_parts r) entry_point)
          (repo_parts r) = Raise err
  | Some (Below e) =>
      exists rel,
        PurePath.relative_to (PurePath.joinpath (repo_parts r) entry_point)
          (repo_parts r) = Ok rel
        /\ rel_str e = PurePath.str rel
        /\ (lookup_path r (PurePath.str rel) = Some e
            \/ lookup_path r (PurePath.str rel) = None)
  end.
Proof.
  unfold stat.
  destruct (PurePath.relative_to _ _) as [rel|err] eqn:Hrel.
  - destruct (lookup_path r (PurePath.str rel)) as [e|] eqn:Hlookup.
    + destruct (lookup_path_In _ _ _ Hlookup) as [_ ?].
      destruct (os_stat r _); intros [= <-]; eauto.
    + destruct (os_stat r _) as [|?|file can_read bytes]; intros [= <-]; [done|].
      exists rel. split; [done|]. split; [|by right].
      unfold rel_str, rel_parts. simpl.
      rewrite components_str; [done|]. by eapply relative_to_joinpath.
  - destruct (os_stat r _) as [|?|file can_read bytes]; intros [= <-]; eauto.
Qed.

(** A step of the loop over the entry points that returns leaves the state
    as it is or merges what [_analyze_file] returns for a path below the
    root. *)
Lemma entry_point_cases (self : t) (r : Repo) (language : string)
    (acc acc' : Parsed) (entry_point : string) :
  analyze_entry_point self r language acc entry_point = Ok acc' ->
  acc' = acc
  \/ exists e rel parsed,
       PurePath.relative_to (PurePath.joinpath (repo_parts r) entry_point)
         (repo_parts r) = Ok rel
       /\ rel_str e = PurePath.str rel
       /\ (lookup_path r (PurePath.str rel) = Some e
           \/ lookup_path r (PurePath.str rel) = None)
       /\ _analyze_file self (Below e) language = Ok parsed
       /\ acc' = merge acc parsed.
Proof.
  unfold analyze_entry_point.
  destruct (stat r _) as [found|err] eqn:Hstat; simpl; [|done].
  apply stat_cases in Hstat.
  destruct found as [[e|file can_read bytes]|].
  - destruct Hstat as (rel & Hrel & Hstr & Hlookup).
    destruct (_analyze_file self (Below e) language) as [parsed|] eqn:Hfile;
      simpl; [|done].
    intros [= <-]. right. exists e, rel, parsed. eauto.
  - rewrite analyze_file_apart. destruct (file && can_read); simpl; [done|].
    intros [= <-]. left. apply merge_no_elements.
  - intros [= <-]. by left.
Qed.

(** What every file of a run has, the run has, when merging keeps it. *)
Lemma analyze_entry_points_invariant (I : Parsed -> Prop) (self : t) (r : Repo)
    (language : string) (entry_points : list string) (acc acc' : Parsed) :
  (forall s entry_point e rel parsed,
     In entry_point entry_points ->
     PurePath.relative_to (PurePath.joinpath (repo_parts r) entry_point)
       (repo_parts r) = Ok rel ->
     rel_str e = PurePath.str rel ->
     _analyze_file self (Below e) language = Ok parsed ->
     I s -> I (merge s parsed)) ->
  I acc ->
  analyze_entry_points self r language entry_points acc = Ok acc' ->
  I acc'.
Proof.
  unfold analyze_entry_points. intros Hmerge. revert acc.
  induction entry_points as [|x xs IH]; intros acc Hacc; simpl.
  - by intros [= <-].
  - destruct (analyze_entry_point self r language acc x) as [s|] eqn:Hstep;
      simpl; [|done].
    apply IH; [intros; eapply Hmerge; eauto; by right|].
    apply entry_point_cases in Hstep
      as [->|(e & rel & parsed & Hrel & Hstr & _ & Hfile & ->)]; [done|].
    apply (Hmerge acc x e rel parsed); [by left|done..].
Qed.

Lemma analyze_remaining_invariant (I : Parsed -> Prop) (self : t) (r : Repo)
    (language : string) (entry_points : list string) (acc acc' : Parsed) :
  (forall s e parsed,
     In e (_get_code_files r language) ->
     _analyze_file self (Below e) language = Ok parsed ->
     I s -> I (merge s parsed)) ->
  I acc ->
  analyze_remaining self r language entry_points acc = Ok acc' ->
  I acc'.
Proof.
  unfold analyze_remaining. intros Hmerge. revert acc.
  induction (_get_code_files r language) as [|x xs IH]; intros acc Hacc; simpl.
  - by intros [= <-].
  - destruct (negb _).
    + destruct (_analyze_file self (Below x) language) as [file|] eqn:Hfile;
        simpl; [|done].
      apply IH; [intros; eapply Hmerge; eauto; by right|].
      apply (Hmerge acc x file); [by left|done..].
    + simpl. apply IH; [intros; eapply Hmerge; eauto; by right | done].
Qed.

(** The check of an entry point goes through exactly when the step of the
    loop returns. *)
Lemma entry_point_passes (self : t) (r : Repo) (language : string)
    (acc : Parsed) (entry_point : string) :
  (exists acc', analyze_entry_point self r language acc entry_point = Ok acc')
  <-> passes r entry_point.
Proof.
  unfold analyze_entry_point, passes, stat. simpl.
  assert (Hbelow : forall e,
            (exists acc',
               (file ← _analyze_file self (Below e) language; Ok (merge acc file))
               = Ok acc') <-> True).
  { intros e. destruct (analyze_file_ok self e language) as [parsed ->].
    simpl. split; eauto. }
  destruct (os_stat r _) as [|err|file can_read bytes]; simpl.
  - destruct (PurePath.relative_to _ _) as [rel|]; simpl; [|split; eauto].
    destruct (lookup_path r _) as [e|]; simpl; [apply Hbelow | split; eauto].
  - split; [by intros [? ?] | done].
  - destruct (PurePath.relative_to _ _) as [rel|]; simpl.
    + destruct (lookup_path r _) as [e|]; simpl; apply Hbelow.
    + rewrite analyze_file_apart. destruct (file && can_read); simpl.
      * split; [by intros [? ?] | done].
      * split; eauto.
Qed.

Lemma analyze_entry_points_returns (self : t) (r : Repo) (language : string)
    (entry_points : list string) (acc : Parsed) :
  (exists acc', analyze_entry_points self r language entry_points acc = Ok acc')
  <-> Forall (passes r) entry_points.
Proof.
  unfold analyze_entry_points. revert acc.
  induction entry_points as [|x xs IH]; intros acc; simpl.
  - split; [constructor | eauto].
  - rewrite Forall_cons, <- (entry_point_passes self r language acc x).
    destruct (analyze_entry_point self r language acc x) as [s|err]; simpl.
    + rewrite IH. split; [eauto | tauto].
    + split; [by intros [? ?] | by intros [[? ?] _]].
Qed.

(** A run returns exactly when the check of every entry point goes
    through. *)
Lemma analyze_codebase_returns (self : t) (r : Repo) (language : string)
    (entry_points : list string) :
  (exists ccg, analyze_codebase self r language entry_points = Ok ccg)
  <-> Forall (passes r) entry_points.
Proof.
  rewrite <- (analyze_entry_points_returns self r language entry_points no_elements).
  unfold analyze_codebase.
  destruct (analyze_entry_points self r language entry_points no_elements)
    as [acc1|err]; simpl.
  - destruct (analyze_remaining_ok self r language entry_points acc1)
      as [acc2 ->]. simpl. split; eauto.
  - split; by intros [? ?].
Qed.

Lemma same_path_same_entry (es : list FsEntry) (a b : FsEntry) :
  List.NoDup (map rel_str es) -> In a es -> In b es ->
  rel_str a = rel_str b -> a = b.
Proof.
  induction es as [|x es IH]; simpl; [done|].
  intros Hnodup Ha Hb Heq. inversion Hnodup as [|? ? Hnot Hrest]; subst.
  destruct Ha as [->|Ha], Hb as [->|Hb]; [done| | |by apply IH].
  - exfalso. apply Hnot. rewrite Heq. by apply in_map.
  - exfalso. apply Hnot. rewrite <- Heq. by apply in_map.
Qed.

Lemma lookup_path_self (r : Repo) (e : FsEntry) :
  List.NoDup (map rel_str (entries r)) -> In e (entries r) ->
  lookup_path r (rel_str e) = Some e.
Proof.
  intros Hnodup Hin. unfold lookup_path.
  destruct (find _ (entries r)) as [e'|] eqn:Hfind.
  - apply find_some in Hfind as [Hin' Heq]. apply String.eqb_eq in Heq.
    f_equal. by apply (same_path_same_entry (entries r)).
  - exfalso. apply (find_none _ _ Hfind) in Hin. by rewrite String.eqb_refl in Hin.
Qed.

(** An entry point that is the relative path of an entry of the listing
    is found, as that entry, unless [os.stat] raises for it. *)
Lemma stat_listed (r : Repo) (e : FsEntry) :
  List.NoDup (map rel_str (entries r)) -> In e (entries r) ->
  stat r (PurePath.joinpath (repo_parts r) (rel_str e))
  = match os_stat r (repo_parts r ++ rel_parts e) with
    | Fails err => Raise err
    | _ => Ok (Some (Below e))
    end.
Proof.
  intros Hnodup Hin. unfold stat.
  rewrite joinpath_rel_str, relative_to_app by apply rel_parts_plain.
  fold (rel_str e). rewrite lookup_path_self by done.
  by destruct (os_stat r _).
Qed.

Lemma lookup_path_without (r : Repo) (p q : string) :
  lookup_path (without_path r p) q
  = if String.eqb q p then None else lookup_path r q.
Proof.
  unfold lookup_path, without_path. simpl.
  induction (entries r) as [|x es IH]; simpl.
  - by destruct (String.eqb q p).
  - destruct (String.eqb (rel_str x) p) eqn:Hxp; simpl.
    + rewrite IH. destruct (String.eqb q p) eqn:Hqp; [done|].
      destruct (String.eqb (rel_str x) q) eqn:Hxq; [|done].
      apply String.eqb_eq in Hxp, Hxq. apply String.eqb_neq in Hqp. congruence.
    + destruct (String.eqb (rel_str x) q) eqn:Hxq; [|done].
      apply String.eqb_eq in Hxq as <-. by rewrite Hxp.
Qed.

Lemma filter_swap {A : Type} (f g : A -> bool) (xs : list A) :
  List.filter f (List.filter g xs) = List.filter g (List.filter f xs).
Proof.
  induction xs as [|x xs IH]; simpl; [done|].
  destruct (f x) eqn:Hf, (g x) eqn:Hg; simpl; rewrite ?Hf, ?Hg, ?IH; done.
Qed.

Lemma code_files_without (r : Repo) (p language : string) :
  _get_code_files (without_path r p) language
  = List.filter (fun e => negb (String.eqb (rel_str e) p)) (_get_code_files r language).
Proof.
  unfold _get_code_files.
  set (keep := fun e => negb (String.eqb (rel_str e) p)).
  change (@nil FsEntry) with (List.filter keep []) at 1.
  generalize (@nil FsEntry) as acc.
  induction (default [] (dict_get extensions language)) as [|ext exts IH];
    intros acc; simpl; [done|].
  rewrite <- IH. f_equal. rewrite List.filter_app. f_equal.
  unfold rglob_suffix, without_path. simpl. apply filter_swap.
Qed.

(** The check of an entry point in the repository without an entry: the
    entry is not found, and every other path is found as before. *)
Lemma stat_without (r : Repo) (e : FsEntry) (entry_point : string) :
  let path := PurePath.joinpath (repo_parts r) entry_point in
  stat (without_path r (rel_str e)) path
  = match PurePath.relative_to path (repo_parts r) with
    | Ok rel =>
        if String.eqb (PurePath.str rel) (rel_str e) then Ok None else stat r path
    | Raise _ => stat r path
    end.
Proof.
  intros path. unfold stat. simpl.
  assert (Hparts : PurePath.components (rel_str e) = rel_parts e).
  { unfold rel_str. by rewrite components_str by apply rel_parts_plain. }
  rewrite Hparts.
  destruct (PurePath.relative_to path (repo_parts r)) as [rel|err] eqn:Hrel.
  - pose proof (relative_to_joinpath _ _ _ Hrel) as Hplain.
    pose proof (relative_to_spec _ _ _ Hrel) as Hpath.
    rewrite lookup_path_without.
    destruct (String.eqb (PurePath.str rel) (rel_str e)) eqn:Heq.
    + apply String.eqb_eq in Heq.
      apply str_inj in Heq; [|done|apply rel_parts_plain].
      rewrite bool_decide_eq_true_2; [done|]. by rewrite Hpath, Heq.
    + rewrite bool_decide_eq_false_2; [done|].
      rewrite Hpath. intros Hsame. apply app_inv_head in Hsame.
      apply String.eqb_neq in Heq. apply Heq. unfold rel_str. by rewrite Hsame.
  - rewrite bool_decide_eq_false_2; [done|].
    intros Hsame. rewrite Hsame, relative_to_app in Hrel by apply rel_parts_plain.
    done.
Qed.

(** When the loop over the entry points returns, it returns the same for
    the repository without an entry that contributes nothing. *)
Lemma entry_points_without (self : t) (r : Repo) (language : string)
    (entry_points : list string) (e : FsEntry) (acc acc' : Parsed) :
  (forall e', In e' (entries r) -> rel_str e' = rel_str e ->
              _analyze_file self (Below e') language = Ok no_elements) ->
  In e (entries r) ->
  analyze_entry_points self r language entry_points acc = Ok acc' ->
  analyze_entry_points self (without_path r (rel_str e)) language entry_points acc
  = Ok acc'.
Proof.
  intros Hbad Hin. unfold analyze_entry_points. revert acc.
  induction entry_points as [|ep eps IH]; intros acc; simpl; [done|].
  destruct (analyze_entry_point self r language acc ep) as [s|] eqn:Hstep;
    simpl; [|done].
  intros Hrest.
  assert (Hsame : analyze_entry_point self (without_path r (rel_str e))
                    language acc ep = Ok s).
  { revert Hstep. unfold analyze_entry_point. simpl. rewrite stat_without.
    destruct (PurePath.relative_to _ _) as [rel|err] eqn:Hrel; [|done].
    destruct (String.eqb (PurePath.str rel) (rel_str e)) eqn:Heq; [|done].
    apply String.eqb_eq in Heq. unfold stat. rewrite Hrel, Heq.
    destruct (lookup_path r (rel_str e)) as [e'|] eqn:Hlookup.
    - apply lookup_path_In in Hlookup as [Hin' Hpath].
      destruct (os_stat r _); simpl; [|done|];
        rewrite (Hbad e' Hin' Hpath); simpl; by rewrite merge_no_elements.
    - exfalso. unfold lookup_path in Hlookup.
      apply (find_none _ _ Hlookup) in Hin. by rewrite String.eqb_refl in Hin. }
  rewrite Hsame. simpl. by apply IH.
Qed.

Lemma remaining_without (self : t) (r : Repo) (language : string)
    (entry_points : list string) (p : string) (acc : Parsed) :
  (forall e, In e (entries r) -> rel_str e = p ->
             _analyze_file self (Below e) language = Ok no_elements) ->
  analyze_remaining self r language entry_points acc
  = analyze_remaining self (without_path r p) language entry_points acc.
Proof.
  intros Hbad. unfold analyze_remaining. rewrite code_files_without.
  apply for_each_skip. intros s x Hin Hkeep.
  apply negb_false_iff, String.eqb_eq in Hkeep.
  destruct (negb _); [|done].
  rewrite (Hbad x); [|by apply analyzer_code_files in Hin as (? & ? & ? & ?)|done].
  simpl. by rewrite merge_no_elements.
Qed.

(** C8, as amended: a file whose read raises contributes no element and
    no relationship, whether it is listed or named by an entry point; for
    a file of the listing, when the check of every entry point goes
    through, that is, when [exists()] returns for it and it does not name
    a file apart from the root that can be read, the run returns, and it
    returns the graph of the run over the repository without the file. *)
Theorem unreadable_file_contributes_nothing (self : t) (r : Repo)
    (language : string) (entry_points : list string) (e : FsEntry) (err : string) :
  In e (entries r) ->
  List.NoDup (map rel_str (entries r)) ->
  read_text e = Raise err ->
  (forall file_path err',
     open_text file_path = Raise err' ->
     _analyze_file self file_path language = Ok (∅, []))
  /\ _analyze_file self (Below e) language = Ok (∅, [])
  /\ (Forall (passes r) entry_points ->
      exists ccg,
        analyze_codebase self r language entry_points = Ok ccg
        /\ analyze_codebase self (without_path r (rel_str e)) language entry_points
           = Ok ccg).
Proof.
  intros Hin Hnodup Hread.
  assert (Hbad : forall e', In e' (entries r) -> rel_str e' = rel_str e ->
                            _analyze_file self (Below e') language = Ok no_elements).
  { intros e' Hin' Hpath.
    rewrite (same_path_same_entry (entries r) e' e Hnodup Hin' Hin Hpath).
    by apply analyze_file_unreadable with err. }
  split; [|split; [by apply analyze_file_unreadable with err|]].
  { intros file_path err' Hopen. unfold _analyze_file. by rewrite Hopen. }
  intros Hpasses.
  apply (analyze_codebase_returns self r language) in Hpasses as [ccg Hrun].
  exists ccg. split; [done|].
  revert Hrun. unfold analyze_codebase.
  destruct (analyze_entry_points self r language entry_points no_elements)
    as [acc|] eqn:Hfirst; simpl; [|done].
  rewrite (entry_points_without self r language entry_points e _ acc Hbad Hin Hfirst).
  simpl.
  by rewrite (remaining_without self r language entry_points (rel_str e)).
Qed.

End Run.

(** ** Relationships and the graph view *)

Lemma Node_nested_ind (P : Node -> Prop) :
  (forall t a b p q cs, Forall P cs -> P (mkNode t a b p q cs)) ->
  forall node, P node.
Proof.
  intros Hstep. fix IH 1. intros [t a b p q cs]. apply Hstep.
  induction cs as [|c cs IHcs]; constructor; [apply IH | apply IHcs].
Qed.

Section Closed.

Import CodeAnalyzer.

Lemma rel_closed_no_relationships (st : Parsed) : snd st = [] -> rel_closed st.
Proof. unfold rel_closed. intros ->. constructor. Qed.

Lemma rel_closed_grow (els els' : gmap string CodeElement) (rels : list Relationship) :
  dom els ⊆ dom els' -> rel_closed (els, rels) -> rel_closed (els', rels).
Proof.
  unfold rel_closed. simpl. intros Hsub Hall.
  eapply Forall_impl; [exact Hall|].
  intros [[f t'] k]. set_solver.
Qed.

Lemma set_element_closed (k : string) (el : CodeElement) (st : Parsed) :
  rel_closed st ->
  rel_closed (set_element k el st)
  /\ dom (fst st) ⊆ dom (fst (set_element k el st))
  /\ k ∈ dom (fst (set_element k el st)).
Proof.
  destruct st as [els rels]. unfold set_element. simpl. intros Hclosed.
  repeat split; [|set_solver..].
  apply rel_closed_grow with els; [set_solver | done].
Qed.

Lemma declare_closed (nm : string) (ty : ElementType) (fp : string) (node : Node)
    (parent : option string) (st : Parsed) :
  rel_closed st -> parent_known parent st ->
  rel_closed (declare nm ty fp node parent st)
  /\ dom (fst st) ⊆ dom (fst (declare nm ty fp node parent st))
  /\ element_id fp nm ∈ dom (fst (declare nm ty fp node parent st)).
Proof.
  intros Hclosed Hparent. unfold declare.
  destruct (set_element_closed (element_id fp nm)
              (element_of_node nm ty fp node parent) st Hclosed)
    as (Hclosed' & Hsub & Hin).
  set (st' := set_element _ _ st) in *.
  unfold contains_edge. destruct parent as [p|]; [|done].
  destruct (Str.truthy (Some p)); [|done].
  unfold append_relationship, rel_closed in *. simpl.
  repeat split; [|done..].
  apply Forall_app. split; [done|]. constructor; [|constructor].
  split; [|done]. apply Hsub, Hparent. done.
Qed.

Section Traversal.

Variable traverse : Node -> option string -> Parsed -> Parsed.

Lemma fold_children_closed (cs : list Node) (parent : option string) (st : Parsed) :
  Forall (keeps_closed traverse) cs ->
  rel_closed st -> parent_known parent st ->
  rel_closed (fold_left (fun s child => traverse child parent s) cs st)
  /\ dom (fst st)
     ⊆ dom (fst (fold_left (fun s child => traverse child parent s) cs st)).
Proof.
  intros Hcs. revert st.
  induction Hcs as [|c cs Hc _ IH]; intros st Hclosed Hparent; simpl; [done|].
  destruct (Hc parent st Hclosed Hparent) as [Hclosed' Hsub].
  destruct (IH (traverse c parent st) Hclosed') as [Hclosed'' Hsub'].
  { intros p Hp. apply Hsub, Hparent, Hp. }
  split; [done | set_solver].
Qed.

Lemma fold_body_closed (body_type : string) (cs : list Node) (k : string)
    (st : Parsed) :
  Forall (fun child => Forall (keeps_closed traverse) (node_children child)) cs ->
  rel_closed st -> k ∈ dom (fst st) ->
  rel_closed
    (fold_left
       (fun s child =>
          if String.eqb (node_type child) body_type then
            fold_left (fun s' grandchild => traverse grandchild (Some k) s')
              (node_children child) s
          else s)
       cs st)
  /\ dom (fst st)
     ⊆ dom (fst (fold_left
                   (fun s child =>
                      if String.eqb (node_type child) body_type then
                        fold_left
                          (fun s' grandchild => traverse grandchild (Some k) s')
                          (node_children child) s
                      else s)
                   cs st)).
Proof.
  intros Hcs. revert st.
  induction Hcs as [|c cs Hc _ IH]; intros st Hclosed Hk; simpl; [done|].
  destruct (String.eqb (node_type c) body_type).
  - destruct (fold_children_closed (node_children c) (Some k) st Hc Hclosed)
      as [Hclosed' Hsub].
    { by intros ? [= <-]. }
    destruct (IH _ Hclosed') as [Hclosed'' Hsub']; [set_solver|].
    split; [done | set_solver].
  - by apply IH.
Qed.

End Traversal.

Lemma step_then_children
    (traverse : Node -> option string -> Parsed -> Parsed)
    (cs : list Node) (parent : option string) (st st1 : Parsed) :
  Forall (keeps_closed traverse) cs ->
  parent_known parent st ->
  rel_closed st1 /\ dom (fst st) ⊆ dom (fst st1) ->
  rel_closed (fold_left (fun s child => traverse child parent s) cs st1)
  /\ dom (fst st)
     ⊆ dom (fst (fold_left (fun s child => traverse child parent s) cs st1)).
Proof.
  intros Hcs Hparent [Hclosed Hsub].
  destruct (fold_children_closed traverse cs parent st1 Hcs Hclosed) as [? ?].
  { intros p Hp. apply Hsub, Hparent, Hp. }
  split; [done | set_solver].
Qed.

(** The state after the declaration step of a node, case by case. *)
Ltac close_step Hclosed Hparent Hgrand :=
  repeat case_match; subst; unfold _find_function_calls;
  lazymatch goal with
  | |- rel_closed (fold_left _ _ (declare ?nm ?ty ?fp ?node ?parent ?st)) /\ _ =>
      let Hc := fresh "Hc" in
      let Hs := fresh "Hs" in
      let Hk := fresh "Hk" in
      destruct (declare_closed nm ty fp node parent st Hclosed Hparent)
        as (Hc & Hs & Hk);
      edestruct fold_body_closed as [? ?];
      [ exact Hgrand | exact Hc | exact Hk | split; [eassumption | set_solver] ]
  | |- rel_closed (declare ?nm ?ty ?fp ?node ?parent ?st) /\ _ =>
      destruct (declare_closed nm ty fp node parent st Hclosed Hparent)
        as (? & ? & ?); by split
  | |- rel_closed (set_element ?k ?el ?st) /\ _ =>
      destruct (set_element_closed k el st Hclosed) as (? & ? & ?); by split
  | |- rel_closed ?st /\ _ => by split
  end.

(** Every traversal keeps the relationships closed: it is shown for a node
    together with its children, so that the descent into a class body can
    use it for the grandchildren. *)
Ltac traversal_closed traverse :=
  let IH := fresh "IH" in
  let Hkids := fresh "Hkids" in
  let Hgrand := fresh "Hgrand" in
  lazymatch goal with
  | |- keeps_closed _ ?node =>
      cut (keeps_closed traverse node
           /\ Forall (keeps_closed traverse) (node_children node)); [tauto|];
      induction node as [t a b p q cs IH] using Node_nested_ind;
      assert (Hkids : Forall (keeps_closed traverse) cs)
        by (eapply Forall_impl; [exact IH | tauto]);
      assert (Hgrand : Forall (fun c => Forall (keeps_closed traverse)
                                          (node_children c)) cs)
        by (eapply Forall_impl; [exact IH | tauto]);
      split; [|exact Hkids];
      let parent := fresh "parent" in
      let st := fresh "st" in
      let Hclosed := fresh "Hclosed" in
      let Hparent := fresh "Hparent" in
      intros parent st Hclosed Hparent; simpl;
      apply step_then_children; [exact Hkids | exact Hparent |];
      close_step Hclosed Hparent Hgrand
  end.

Lemma py_traverse_closed (fp content : string) (node : Node) :
  keeps_closed (py_traverse_node fp content) node.
Proof. traversal_closed (py_traverse_node fp content). Qed.

Lemma js_traverse_closed (fp content : string) (node : Node) :
  keeps_closed (js_traverse_node fp content) node.
Proof. traversal_closed (js_traverse_node fp content). Qed.

Lemma java_traverse_closed (fp content : string) (node : Node) :
  keeps_closed (java_traverse_node fp content) node.
Proof. traversal_closed (java_traverse_node fp content). Qed.

Lemma no_elements_closed : rel_closed no_elements.
Proof. by apply rel_closed_no_relationships. Qed.

Lemma parse_ast_closed
    (traverse : Node -> option string -> Parsed -> Parsed) (root_node : Node) :
  keeps_closed traverse root_node ->
  rel_closed (traverse root_node None no_elements).
Proof. intros Hkeeps. by apply Hkeeps; [apply no_elements_closed|]. Qed.

Context `{Runtime}.

Lemma scan_relationships (pattern : string) (ty : ElementType)
    (fp content : string) (st : Parsed) :
  snd (scan pattern ty fp content st) = snd st.
Proof.
  unfold scan. revert st.
  induction (re_finditer pattern content) as [|m ms IH]; intros st; simpl; [done|].
  by rewrite IH.
Qed.

(** The regex strategy produces no relationship. *)
Lemma parse_with_regex_relationships (content fp language : string) :
  snd (_parse_with_regex content fp language) = [].
Proof.
  unfold _parse_with_regex, _regex_parse_python, _regex_parse_javascript,
    _regex_parse_java.
  repeat case_match; rewrite ?scan_relationships; try done.
  simpl. by rewrite !scan_relationships.
Qed.

Lemma parse_with_treesitter_closed (self : t) (content fp language : string)
    (parsed : Parsed) :
  _parse_with_treesitter self content fp language = Ok parsed ->
  rel_closed parsed.
Proof.
  unfold _parse_with_treesitter.
  destruct (parsers self !! language) as [parser|]; simpl.
  - destruct (parser content) as [root_node|err]; simpl.
    + repeat case_match; intros [= <-].
      * apply parse_ast_closed, py_traverse_closed.
      * apply parse_ast_closed, js_traverse_closed.
      * apply parse_ast_closed, java_traverse_closed.
      * apply no_elements_closed.
    + intros [= <-].
      apply rel_closed_no_relationships, parse_with_regex_relationships.
  - intros [= <-].
    apply rel_closed_no_relationships, parse_with_regex_relationships.
Qed.

Lemma analyze_file_closed (self : t) (e : FsEntry) (language : string)
    (parsed : Parsed) :
  _analyze_file self (Below e) language = Ok parsed -> rel_closed parsed.
Proof.
  rewrite analyze_file_below. destruct (read_text e) as [content|err].
  - case_bool_decide.
    + apply parse_with_treesitter_closed.
    + intros [= <-].
      apply rel_closed_no_relationships, parse_with_regex_relationships.
  - intros [= <-]. apply no_elements_closed.
Qed.

Lemma merge_closed (acc file : Parsed) :
  rel_closed acc -> rel_closed file -> rel_closed (merge acc file).
Proof.
  destruct acc as [els rels], file as [els' rels'].
  unfold merge, rel_closed. simpl. intros Hacc Hfile.
  apply Forall_app. split.
  - eapply Forall_impl; [exact Hacc|]. intros [[f t'] k]. set_solver.
  - eapply Forall_impl; [exact Hfile|]. intros [[f t'] k]. set_solver.
Qed.

Lemma analyze_entry_points_closed (self : t) (r : Repo) (language : string)
    (entry_points : list string) (acc acc' : Parsed) :
  rel_closed acc ->
  analyze_entry_points self r language entry_points acc = Ok acc' ->
  rel_closed acc'.
Proof.
  apply analyze_entry_points_invariant.
  intros s x e rel parsed _ _ _ Hfile Hs.
  apply merge_closed; [done|]. by apply analyze_file_closed in Hfile.
Qed.

Lemma analyze_remaining_closed (self : t) (r : Repo) (language : string)
    (entry_points : list string) (acc acc' : Parsed) :
  rel_closed acc ->
  analyze_remaining self r language entry_points acc = Ok acc' ->
  rel_closed acc'.
Proof.
  apply analyze_remaining_invariant.
  intros s e parsed _ Hfile Hs.
  apply merge_closed; [done|]. by apply analyze_file_closed in Hfile.
Qed.

Lemma add_nodes_graph (els : gmap string CodeElement) :
  nodes (map_fold (fun element_id element g => add_node element_id element g)
           empty_graph els) = Some <$> els
  /\ edges (map_fold (fun element_id element g => add_node element_id element g)
              empty_graph els) = ∅.
Proof.
  apply (map_fold_weak_ind
           (fun g (m : gmap string CodeElement) =>
              nodes g = Some <$> m /\ edges g = ∅)).
  - split; [by rewrite fmap_empty | done].
  - intros k el m g _ [Hnodes Hedges]. unfold add_node. simpl.
    split; [|done]. by rewrite Hnodes, fmap_insert.
Qed.

Lemma dom_touch_node (n : string) (ns : gmap string (option CodeElement)) :
  dom (touch_node n ns) = {[ n ]} ∪ dom ns.
Proof.
  unfold touch_node. destruct (ns !! n) as [attrs|] eqn:Hn.
  - assert (n ∈ dom ns) by (apply elem_of_dom; eauto). set_solver.
  - by rewrite dom_insert_L.
Qed.

Lemma add_edges_graph (rels : list Relationship) (g : DiGraph) :
  let g' :=
    fold_left
      (fun g '(from_id, to_id, rel_type) => add_edge from_id to_id rel_type g)
      rels g in
  (forall u v, (u, v) ∈ dom (edges g')
               <-> (u, v) ∈ dom (edges g) \/ exists k, In (u, v, k) rels)
  /\ (forall n, n ∈ dom (nodes g')
                <-> n ∈ dom (nodes g)
                    \/ exists u v k, In (u, v, k) rels /\ (n = u \/ n = v)).
Proof.
  revert g. induction rels as [|[[f t'] k] rels IH]; intros g; simpl.
  - split; intros; split; try tauto.
    + intros [?|(? & [])]. done.
    + intros [?|(? & ? & ? & [] & _)]. done.
  - destruct (IH (add_edge f t' k g)) as [Hedges Hnodes]. split.
    + intros u v. rewrite Hedges. unfold add_edge. simpl.
      rewrite dom_insert, elem_of_union, elem_of_singleton. split.
      * intros [[[= -> ->]|?]|(k' & ?)]; eauto.
      * intros [?|(k' & [[= -> -> ->]|?])]; eauto.
    + intros n. rewrite Hnodes. unfold add_edge. simpl.
      rewrite !dom_touch_node, !elem_of_union, !elem_of_singleton. split.
      * intros [[->|[->|?]]|(u & v & k' & ? & ?)]; eauto 10.
      * intros [?|(u & v & k' & [[= -> -> ->]|?] & Hn)]; [tauto| |eauto 10].
        destruct Hn as [->| ->]; tauto.
Qed.

Lemma build_graph_edges (els : gmap string CodeElement) (rels : list Relationship)
    (u v : string) :
  (u, v) ∈ dom (edges (build_graph els rels)) <-> exists k, In (u, v, k) rels.
Proof.
  unfold build_graph. destruct (add_nodes_graph els) as [_ Hedges].
  destruct (add_edges_graph rels
              (map_fold (fun element_id element g => add_node element_id element g)
                 empty_graph els)) as [-> _].
  rewrite Hedges, dom_empty. set_solver.
Qed.

Lemma build_graph_nodes (els : gmap string CodeElement) (rels : list Relationship)
    (n : string) :
  n ∈ dom (nodes (build_graph els rels))
  <-> n ∈ dom els \/ exists u v k, In (u, v, k) rels /\ (n = u \/ n = v).
Proof.
  unfold build_graph. destruct (add_nodes_graph els) as [Hnodes _].
  destruct (add_edges_graph rels
              (map_fold (fun element_id element g => add_node element_id element g)
                 empty_graph els)) as [_ ->].
  by rewrite Hnodes, dom_fmap.
Qed.

(** C1: in the graph that a run assembles, both endpoints of every edge
    are keys of the element mapping, and the nodes are exactly those keys:
    an id that is not a key is no node and is the endpoint of no edge. This
    holds because every relationship that the parsers emit joins two
    elements that they have registered. *)
Theorem graph_view_endpoints (self : t) (r : Repo) (language : string)
    (entry_points : list string) (ccg : CodeContextGraph) :
  analyze_codebase self r language entry_points = Ok ccg ->
  (forall u v, (u, v) ∈ dom (edges (graph ccg)) ->
               u ∈ dom (elements ccg) /\ v ∈ dom (elements ccg))
  /\ dom (nodes (graph ccg)) = dom (elements ccg)
  /\ (forall u v, u ∉ dom (elements ccg) \/ v ∉ dom (elements ccg) ->
                  (u, v) ∉ dom (edges (graph ccg)))
  /\ (forall u v k, In (u, v, k) (relationships ccg) ->
                    (u, v) ∈ dom (edges (graph ccg))
                    /\ u ∈ dom (elements ccg) /\ v ∈ dom (elements ccg)).
Proof.
  unfold analyze_codebase. intros Hrun.
  destruct (analyze_entry_points self r language entry_points no_elements)
    as [acc1|] eqn:Hfirst; simpl in Hrun; [|done].
  destruct (analyze_remaining self r language entry_points acc1)
    as [acc2|] eqn:Hrest; simpl in Hrun; [|done].
  injection Hrun as <-. simpl.
  assert (Hclosed : rel_closed acc2).
  { eapply analyze_remaining_closed; [|exact Hrest].
    eapply analyze_entry_points_closed; [|exact Hfirst].
    apply no_elements_closed. }
  destruct acc2 as [els rels]. unfold rel_closed in Hclosed. simpl in *.
  rewrite Forall_forall in Hclosed.
  assert (Hends : forall u v k, In (u, v, k) rels -> u ∈ dom els /\ v ∈ dom els).
  { intros u v k Hin. apply list_elem_of_In in Hin. apply (Hclosed _ Hin). }
  assert (Hedge : forall u v, (u, v) ∈ dom (edges (build_graph els rels)) ->
                              u ∈ dom els /\ v ∈ dom els).
  { intros u v Hin. apply build_graph_edges in Hin as [k Hin]. eauto. }
  repeat split.
  - by apply (Hedge u v).
  - by apply (Hedge u v).
  - apply set_eq. intros n. rewrite build_graph_nodes. split; [|tauto].
    intros [?|(u & v & k & Hin & [->| ->])]; [done|apply (Hends _ _ _ Hin)..].
  - intros u v Hout Hin. apply Hedge in Hin. tauto.
  - apply build_graph_edges. eauto.
  - by apply (Hends u v k).
  - by apply (Hends u v k).
Qed.

End Closed.

(** ** Element ids *)

Section Ids.

Import CodeAnalyzer.





End Ids.

(** * The properties at concrete inputs *)

(** The string functions agree with Python on the inputs used below. *)
Example suffix_examples :
  suffix "Main.PY" = ".PY" /\ suffix "a.tar.gz" = ".gz"
  /\ suffix ".py" = "" /\ suffix "Makefile" = "" /\ suffix "name." = "".
Proof. repeat split. Qed.

Example lower_contains_examples :
  Str.lower "Show me all CALLS" = "show me all calls"
  /\ Str.contains "calls" "show me all calls" = true
  /\ Str.contains "inherits" "show me all calls" = false
  /\ Str.endswith "blob.py" ".py" = true
  /\ Str.endswith "Main.PY" ".py" = false.
Proof. repeat split. Qed.

(** The path functions agree with [pathlib] on these entry points. *)
Example joinpath_examples :
  let root := ["/"; "srv"; "checkout"] in
  PurePath.joinpath root "./pkg//foo.py/" = ["/"; "srv"; "checkout"; "pkg"; "foo.py"]
  /\ PurePath.joinpath root "../other/x.py"
     = ["/"; "srv"; "checkout"; ".."; "other"; "x.py"]
  /\ PurePath.joinpath root "/etc/hostname" = ["/"; "etc"; "hostname"]
  /\ PurePath.joinpath root "//etc/x" = ["//"; "etc"; "x"]
  /\ PurePath.joinpath root "///etc/x" = ["/"; "etc"; "x"]
  /\ PurePath.joinpath root "" = root
  /\ PurePath.joinpath [] "../x" = [".."; "x"].
Proof. repeat split. Qed.

Example relative_to_examples :
  let root := ["/"; "srv"; "checkout"] in
  PurePath.relative_to (PurePath.joinpath root "pkg/foo.py/") root
  = Ok ["pkg"; "foo.py"]
  /\ PurePath.relative_to (PurePath.joinpath root "../other/x.py") root
     = Ok [".."; "other"; "x.py"]
  /\ PurePath.relative_to (PurePath.joinpath root "/srv/checkout/a.py") root
     = Ok ["a.py"]
  /\ PurePath.relative_to (PurePath.joinpath root "/etc/hostname") root
     = Raise "ValueError"
  /\ PurePath.relative_to (PurePath.joinpath [] "/abs/a.py") [] = Raise "ValueError"
  /\ PurePath.relative_to (PurePath.joinpath [] "a.py") [] = Ok ["a.py"]
  /\ PurePath.relative_to (PurePath.joinpath ["/"] "/abs/a.py") ["/"]
     = Ok ["abs"; "a.py"]
  /\ PurePath.str [".."; "other"; "x.py"] = "../other/x.py"
  /\ PurePath.str [] = ".".
Proof. repeat split. Qed.

(** The match of the function pattern in [Demo.blob_bytes] is on line 2,
    columns 0 to 8, as [_regex_parse_python] computes them. *)
Example blob_function_position :
  let el :=
    CodeAnalyzer.element_of_match Function_ "blob.py" Demo.blob_bytes
      {| m_start := 2; m_end := 10; group1 := "f" |} in
  line_start el = 2%Z /\ line_end el = 2%Z
  /\ column_start el = 0%Z /\ column_end el = 8%Z.
Proof. repeat split. Qed.

(** The parse of [Demo.source] registers [Foo] and [bar] and one
    [contains] relationship, from the descent into the body of [Foo]. *)
Example parse_demo_source :
  snd (CodeAnalyzer._parse_python_ast Demo.root "pkg/foo.py" Demo.source)
  = [("pkg/foo.py:Foo", "pkg/foo.py:bar", "contains")]
  /\ Str.slice 6 9 Demo.source = "Foo"
  /\ Str.slice 19 22 Demo.source = "bar"
  /\ Str.slice 47 50 Demo.source = "bar"
  /\ String.length Demo.source = 63.
Proof. repeat split; by vm_compute. Qed.

(** In [Demo.project], analysed with the Python grammar, the method [bar]
    of [Foo] is contained in [Foo], and the graph has the two element keys
    as its nodes. *)
Lemma graph_view_endpoints_witness :
  exists ccg,
    @CodeAnalyzer.analyze_codebase Demo.grammar_runtime
      (@CodeAnalyzer.__init__ Demo.grammar_runtime) Demo.project "python"
      ["pkg/foo.py"] = Ok ccg
    /\ relationships ccg = [("pkg/foo.py:Foo", "pkg/foo.py:bar", "contains")]
    /\ dom (nodes (graph ccg)) = dom (elements ccg).
Proof.
  eexists. split; [reflexivity|]. split; [by vm_compute|].
  refine (proj1 (proj2 (@graph_view_endpoints Demo.grammar_runtime
                          (@CodeAnalyzer.__init__ Demo.grammar_runtime)
                          Demo.project "python" ["pkg/foo.py"] _ _))).
  reflexivity.
Defined.



(** With a Python grammar that raises, the file is analysed by the regex
    strategy. *)
Lemma analyze_file_falls_back_witness :
  @CodeAnalyzer._analyze_file Demo.runtime Demo.failing_analyzer
    (Below Demo.blob) "python"
  = Ok (@CodeAnalyzer._parse_with_regex Demo.runtime Demo.blob_bytes "blob.py"
          "python").
Proof.
  apply (@analyze_file_falls_back Demo.runtime Demo.failing_analyzer Demo.blob
           "python" Demo.blob_bytes).
  - reflexivity.
  - right. exists (fun _ => Raise "ValueError"), "ValueError".
    split; [apply lookup_singleton_eq | reflexivity].
Defined.

Lemma query_relationships_by_kind_witness :
  CodeAnalyzer.query_relationships Demo.mixed "Show me all CALLS"
  = records_of_kind "calls" (relationships Demo.mixed)
  /\ CodeAnalyzer.query_relationships Demo.mixed "who inherits?"
     = records_of_kind "inherits" (relationships Demo.mixed)
  /\ CodeAnalyzer.query_relationships Demo.mixed "contains" = [].
Proof.
  split; [|split].
  - apply (proj1 (query_relationships_by_kind Demo.mixed "Show me all CALLS")).
    reflexivity.
  - apply (proj1 (proj2 (query_relationships_by_kind Demo.mixed "who inherits?")));
      reflexivity.
  - apply (proj2 (proj2 (query_relationships_by_kind Demo.mixed "contains")));
      reflexivity.
Defined.

(** C5 as stated fails: the query mentions "inherits", and the result is
    not the [inherits] relationships of the graph, because the query also
    mentions "calls". *)
Lemma query_inherits_shadowed_by_calls :
  mentions "inherits" "calls and inherits" = true
  /\ CodeAnalyzer.query_relationships Demo.mixed "calls and inherits"
     <> records_of_kind "inherits" (relationships Demo.mixed).
Proof. split; [reflexivity|]. vm_compute. discriminate. Qed.

Lemma query_calls_takes_precedence_witness :
  CodeAnalyzer.query_relationships Demo.mixed "calls and inherits"
  = records_of_kind "calls" (relationships Demo.mixed).
Proof.
  apply (query_calls_takes_precedence Demo.mixed "calls and inherits");
    reflexivity.
Defined.

Lemma parse_with_regex_other_language_witness :
  @CodeAnalyzer._parse_with_regex Demo.runtime "package main" "cmd/server.go" "go"
  = (∅, []).
Proof.
  apply (@parse_with_regex_other_language Demo.runtime); discriminate.
Defined.

Lemma detect_py_extension_witness :
  @LanguageDetector._detect_file_language Demo.runtime Demo.main_py = Some "python".
Proof.
  apply (proj2 (@detect_py_extension Demo.runtime Demo.main_py eq_refl "" true)).
Defined.

Lemma primary_language_and_confidence_witness :
  @classified Demo.runtime (entries Demo.repo) <> []
  /\ LanguageDetector.confidence
       (LanguageDetector.summary
          (@LanguageDetector.scan_files Demo.runtime (entries Demo.repo)))
     = (3 # 4)%Q.
Proof.
  split; [vm_compute; discriminate|].
  destruct (@primary_language_and_confidence Demo.runtime (entries Demo.repo))
    as [Hargmax _].
  destruct Hargmax as (_ & _ & ->); [vm_compute; discriminate|].
  by vm_compute.
Defined.

(** The entry point [pkg/locked.py] names a file that cannot be opened:
    the run returns, and it is the run over the repository without the
    file. *)
Lemma unreadable_file_contributes_nothing_witness :
  Forall (passes Demo.repo) ["pkg/locked.py"]
  /\ exists ccg,
       @CodeAnalyzer.analyze_codebase Demo.runtime
         (@CodeAnalyzer.__init__ Demo.runtime) Demo.repo "python"
         ["pkg/locked.py"] = Ok ccg
       /\ @CodeAnalyzer.analyze_codebase Demo.runtime
            (@CodeAnalyzer.__init__ Demo.runtime)
            (without_path Demo.repo "pkg/locked.py") "python" ["pkg/locked.py"]
          = Ok ccg.
Proof.
  assert (Hpasses : Forall (passes Demo.repo) ["pkg/locked.py"]).
  { repeat constructor. }
  split; [exact Hpasses|].
  refine (proj2 (proj2 (@unreadable_file_contributes_nothing Demo.runtime
                          (@CodeAnalyzer.__init__ Demo.runtime) Demo.repo "python"
                          ["pkg/locked.py"] Demo.locked "OSError" _ _ _))
            Hpasses).
  - simpl. tauto.
  - vm_compute.
    repeat (constructor; [intros Hin; simpl in Hin; intuition discriminate|]).
    constructor.
  - reflexivity.
Defined.

(** * Further properties of the analyzer *)

(** ** The three traversals as instances of one *)

Section Instances.

Import CodeAnalyzer.

Lemma fold_visit_ext (f g : Node -> option string -> Parsed -> Parsed)
    (cs : list Node) (p : option string) (st : Parsed) :
  Forall (fun c => forall p s, f c p s = g c p s) cs ->
  fold_left (fun s c => f c p s) cs st = fold_left (fun s c => g c p s) cs st.
Proof.
  intros Hcs. revert st.
  induction Hcs as [|c cs Hc _ IH]; intros st; simpl; [done|].
  by rewrite Hc, IH.
Qed.

Lemma descend_ext (f g : Node -> option string -> Parsed -> Parsed)
    (bk k : string) (cs : list Node) (st : Parsed) :
  Forall (fun c => Forall (fun d => forall p s, f d p s = g d p s)
                     (node_children c)) cs ->
  descend f bk k cs st = descend g bk k cs st.
Proof.
  unfold descend. intros Hcs. revert st.
  induction Hcs as [|c cs Hc _ IH]; intros st; simpl; [done|].
  rewrite IH. destruct (String.eqb (node_type c) bk); [|done].
  by rewrite (fold_visit_ext f g (node_children c) (Some k) st Hc).
Qed.

(** Equality with an instance of [traverse], for a node together with its
    children. *)
Ltac instance_of source g :=
  let IH := fresh "IH" in
  let Hkids := fresh "Hkids" in
  let Hgrand := fresh "Hgrand" in
  lazymatch goal with
  | |- forall node : Node, _ =>
      intros node;
      cut ((forall p s, source node p s = g node p s)
           /\ Forall (fun c => forall p s, source c p s = g c p s)
                (node_children node)); [tauto|];
      induction node as [t a b p q cs IH] using Node_nested_ind;
      assert (Hkids : Forall (fun c => forall p s, source c p s = g c p s) cs)
        by (eapply Forall_impl; [exact IH | tauto]);
      assert (Hgrand : Forall (fun c => Forall (fun d => forall p s,
                                            source d p s = g d p s)
                                          (node_children c)) cs)
        by (eapply Forall_impl; [exact IH | tauto]);
      split; [|exact Hkids];
      intros parent st; simpl;
      rewrite (fold_visit_ext source g cs parent _ Hkids);
      f_equal; unfold declaration_step, _find_function_calls; simpl;
      repeat case_match; try done;
      apply (descend_ext source g _ _ cs _ Hgrand)
  end.

Lemma py_traverse_instance (fp content : string) :
  forall node p s,
    py_traverse_node fp content node p s
    = traverse python_grammar fp content node p s.
Proof.
  instance_of (py_traverse_node fp content) (traverse python_grammar fp content).
Qed.

Lemma js_traverse_instance (fp content : string) :
  forall node p s,
    js_traverse_node fp content node p s
    = traverse javascript_grammar fp content node p s.
Proof.
  instance_of (js_traverse_node fp content)
    (traverse javascript_grammar fp content).
Qed.

Lemma java_traverse_instance (fp content : string) :
  forall node p s,
    java_traverse_node fp content node p s
    = traverse java_grammar fp content node p s.
Proof.
  instance_of (java_traverse_node fp content) (traverse java_grammar fp content).
Qed.

End Instances.

(** ** What every parse and every run keeps *)

Section Invariants.

Import CodeAnalyzer.

Lemma traverse_unfold (g : Grammar) (fp content : string) (node : Node)
    (parent : option string) (st : Parsed) :
  traverse g fp content node parent st
  = fold_left (fun s child => traverse g fp content child parent s)
      (node_children node)
      (declaration_step g (traverse g fp content) fp content node parent st).
Proof. by destruct node. Qed.

Lemma fold_visit_invariant (I : Parsed -> Prop)
    (visit : Node -> option string -> Parsed -> Parsed)
    (cs : list Node) (p : option string) (st : Parsed) :
  Forall (fun c => forall p s, I s -> I (visit c p s)) cs ->
  I st -> I (fold_left (fun s c => visit c p s) cs st).
Proof.
  intros Hcs. revert st.
  induction Hcs as [|c cs Hc _ IH]; intros st Hst; simpl; [done|].
  by apply IH, Hc.
Qed.

Lemma descend_invariant (I : Parsed -> Prop)
    (visit : Node -> option string -> Parsed -> Parsed)
    (bk k : string) (cs : list Node) (st : Parsed) :
  Forall (fun c => Forall (fun d => forall p s, I s -> I (visit d p s))
                     (node_children c)) cs ->
  I st -> I (descend visit bk k cs st).
Proof.
  unfold descend. intros Hcs. revert st.
  induction Hcs as [|c cs Hc _ IH]; intros st Hst; simpl; [done|].
  apply IH. destruct (String.eqb (node_type c) bk); [|done].
  by apply fold_visit_invariant.
Qed.

(** A property of the accumulated state that registering a declaration
    and registering an import keep is kept by a whole traversal. *)
Lemma traverse_invariant (I : Parsed -> Prop) (g : Grammar) (fp content : string) :
  (forall nm ty node parent st,
     Str.truthy (Some nm) = true -> I st -> I (declare nm ty fp node parent st)) ->
  (forall m node st,
     Str.truthy (Some m) = true -> I st ->
     I (set_element (import_id fp m) (element_of_node m Import_ fp node None) st)) ->
  forall node parent st, I st -> I (traverse g fp content node parent st).
Proof.
  intros Hdeclare Himport node.
  cut ((forall p s, I s -> I (traverse g fp content node p s))
       /\ Forall (fun c => forall p s, I s -> I (traverse g fp content c p s))
            (node_children node)); [tauto|].
  induction node as [t a b p q cs IH] using Node_nested_ind.
  assert (Hkids : Forall (fun c => forall p s, I s -> I (traverse g fp content c p s)) cs).
  { eapply Forall_impl; [exact IH | tauto]. }
  assert (Hgrand : Forall (fun c => Forall (fun d => forall p s,
                                      I s -> I (traverse g fp content d p s))
                                    (node_children c)) cs).
  { eapply Forall_impl; [exact IH | tauto]. }
  split; [|exact Hkids].
  intros parent st Hst. rewrite traverse_unfold.
  apply fold_visit_invariant; [exact Hkids|].
  unfold declaration_step.
  repeat case_match; try done;
    try (by apply Hdeclare); try (by apply Himport).
  apply descend_invariant; [exact Hgrand | by apply Hdeclare].
Qed.

Context `{Runtime}.

Lemma scan_invariant (I : Parsed -> Prop) (pattern : string) (ty : ElementType)
    (fp content : string) (st : Parsed) :
  (forall m s, I s ->
     I (set_element (element_id fp (group1 m)) (element_of_match ty fp content m) s)) ->
  I st -> I (scan pattern ty fp content st).
Proof.
  intros Hset. unfold scan. revert st.
  induction (re_finditer pattern content) as [|m ms IH]; intros st Hst; simpl;
    [done|].
  by apply IH, Hset.
Qed.

Lemma parse_with_regex_invariant (I : Parsed -> Prop) (content fp language : string) :
  (forall ty m s, I s ->
     I (set_element (element_id fp (group1 m)) (element_of_match ty fp content m) s)) ->
  I no_elements -> I (_parse_with_regex content fp language).
Proof.
  intros Hset Hempty.
  unfold _parse_with_regex, _regex_parse_python, _regex_parse_javascript,
    _regex_parse_java.
  repeat case_match; simpl;
    repeat (apply scan_invariant; [by apply Hset|]); done.
Qed.

(** The results that [_analyze_file] can return. *)
Lemma analyze_file_cases (F : Parsed -> Prop) (self : t) (e : FsEntry)
    (language : string) (parsed : Parsed) :
  F no_elements ->
  (forall content, F (_parse_with_regex content (rel_str e) language)) ->
  (forall g root content,
     grammar_for language = Some g ->
     F (traverse g (rel_str e) content root None no_elements)) ->
  _analyze_file self (Below e) language = Ok parsed -> F parsed.
Proof.
  intros Hnone Hregex Hast. rewrite analyze_file_below.
  destruct (read_text e) as [content|err]; [|by intros [= <-]].
  case_bool_decide; [|by intros [= <-]].
  unfold _parse_with_treesitter.
  destruct (parsers self !! language) as [parser|]; simpl; [|by intros [= <-]].
  destruct (parser content) as [root_node|err]; simpl; [|by intros [= <-]].
  unfold grammar_for in Hast.
  destruct (String.eqb language "python");
    [|destruct (String.eqb language "javascript");
      [|destruct (String.eqb language "java")]];
    intros [= <-]; try done.
  - unfold _parse_python_ast. rewrite py_traverse_instance. by apply Hast.
  - unfold _parse_javascript_ast. rewrite js_traverse_instance. by apply Hast.
  - unfold _parse_java_ast. rewrite java_traverse_instance. by apply Hast.
Qed.

(** A property of the merged state that holds initially and that merging
    the result of a file keeps is a property of the graph of the run. *)
Lemma run_invariant (I : Parsed -> Prop) (self : t) (r : Repo)
    (language : string) (entry_points : list string) (ccg : CodeContextGraph) :
  I no_elements ->
  (forall e acc file,
     analysed_path r entry_points (rel_str e) -> I acc ->
     _analyze_file self (Below e) language = Ok file ->
     I (merge acc file)) ->
  analyze_codebase self r language entry_points = Ok ccg ->
  I (elements ccg, relationships ccg).
Proof.
  intros Hempty Hmerge. unfold analyze_codebase. intros Hrun.
  destruct (analyze_entry_points self r language entry_points no_elements)
    as [acc1|] eqn:Hfirst; simpl in Hrun; [|done].
  destruct (analyze_remaining self r language entry_points acc1)
    as [acc2|] eqn:Hrest; simpl in Hrun; [|done].
  injection Hrun as <-. simpl.
  assert (H1 : I acc1).
  { revert Hfirst. apply analyze_entry_points_invariant; [|done].
    intros s x e rel parsed Hx Hrel Hstr Hfile Hs. apply (Hmerge e); [|done..].
    right. exists x, rel. by rewrite Hstr. }
  assert (H2 : I acc2).
  { revert Hrest. apply analyze_remaining_invariant; [|done].
    intros s e parsed He Hfile Hs. apply (Hmerge e); [|done..].
    left. exists e. split; [|done].
    by apply analyzer_code_files in He as (? & ? & ? & ?). }
  by destruct acc2.
Qed.

End Invariants.

(** ** Relationships of a run *)

Section Relationships.

Import CodeAnalyzer.

Lemma declare_only_contains (nm : string) (ty : ElementType) (fp : string)
    (node : Node) (parent : option string) (st : Parsed) :
  only_contains (snd st) ->
  only_contains (snd (declare nm ty fp node parent st)).
Proof.
  intros Hst. unfold declare, contains_edge, only_contains in *.
  destruct parent as [p|]; [|done].
  destruct (Str.truthy (Some p)); [|done]. simpl.
  apply Forall_app. split; [done|]. by constructor.
Qed.

Lemma traverse_only_contains (g : Grammar) (fp content : string) (node : Node)
    (parent : option string) (st : Parsed) :
  only_contains (snd st) ->
  only_contains (snd (traverse g fp content node parent st)).
Proof.
  apply (traverse_invariant (fun s => only_contains (snd s))).
  - intros. by apply declare_only_contains.
  - done.
Qed.

Lemma merge_only_contains (acc file : Parsed) :
  only_contains (snd acc) -> only_contains (snd file) ->
  only_contains (snd (merge acc file)).
Proof. intros Hacc Hfile. unfold merge. simpl. by apply Forall_app. Qed.

Context `{Runtime}.

Lemma analyze_file_only_contains (self : t) (e : FsEntry) (language : string)
    (parsed : Parsed) :
  _analyze_file self (Below e) language = Ok parsed -> only_contains (snd parsed).
Proof.
  apply (analyze_file_cases (fun parsed => only_contains (snd parsed))).
  - constructor.
  - intros content. rewrite parse_with_regex_relationships. constructor.
  - intros g root content _. apply traverse_only_contains. constructor.
Qed.

Lemma run_only_contains (self : t) (r : Repo) (language : string)
    (entry_points : list string) (ccg : CodeContextGraph) :
  analyze_codebase self r language entry_points = Ok ccg ->
  only_contains (relationships ccg).
Proof.
  intros Hrun.
  apply (run_invariant (fun s => only_contains (snd s)) self r language
           entry_points ccg); [constructor | | done].
  intros e acc file _ Hacc Hfile. apply merge_only_contains; [done|].
  by apply analyze_file_only_contains in Hfile.
Qed.

(** X1: whatever the language and the strategy, every relationship of the
    graph that a run returns has the kind [contains]; no [calls] and no
    [inherits] relationship is ever produced. *)
Theorem relationships_are_containment (self : t) (r : Repo) (language : string)
    (entry_points : list string) (ccg : CodeContextGraph) :
  analyze_codebase self r language entry_points = Ok ccg ->
  forall f t' kind, In (f, t', kind) (relationships ccg) -> kind = "contains".
Proof.
  intros Hrun f t' kind Hin. apply run_only_contains in Hrun.
  unfold only_contains in Hrun. rewrite Forall_forall in Hrun.
  apply list_elem_of_In in Hin. apply (Hrun _ Hin).
Qed.

Lemma records_of_other_kind (kind : string) (rels : list Relationship) :
  kind <> "contains" -> only_contains rels -> records_of_kind kind rels = [].
Proof.
  intros Hkind Hrels. unfold records_of_kind.
  induction Hrels as [|[[f t'] k] rels Hk _ IH]; simpl; [done|].
  subst k. apply String.eqb_neq in Hkind. rewrite String.eqb_sym in Hkind.
  by rewrite Hkind.
Qed.

(** X2: on a graph that a run has returned, [query_relationships] gives
    the empty list for every query string. *)
Theorem query_on_assembled_graph_is_empty (self : t) (r : Repo)
    (language : string) (entry_points : list string) (ccg : CodeContextGraph)
    (query : string) :
  analyze_codebase self r language entry_points = Ok ccg ->
  query_relationships ccg query = [].
Proof.
  intros Hrun. apply run_only_contains in Hrun.
  unfold query_relationships. repeat case_match; try done;
    rewrite select_kind_spec; by apply records_of_other_kind.
Qed.

Lemma other_language_file (self : t) (e : FsEntry) (language : string) :
  language <> "python" -> language <> "javascript" -> language <> "java" ->
  _analyze_file self (Below e) language = Ok no_elements.
Proof.
  intros Hpy Hjs Hjava. apply String.eqb_neq in Hpy, Hjs, Hjava.
  assert (Hregex : forall content fp, _parse_with_regex content fp language = no_elements).
  { intros. unfold _parse_with_regex. by rewrite Hpy, Hjs, Hjava. }
  rewrite analyze_file_below. destruct (read_text e) as [content|err]; [|done].
  case_bool_decide; [|by rewrite Hregex].
  unfold _parse_with_treesitter.
  destruct (parsers self !! language) as [parser|]; simpl; [|by rewrite Hregex].
  destruct (parser content) as [root_node|err]; simpl; [|by rewrite Hregex].
  by rewrite Hpy, Hjs, Hjava.
Qed.

(** The graph view of a run is built from its elements and relationships. *)
Lemma run_graph (self : t) (r : Repo) (language : string)
    (entry_points : list string) (ccg : CodeContextGraph) :
  analyze_codebase self r language entry_points = Ok ccg ->
  graph ccg = build_graph (elements ccg) (relationships ccg).
Proof.
  unfold analyze_codebase.
  destruct (analyze_entry_points _ _ _ _ _) as [acc1|]; simpl; [|done].
  destruct (analyze_remaining _ _ _ _ _) as [acc2|]; simpl; [|done].
  by intros [= <-].
Qed.

(** X3: for a language other than [python], [javascript] and [java] a run
    that returns returns the empty graph, whatever the files of the
    repository, the entry points and the parsers that are registered; and
    the run returns when the check of every entry point goes through. *)
Theorem other_languages_give_empty_graph (self : t) (r : Repo)
    (language : string) (entry_points : list string) :
  language <> "python" -> language <> "javascript" -> language <> "java" ->
  (forall ccg,
     analyze_codebase self r language entry_points = Ok ccg ->
     ccg = {| elements := ∅; relationships := []; graph := empty_graph |})
  /\ (Forall (passes r) entry_points ->
      analyze_codebase self r language entry_points
      = Ok {| elements := ∅; relationships := []; graph := empty_graph |}).
Proof.
  intros Hpy Hjs Hjava.
  assert (Hempty : forall ccg,
            analyze_codebase self r language entry_points = Ok ccg ->
            ccg = {| elements := ∅; relationships := []; graph := empty_graph |}).
  { intros ccg Hrun. pose proof (run_graph _ _ _ _ _ Hrun) as Hgraph.
    assert (Hnone : (elements ccg, relationships ccg) = no_elements).
    { apply (run_invariant (fun s => s = no_elements) self r language
               entry_points ccg); [done| |done].
      intros e acc file _ -> Hfile.
      rewrite other_language_file in Hfile by done.
      injection Hfile as <-. apply merge_no_elements. }
    destruct ccg as [els rels g]. simpl in *. injection Hnone as -> ->.
    subst g. unfold build_graph. simpl. by rewrite map_fold_empty. }
  split; [exact Hempty|].
  intros Hpasses.
  apply (analyze_codebase_returns self r language) in Hpasses as [ccg Hrun].
  by rewrite Hrun, (Hempty ccg Hrun).
Qed.

End Relationships.

(** ** The records of a run *)

Section Records.

Import CodeAnalyzer.

Lemma no_elements_lookup (k : string) : fst no_elements !! k = None.
Proof. unfold no_elements. simpl. apply lookup_empty. Qed.

Lemma set_element_records (R : string -> CodeElement -> Prop) (k : string)
    (el : CodeElement) (st : Parsed) :
  R k el ->
  (forall k' el', fst st !! k' = Some el' -> R k' el') ->
  forall k' el', fst (set_element k el st) !! k' = Some el' -> R k' el'.
Proof.
  intros Hk Hst k' el'. unfold set_element. simpl.
  rewrite lookup_insert. case_decide; [|by apply Hst].
  subst k'. by intros [= <-].
Qed.

Lemma declare_elements (nm : string) (ty : ElementType) (fp : string) (node : Node)
    (parent : option string) (st : Parsed) :
  fst (declare nm ty fp node parent st)
  = <[element_id fp nm := element_of_node nm ty fp node parent]> (fst st).
Proof.
  unfold declare, contains_edge. destruct parent as [p|]; [|done].
  by destruct (Str.truthy (Some p)).
Qed.

Lemma traverse_records (R : string -> CodeElement -> Prop) (g : Grammar)
    (fp content : string) (node : Node) (parent : option string) (st : Parsed) :
  (forall nm ty nd p, Str.truthy (Some nm) = true ->
     (ty = Function_ \/ ty = Class_) ->
     R (element_id fp nm) (element_of_node nm ty fp nd p)) ->
  (forall m nd, Str.truthy (Some m) = true ->
     R (import_id fp m) (element_of_node m Import_ fp nd None)) ->
  (forall k el, fst st !! k = Some el -> R k el) ->
  forall k el, fst (traverse g fp content node parent st) !! k = Some el -> R k el.
Proof.
  intros Hdeclare Himport.
  revert node parent st.
  cut (forall node parent st,
         (forall k el, fst st !! k = Some el -> R k el) ->
         (forall k el, fst (traverse g fp content node parent st) !! k = Some el
                       -> R k el)); [eauto|].
  intros node.
  cut ((forall p s, (forall k el, fst s !! k = Some el -> R k el) ->
          forall k el, fst (traverse g fp content node p s) !! k = Some el -> R k el)
       /\ Forall (fun c => forall p s,
                    (forall k el, fst s !! k = Some el -> R k el) ->
                    forall k el, fst (traverse g fp content c p s) !! k = Some el
                                 -> R k el)
            (node_children node)); [tauto|].
  induction node as [t a b p q cs IH] using Node_nested_ind.
  set (I := fun s : Parsed => forall k el, fst s !! k = Some el -> R k el) in *.
  assert (Hkids : Forall (fun c => forall p s, I s -> I (traverse g fp content c p s)) cs).
  { eapply Forall_impl; [exact IH | tauto]. }
  assert (Hgrand : Forall (fun c => Forall (fun d => forall p s,
                                      I s -> I (traverse g fp content d p s))
                                    (node_children c)) cs).
  { eapply Forall_impl; [exact IH | tauto]. }
  split; [|exact Hkids].
  intros parent st Hst. rewrite traverse_unfold.
  apply (fold_visit_invariant I); [exact Hkids|].
  assert (Hdecl : forall nm ty, Str.truthy (Some nm) = true ->
                    (ty = Function_ \/ ty = Class_) ->
                    I (declare nm ty fp (mkNode t a b p q cs) parent st)).
  { intros nm ty Hnm Hty k el. rewrite declare_elements, lookup_insert.
    case_decide; [|by apply Hst]. subst k. intros [= <-]. by apply Hdeclare. }
  unfold declaration_step.
  repeat case_match; try done; try (apply Hdecl; by eauto).
  - apply (descend_invariant I); [exact Hgrand | apply Hdecl; by eauto].
  - intros k' el'. apply (set_element_records R); [by apply Himport | exact Hst].
Qed.

Lemma element_of_node_record (nm : string) (ty : ElementType) (fp : string)
    (node : Node) (parent : option string) :
  ty = Function_ \/ ty = Class_ ->
  record_of fp (element_id fp nm) (element_of_node nm ty fp node parent).
Proof. intros [-> | ->]; unfold record_of; simpl; tauto. Qed.

Lemma import_of_node_record (m fp : string) (node : Node) :
  record_of fp (import_id fp m) (element_of_node m Import_ fp node None).
Proof. unfold record_of. simpl. tauto. Qed.

Context `{Runtime}.

Lemma element_of_match_record (ty : ElementType) (fp content : string) (m : Match) :
  ty = Function_ \/ ty = Class_ ->
  record_of fp (element_id fp (group1 m)) (element_of_match ty fp content m).
Proof. intros [-> | ->]; unfold record_of; simpl; tauto. Qed.

Lemma scan_records (R : string -> CodeElement -> Prop) (pattern : string)
    (ty : ElementType) (fp content : string) (st : Parsed) :
  (forall m, R (element_id fp (group1 m)) (element_of_match ty fp content m)) ->
  (forall k el, fst st !! k = Some el -> R k el) ->
  forall k el, fst (scan pattern ty fp content st) !! k = Some el -> R k el.
Proof.
  intros Hmatch.
  apply (scan_invariant (fun s => forall k el, fst s !! k = Some el -> R k el)).
  intros m s Hs. by apply set_element_records.
Qed.

Lemma parse_with_regex_records (R : string -> CodeElement -> Prop)
    (content fp language : string) :
  (forall ty m, ty = Function_ \/ ty = Class_ ->
     R (element_id fp (group1 m)) (element_of_match ty fp content m)) ->
  forall k el, fst (_parse_with_regex content fp language) !! k = Some el -> R k el.
Proof.
  intros Hmatch.
  unfold _parse_with_regex, _regex_parse_python, _regex_parse_javascript,
    _regex_parse_java.
  repeat case_match; simpl;
    repeat (apply scan_records; [intros; apply Hmatch; by eauto|]);
    intros k el; by rewrite no_elements_lookup.
Qed.

(** The records of a run, from the records of its files. *)
Lemma run_records (R : string -> string -> CodeElement -> Prop) (self : t)
    (r : Repo) (language : string) (entry_points : list string)
    (ccg : CodeContextGraph) :
  (forall e parsed, _analyze_file self (Below e) language = Ok parsed ->
     forall k el, fst parsed !! k = Some el -> R (rel_str e) k el) ->
  analyze_codebase self r language entry_points = Ok ccg ->
  forall k el, elements ccg !! k = Some el ->
    exists fp, analysed_path r entry_points fp /\ R fp k el.
Proof.
  intros Hfile Hrun.
  apply (run_invariant
           (fun s => forall k el, fst s !! k = Some el ->
                       exists fp, analysed_path r entry_points fp /\ R fp k el)
           self r language entry_points ccg); [| |done].
  - intros k el. by rewrite no_elements_lookup.
  - intros e acc file Hpath Hacc Hparsed k el. unfold merge. simpl.
    rewrite lookup_union_Some_raw. intros [Hk|[_ Hk]]; [|by apply Hacc].
    exists (rel_str e). split; [done|]. by apply (Hfile e file).
Qed.

Lemma analyze_file_records (self : t) (e : FsEntry) (language : string)
    (parsed : Parsed) :
  _analyze_file self (Below e) language = Ok parsed ->
  forall k el, fst parsed !! k = Some el -> record_of (rel_str e) k el.
Proof.
  apply (analyze_file_cases
           (fun parsed => forall k el, fst parsed !! k = Some el ->
                            record_of (rel_str e) k el)).
  - intros k el. by rewrite no_elements_lookup.
  - intros content. apply parse_with_regex_records.
    intros. by apply element_of_match_record.
  - intros g root content _. apply traverse_records.
    + intros. by apply element_of_node_record.
    + intros. apply import_of_node_record.
    + intros k el. by rewrite no_elements_lookup.
Qed.

(** X4: in the graph of a run, the key of every record is built from the
    record itself: its file path, which is the relative path of a file of
    the listing or the relative path of an entry point, and
    [{file_path}:{name}] for a function or a class, [{file_path}:import:{name}]
    for an import; the docstring, the parameters, the return type and the
    children of every record are unset. *)
Theorem element_record_matches_id (self : t) (r : Repo) (language : string)
    (entry_points : list string) (ccg : CodeContextGraph) :
  analyze_codebase self r language entry_points = Ok ccg ->
  forall k el, elements ccg !! k = Some el ->
    exists fp, analysed_path r entry_points fp /\ record_of fp k el.
Proof.
  intros Hrun.
  apply (run_records record_of self r language entry_points ccg); [|done].
  intros e parsed. apply analyze_file_records.
Qed.

End Records.

(** ** The parent field *)

Section Parent.

Import CodeAnalyzer.

Variable g : Grammar.
Variables fp content : string.

Let W := written_ids g fp content.
Let T := traverse g fp content.

(** A traversal leaves alone every key that is not an id of its tree. *)
Let frame (c : Node) : Prop :=
  forall p s k, k ∉ W c -> fst (T c p s) !! k = fst s !! k.

(** A traversal without parent leaves, under every id of its tree, a
    record without parent. *)
Let rooted (c : Node) : Prop :=
  forall s k, k ∈ W c ->
    exists el, fst (T c None s) !! k = Some el /\ parent el = None.

Lemma written_ids_unfold (node : Node) :
  W node
  = own_ids g fp content node ∪ union_list (List.map W (node_children node)).
Proof. by destruct node. Qed.


Lemma written_ids_children (c : Node) :
  union_list (List.map W (node_children c)) ⊆ W c.
Proof. rewrite (written_ids_unfold c). set_solver. Qed.

Lemma fold_frame (cs : list Node) (p : option string) (st : Parsed) (k : string) :
  Forall frame cs ->
  k ∉ union_list (List.map W cs) ->
  fst (fold_left (fun s c => T c p s) cs st) !! k = fst st !! k.
Proof.
  intros Hcs. revert st.
  induction Hcs as [|c cs Hc _ IH]; intros st Hk; simpl in *; [done|].
  rewrite IH by set_solver. apply Hc. set_solver.
Qed.

Lemma fold_rooted (cs : list Node) (st : Parsed) (k : string) :
  Forall frame cs -> Forall rooted cs ->
  k ∈ union_list (List.map W cs) ->
  exists el, fst (fold_left (fun s c => T c None s) cs st) !! k = Some el
             /\ parent el = None.
Proof.
  intros Hframe Hrooted. revert st.
  induction Hrooted as [|c cs Hc Hcs IH]; intros st Hk; simpl in *.
  - set_solver.
  - inversion Hframe as [|? ? Hfc Hfcs]; subst.
    destruct (decide (k ∈ union_list (List.map W cs))) as [Hin|Hout].
    + by apply IH.
    + rewrite (fold_frame cs None _ k Hfcs Hout). apply Hc. set_solver.
Qed.

Lemma descend_frame (bk id : string) (cs : list Node) (st : Parsed) (k : string) :
  Forall (fun c => Forall frame (node_children c)) cs ->
  k ∉ union_list (List.map W cs) ->
  fst (descend T bk id cs st) !! k = fst st !! k.
Proof.
  unfold descend. intros Hcs. revert st.
  induction Hcs as [|c cs Hc _ IH]; intros st Hk; simpl in *; [done|].
  rewrite IH by set_solver.
  destruct (String.eqb (node_type c) bk); [|done].
  apply fold_frame; [done|].
  pose proof (written_ids_children c). set_solver.
Qed.

Lemma step_frame (node : Node) (p : option string) (st : Parsed) (k : string) :
  Forall (fun c => Forall frame (node_children c)) (node_children node) ->
  k ∉ W node ->
  fst (declaration_step g T fp content node p st) !! k = fst st !! k.
Proof.
  intros Hgrand. rewrite written_ids_unfold. intros Hk.
  unfold declaration_step, own_ids in *.
  destruct (String.eqb (node_type node) (function_kind g)),
    (String.eqb (node_type node) (class_kind g)); simpl in *;
    repeat case_match; try done;
    rewrite ?descend_frame by (done || set_solver);
    rewrite ?declare_elements; unfold set_element; simpl;
    by rewrite lookup_insert_ne by set_solver.
Qed.

Lemma step_rooted (node : Node) (st : Parsed) (k : string) :
  Forall (fun c => Forall frame (node_children c)) (node_children node) ->
  k ∈ own_ids g fp content node ->
  k ∉ union_list (List.map W (node_children node)) ->
  exists el, fst (declaration_step g T fp content node None st) !! k = Some el
             /\ parent el = None.
Proof.
  intros Hgrand Hown Hout.
  unfold declaration_step, own_ids in *.
  destruct (String.eqb (node_type node) (function_kind g)),
    (String.eqb (node_type node) (class_kind g)); simpl in *;
    repeat case_match; try set_solver;
    rewrite ?descend_frame by done;
    rewrite ?declare_elements; unfold set_element; simpl;
    apply elem_of_singleton in Hown; subst k;
    rewrite lookup_insert_eq; eauto.
Qed.

Lemma traverse_frame_rooted (node : Node) : frame node /\ rooted node.
Proof.
  cut ((frame node /\ rooted node)
       /\ Forall (fun c => frame c /\ rooted c) (node_children node)); [tauto|].
  induction node as [t a b p q cs IH] using Node_nested_ind.
  assert (Hkids : Forall (fun c => frame c /\ rooted c) cs).
  { eapply Forall_impl; [exact IH | tauto]. }
  assert (Hframes : Forall frame cs).
  { eapply Forall_impl; [exact Hkids | tauto]. }
  assert (Hrooted : Forall rooted cs).
  { eapply Forall_impl; [exact Hkids | tauto]. }
  assert (Hgrand : Forall (fun c => Forall frame (node_children c)) cs).
  { eapply Forall_impl; [exact IH|]. intros c [_ Hc].
    eapply Forall_impl; [exact Hc | tauto]. }
  split; [|exact Hkids]. split.
  - intros parent st k Hk. unfold T. rewrite traverse_unfold.
    fold T. simpl node_children.
    rewrite fold_frame; [by apply step_frame | done |].
    rewrite written_ids_unfold in Hk. simpl in Hk. set_solver.
  - intros st k Hk. unfold T. rewrite traverse_unfold.
    fold T. simpl node_children.
    destruct (decide (k ∈ union_list (List.map W cs))) as [Hin|Hout].
    + by apply fold_rooted.
    + rewrite fold_frame by done. apply step_rooted; [done| |done].
      rewrite written_ids_unfold in Hk. simpl in Hk. set_solver.
Qed.

Lemma parse_without_parent (root_node : Node) (k : string) (el : CodeElement) :
  fst (T root_node None no_elements) !! k = Some el -> parent el = None.
Proof.
  destruct (traverse_frame_rooted root_node) as [Hframe Hrooted].
  destruct (decide (k ∈ W root_node)) as [Hin|Hout].
  - destruct (Hrooted no_elements k Hin) as (el' & -> & Hparent).
    by intros [= <-].
  - rewrite (Hframe None no_elements k Hout), no_elements_lookup. done.
Qed.





End Parent.

Section ParentOfRun.

Import CodeAnalyzer.

Context `{Runtime}.

(** X5: the [parent] field of every record in the graph of a run is unset,
    also for a method of a class: the descent into the class body registers
    the method with the class as parent, and the traversal of the children
    of the class that follows registers it again under the same id with the
    parent of the class, which is none at the root. The containment is kept
    by the [contains] relationship only. *)
Theorem parent_is_never_set (self : t) (r : Repo) (language : string)
    (entry_points : list string) (ccg : CodeContextGraph) :
  analyze_codebase self r language entry_points = Ok ccg ->
  forall k el, elements ccg !! k = Some el -> parent el = None.
Proof.
  intros Hrun k el Hk.
  destruct (run_records (fun _ _ el => parent el = None) self r language
              entry_points ccg) with k el as (fp & _ & Hparent); try done.
  intros e parsed.
  apply (analyze_file_cases
           (fun parsed => forall k el, fst parsed !! k = Some el ->
                            parent el = None)).
  - intros k' el'. by rewrite no_elements_lookup.
  - intros content. by apply parse_with_regex_records.
  - intros g root content _ k' el'. apply parse_without_parent.
Qed.

End ParentOfRun.

(** ** Relationships of the grammar traversals *)

Section Containment.

Import CodeAnalyzer.

Variable g : Grammar.
Variables fp content : string.

Lemma declare_root_relationships (nm : string) (ty : ElementType) (node : Node)
    (st : Parsed) :
  snd (declare nm ty fp node None st) = snd st.
Proof. done. Qed.

(** Without a descent into class bodies, a traversal that starts without
    parent adds no relationship. *)
Lemma flat_traverse_relationships (node : Node) (st : Parsed) :
  body_kind g = None ->
  snd (traverse g fp content node None st) = snd st.
Proof.
  intros Hflat. revert st.
  induction node as [t a b p q cs IH] using Node_nested_ind. intros st.
  rewrite traverse_unfold. simpl node_children.
  assert (Hfold : forall s,
            snd (fold_left (fun s c => traverse g fp content c None s) cs s)
            = snd s).
  { induction IH as [|c cs Hc _ IHcs]; intros s; simpl; [done|].
    by rewrite IHcs, Hc. }
  rewrite Hfold. unfold declaration_step. rewrite Hflat.
  repeat case_match; done.
Qed.

Lemma element_id_truthy (nm : string) : Str.truthy (Some (element_id fp nm)) = true.
Proof. unfold element_id. by destruct fp. Qed.

Lemma fold_appends (visit : Node -> option string -> Parsed -> Parsed)
    (cs : list Node) (p : option string) (st : Parsed) :
  Forall (fun c => forall p s, snd s `prefix_of` snd (visit c p s)) cs ->
  snd st `prefix_of` snd (fold_left (fun s c => visit c p s) cs st).
Proof.
  intros Hcs. revert st.
  induction Hcs as [|c cs Hc _ IH]; intros st; simpl; [done|].
  etrans; [apply Hc | apply IH].
Qed.

Lemma descend_appends (visit : Node -> option string -> Parsed -> Parsed)
    (bk k : string) (cs : list Node) (st : Parsed) :
  Forall (fun c => Forall (fun d => forall p s, snd s `prefix_of` snd (visit d p s))
                     (node_children c)) cs ->
  snd st `prefix_of` snd (descend visit bk k cs st).
Proof.
  unfold descend. intros Hcs. revert st.
  induction Hcs as [|c cs Hc _ IH]; intros st; simpl; [done|].
  etrans; [|apply IH].
  destruct (String.eqb (node_type c) bk); [by apply fold_appends | done].
Qed.

Lemma declare_appends (nm : string) (ty : ElementType) (node : Node)
    (parent : option string) (st : Parsed) :
  snd st `prefix_of` snd (declare nm ty fp node parent st).
Proof.
  unfold declare, contains_edge. destruct parent as [par|]; [|done].
  destruct (Str.truthy (Some par)); [|done]. simpl. by apply prefix_app_r.
Qed.

(** A traversal only appends to the relationships. *)
Lemma traverse_appends (node : Node) (parent : option string) (st : Parsed) :
  snd st `prefix_of` snd (traverse g fp content node parent st).
Proof.
  revert parent st.
  cut ((forall p s, snd s `prefix_of` snd (traverse g fp content node p s))
       /\ Forall (fun c => forall p s,
                    snd s `prefix_of` snd (traverse g fp content c p s))
            (node_children node)); [tauto|].
  induction node as [t a b p q cs IH] using Node_nested_ind.
  assert (Hkids : Forall (fun c => forall p s,
                     snd s `prefix_of` snd (traverse g fp content c p s)) cs).
  { eapply Forall_impl; [exact IH | tauto]. }
  assert (Hgrand : Forall (fun c => Forall (fun d => forall p s,
                       snd s `prefix_of` snd (traverse g fp content d p s))
                     (node_children c)) cs).
  { eapply Forall_impl; [exact IH | tauto]. }
  split; [|exact Hkids].
  intros parent st. rewrite traverse_unfold. simpl node_children.
  etrans; [|by apply fold_appends].
  unfold declaration_step.
  repeat case_match; try done; try apply declare_appends.
  etrans; [apply declare_appends | by apply descend_appends].
Qed.

End Containment.

Section ContainmentOfParse.

Import CodeAnalyzer.

Lemma prefix_In {A : Type} (l1 l2 : list A) (x : A) :
  l1 `prefix_of` l2 -> In x l1 -> In x l2.
Proof. intros [k ->] Hin. apply in_app_iff. by left. Qed.

Lemma fold_left_reaches {A : Type} (f : Parsed -> A -> Parsed) (l : list A)
    (x : A) (edge : Relationship) (st : Parsed) :
  (forall s y, snd s `prefix_of` snd (f s y)) ->
  In x l ->
  (forall s, In edge (snd (f s x))) ->
  In edge (snd (fold_left f l st)).
Proof.
  intros Happends Hin Hx. revert st.
  induction l as [|y l IH]; intros st; simpl; [done|].
  destruct Hin as [->|Hin]; [|by apply IH].
  assert (Hrest : forall s, snd s `prefix_of` snd (fold_left f l s)).
  { clear -Happends. induction l as [|z l IH]; intros s; simpl; [done|].
    etrans; [apply Happends | apply IH]. }
  eapply prefix_In; [apply Hrest | apply Hx].
Qed.

Variable g : Grammar.
Variables fp content : string.

Lemma children_append (cs : list Node) (p : option string) (st : Parsed) :
  snd st `prefix_of`
    snd (fold_left (fun s c => traverse g fp content c p s) cs st).
Proof.
  apply (fold_appends (traverse g fp content)).
  apply Forall_forall. intros c _ p' s. apply traverse_appends.
Qed.

Lemma body_appends (bk k : string) (cs : list Node) (st : Parsed) :
  snd st `prefix_of` snd (descend (traverse g fp content) bk k cs st).
Proof.
  apply descend_appends. apply Forall_forall. intros c _.
  apply Forall_forall. intros d _ p s. apply traverse_appends.
Qed.

Lemma declare_below (nm : string) (ty : ElementType) (node : Node)
    (k : string) (st : Parsed) :
  Str.truthy (Some k) = true ->
  In (k, element_id fp nm, "contains") (snd (declare nm ty fp node (Some k) st)).
Proof.
  intros Hk. unfold declare, contains_edge. rewrite Hk. simpl.
  apply in_app_iff. right. by left.
Qed.

(** The traversal of a declaration below a parent appends the
    relationship from the parent. *)
Lemma traverse_declaration (fn : Node) (k m : string) (st : Parsed) :
  String.eqb (node_type fn) (function_kind g)
  || String.eqb (node_type fn) (class_kind g) = true ->
  _get_node_text fn content "identifier" = Some m -> m <> "" ->
  Str.truthy (Some k) = true ->
  In (k, element_id fp m, "contains")
    (snd (traverse g fp content fn (Some k) st)).
Proof.
  intros Hkind Hname Hm Hk. rewrite traverse_unfold.
  eapply prefix_In; [apply children_append|].
  assert (Htruthy : Str.truthy (Some m) = true) by (by destruct m).
  unfold declaration_step. rewrite Hname, Htruthy.
  destruct (String.eqb (node_type fn) (function_kind g)); simpl in Hkind.
  - by apply declare_below.
  - rewrite Hkind. destruct (body_kind g) as [bk|]; [|by apply declare_below].
    eapply prefix_In; [apply body_appends | by apply declare_below].
Qed.

(** The traversal of a class appends the relationship to every declaration
    that is a child of one of its bodies. *)
Lemma traverse_class (cls blk fn : Node) (bk c m : string) (p : option string)
    (st : Parsed) :
  body_kind g = Some bk ->
  String.eqb (node_type cls) (function_kind g) = false ->
  String.eqb (node_type cls) (class_kind g) = true ->
  _get_node_text cls content "identifier" = Some c -> c <> "" ->
  In blk (node_children cls) -> node_type blk = bk ->
  In fn (node_children blk) ->
  String.eqb (node_type fn) (function_kind g)
  || String.eqb (node_type fn) (class_kind g) = true ->
  _get_node_text fn content "identifier" = Some m -> m <> "" ->
  In (element_id fp c, element_id fp m, "contains")
    (snd (traverse g fp content cls p st)).
Proof.
  intros Hbody Hnotfun Hclass Hc Hcne Hblk Hbk Hfn Hkind Hm Hmne.
  rewrite traverse_unfold.
  eapply prefix_In; [apply children_append|].
  assert (Htruthy : Str.truthy (Some c) = true) by (by destruct c).
  unfold declaration_step. rewrite Hnotfun, Hclass, Hc, Htruthy, Hbody.
  unfold descend.
  apply fold_left_reaches with blk; [|done|].
  - intros s y. destruct (String.eqb (node_type y) bk); [|done].
    apply children_append.
  - intros s. rewrite <- Hbk, String.eqb_refl.
    apply fold_left_reaches with fn; [|done|].
    + intros s' y. apply traverse_appends.
    + intros s'. apply traverse_declaration; [done..|].
      apply element_id_truthy.
Qed.

(** What the traversal of a node appends at every parent and state, the
    traversal of a tree that has the node appends too. *)
Lemma traverse_subnode (root_node node : Node) (edge : Relationship) :
  subnode root_node node ->
  (forall p st, In edge (snd (traverse g fp content node p st))) ->
  forall p st, In edge (snd (traverse g fp content root_node p st)).
Proof.
  induction 1 as [n|n c d Hc _ IH]; [done|].
  intros Hd p st. rewrite traverse_unfold.
  apply fold_left_reaches with c; [|done|].
  - intros s y. apply traverse_appends.
  - intros s. by apply IH.
Qed.

End ContainmentOfParse.

Section Nesting.

Import CodeAnalyzer.

(** X6: when a Python syntax tree has, anywhere in it, a class with a name
    and, directly in a [block] child of the class, a function with a name,
    the relationships of the parse hold the [contains] relationship from
    the id of the class to the id of the function. *)
Theorem python_class_contains_its_methods (root_node cls blk fn : Node)
    (fp content c m : string) :
  subnode root_node cls ->
  node_type cls = "class_definition" ->
  _get_node_text cls content "identifier" = Some c -> c <> "" ->
  In blk (node_children cls) -> node_type blk = "block" ->
  In fn (node_children blk) -> node_type fn = "function_definition" ->
  _get_node_text fn content "identifier" = Some m -> m <> "" ->
  In (element_id fp c, element_id fp m, "contains")
    (snd (_parse_python_ast root_node fp content)).
Proof.
  intros Hsub Hcls Hc Hcne Hblk Hbk Hfn Hfun Hm Hmne.
  unfold _parse_python_ast. rewrite py_traverse_instance.
  apply traverse_subnode with cls; [done|]. intros p st.
  apply traverse_class with blk fn "block"; try done.
  - by rewrite Hcls.
  - by rewrite Hcls.
  - by rewrite Hfun.
Qed.

(** X7: the same for Java: a method with a name directly in a [class_body]
    child of a class with a name is contained in the class. *)
Theorem java_class_contains_its_methods (root_node cls body fn : Node)
    (fp content c m : string) :
  subnode root_node cls ->
  node_type cls = "class_declaration" ->
  _get_node_text cls content "identifier" = Some c -> c <> "" ->
  In body (node_children cls) -> node_type body = "class_body" ->
  In fn (node_children body) -> node_type fn = "method_declaration" ->
  _get_node_text fn content "identifier" = Some m -> m <> "" ->
  In (element_id fp c, element_id fp m, "contains")
    (snd (_parse_java_ast root_node fp content)).
Proof.
  intros Hsub Hcls Hc Hcne Hbody Hbk Hfn Hfun Hm Hmne.
  unfold _parse_java_ast. rewrite java_traverse_instance.
  apply traverse_subnode with cls; [done|]. intros p st.
  apply traverse_class with body fn "class_body"; try done.
  - by rewrite Hcls.
  - by rewrite Hcls.
  - by rewrite Hfun.
Qed.

Context `{Runtime}.

(** X8: a run for [javascript] returns no relationship, with the grammar
    or without it: the grammar traversal never descends into a class with
    the class as parent, and the regex strategy records no relationship;
    so the graph view has no edge. *)
Theorem javascript_run_has_no_relationships (self : t) (r : Repo)
    (entry_points : list string) (ccg : CodeContextGraph) :
  analyze_codebase self r "javascript" entry_points = Ok ccg ->
  relationships ccg = [] /\ edges (graph ccg) = ∅.
Proof.
  intros Hrun.
  assert (Hrels : relationships ccg = []).
  { apply (run_invariant (fun s => snd s = []) self r "javascript"
             entry_points ccg); [done| |done].
    intros e acc file _ Hacc Hfile. unfold merge. simpl. rewrite Hacc. simpl.
    revert Hfile.
    apply (analyze_file_cases (fun parsed => snd parsed = [])); [done|..].
    - intros content. apply parse_with_regex_relationships.
    - intros g root content [= <-].
      by rewrite flat_traverse_relationships. }
  split; [done|].
  unfold analyze_codebase in Hrun.
  destruct (analyze_entry_points self r "javascript" entry_points no_elements)
    as [acc1|]; simpl in Hrun; [|done].
  destruct (analyze_remaining self r "javascript" entry_points acc1)
    as [acc2|]; simpl in Hrun; [|done].
  injection Hrun as <-. simpl in *. rewrite Hrels.
  unfold build_graph. simpl. apply add_nodes_graph.
Qed.

End Nesting.

(** ** The parser registry *)

Section Registry.

Import CodeAnalyzer.

Context `{Runtime}.

Lemma load_parsers_outside (langs : list string) (ps : gmap string Parser)
    (l : string) :
  ~ In l (loadable_prefix langs) ->
  Forall (fun x => is_Some (dict_get language_files x)) langs ->
  load_parsers langs ps !! l = ps !! l.
Proof.
  intros Hout Hknown. revert ps Hout.
  induction Hknown as [|x langs [v Hx] _ IH]; intros ps Hout; simpl in *; [done|].
  rewrite Hx. destruct (load_parser x) as [p|err]; [|done].
  rewrite IH by (simpl in Hout; tauto).
  apply lookup_insert_ne. simpl in Hout. tauto.
Qed.

Lemma load_parsers_inside (langs : list string) (ps : gmap string Parser)
    (l : string) :
  In l (loadable_prefix langs) ->
  Forall (fun x => is_Some (dict_get language_files x)) langs ->
  exists p, load_parser l = Ok p /\ load_parsers langs ps !! l = Some p.
Proof.
  intros Hin Hknown. revert ps Hin.
  induction Hknown as [|x langs [v Hx] Hrest IH]; intros ps Hin; simpl in *;
    [done|].
  rewrite Hx. destruct (load_parser x) as [p|err] eqn:Hload; [|done].
  destruct (in_dec String.string_dec l (loadable_prefix langs)) as [Hl|Hl].
  - by apply IH.
  - destruct Hin as [->|Hin]; [|done].
    exists p. split; [done|].
    rewrite load_parsers_outside by done. apply lookup_insert_eq.
Qed.

(** X9: the analyzer registers the grammars in the order python,
    javascript, java, cpp, rust, go and stops at the first one that fails to
    load: a language has a parser exactly when it and every language before
    it loaded, and the parser is the one that was loaded. When the first
    load fails no parser is registered. *)
Theorem parsers_registered_up_to_first_failure (l : string) :
  (is_Some (parsers __init__ !! l) <-> In l (loadable_prefix grammar_languages))
  /\ (forall p, parsers __init__ !! l = Some p -> load_parser l = Ok p)
  /\ ((exists err, load_parser "python" = Raise err) -> parsers __init__ = ∅).
Proof.
  assert (Hknown : Forall (fun x => is_Some (dict_get language_files x))
                     grammar_languages).
  { repeat constructor; by eexists. }
  assert (Hinit : parsers __init__ = load_parsers grammar_languages ∅)
    by reflexivity.
  rewrite Hinit.
  assert (Hiff : is_Some (load_parsers grammar_languages ∅ !! l)
                 <-> In l (loadable_prefix grammar_languages)).
  { split.
    - intros Hsome.
      destruct (in_dec String.string_dec l (loadable_prefix grammar_languages))
        as [Hl|Hl]; [done|].
      rewrite (load_parsers_outside grammar_languages ∅ l Hl Hknown) in Hsome.
      rewrite lookup_empty in Hsome. by destruct Hsome.
    - intros Hin.
      destruct (load_parsers_inside grammar_languages ∅ l Hin Hknown)
        as (p & _ & Hp).
      by exists p. }
  split; [exact Hiff|]. split.
  - intros p Hp.
    assert (Hin : In l (loadable_prefix grammar_languages)).
    { apply Hiff. by exists p. }
    destruct (load_parsers_inside grammar_languages ∅ l Hin Hknown)
      as (p' & Hload & Hp').
    congruence.
  - intros [err Herr]. unfold grammar_languages. simpl. by rewrite Herr.
Qed.

End Registry.

(** ** What a run covers *)

Section Coverage.

Import CodeAnalyzer.

Context `{Runtime}.

Lemma includes_merge_file (acc file : Parsed) : includes file (merge acc file).
Proof.
  unfold includes, merge. simpl. split; [set_solver|].
  intros rel Hrel. apply in_app_iff. by right.
Qed.

Lemma includes_merge_acc (x acc file : Parsed) :
  includes x acc -> includes x (merge acc file).
Proof.
  unfold includes, merge. simpl. intros [Hdom Hrels]. split; [set_solver|].
  intros rel Hrel. apply in_app_iff. left. by apply Hrels.
Qed.

Lemma for_each_reaches {A S : Type} (P : S -> Prop) (xs : list A)
    (body : S -> A -> result S) (x : A) (st fin : S) :
  (forall s y s', P s -> body s y = Ok s' -> P s') ->
  In x xs ->
  (forall s s', body s x = Ok s' -> P s') ->
  for_each xs body st = Ok fin -> P fin.
Proof.
  intros Hkeep Hin Hx. revert st.
  induction xs as [|y xs IH]; intros st; simpl; [done|].
  destruct (body st y) as [s1|err] eqn:Hstep; simpl; [|done].
  destruct Hin as [->|Hin]; [|by apply IH].
  apply for_each_invariant; [exact Hkeep | by apply (Hx st)].
Qed.

(** What a file that a run selects contributes is in the merged state. *)
Lemma run_includes (self : t) (r : Repo) (language : string)
    (entry_points : list string) (ccg : CodeContextGraph) (e : FsEntry)
    (parsed : Parsed) :
  List.NoDup (map rel_str (entries r)) ->
  analyze_codebase self r language entry_points = Ok ccg ->
  (In (rel_str e) entry_points /\ In e (entries r))
  \/ In e (_get_code_files r language) ->
  _analyze_file self (Below e) language = Ok parsed ->
  includes parsed (elements ccg, relationships ccg).
Proof.
  intros Hnodup Hrun Hsel Hparsed.
  assert (Hentries : In e (entries r)).
  { destruct Hsel as [[_ ?]|Hcode]; [done|].
    by apply analyzer_code_files in Hcode as (? & ? & ? & ?). }
  unfold analyze_codebase in Hrun.
  destruct (analyze_entry_points self r language entry_points no_elements)
    as [acc1|] eqn:Hfirst; simpl in Hrun; [|done].
  destruct (analyze_remaining self r language entry_points acc1)
    as [acc2|] eqn:Hrest; simpl in Hrun; [|done].
  injection Hrun as <-. simpl.
  replace (fst acc2, snd acc2) with acc2 by by destruct acc2.
  assert (Hkeep1 : forall s y s',
            includes parsed s ->
            analyze_entry_point self r language s y = Ok s' ->
            includes parsed s').
  { intros s y s' Hs Hstep.
    apply entry_point_cases in Hstep as [->|(? & ? & ? & _ & _ & _ & _ & ->)];
      [done|]. by apply includes_merge_acc. }
  assert (Hkeep2 : forall s y s',
            includes parsed s ->
            (if negb (existsb (String.eqb (rel_str y)) entry_points)
             then file ← _analyze_file self (Below y) language; Ok (merge s file)
             else Ok s) = Ok s' -> includes parsed s').
  { intros s y s' Hs. destruct (negb _); [|by intros [= <-]].
    destruct (_analyze_file self (Below y) language) as [file|]; simpl; [|done].
    intros [= <-]. by apply includes_merge_acc. }
  destruct (existsb (String.eqb (rel_str e)) entry_points) eqn:Hlisted.
  - assert (Hin : In (rel_str e) entry_points).
    { apply existsb_exists in Hlisted as (p & Hp & Heq).
      apply String.eqb_eq in Heq. by rewrite Heq. }
    revert Hrest. unfold analyze_remaining.
    apply for_each_invariant; [exact Hkeep2|].
    revert Hfirst. unfold analyze_entry_points.
    apply for_each_reaches with (rel_str e); [exact Hkeep1 | done |].
    intros s s'. unfold analyze_entry_point.
    rewrite stat_listed by done.
    destruct (os_stat r _); simpl; [|done|]; rewrite Hparsed; simpl;
      intros [= <-]; apply includes_merge_file.
  - destruct Hsel as [[Hin _]|Hcode].
    + assert (existsb (String.eqb (rel_str e)) entry_points = true); [|congruence].
      apply existsb_exists. exists (rel_str e).
      split; [done | apply String.eqb_refl].
    + revert Hrest. unfold analyze_remaining.
      apply for_each_reaches with e; [exact Hkeep2 | done |].
      intros s s'. rewrite Hlisted, Hparsed. simpl.
      intros [= <-]. apply includes_merge_file.
Qed.

(** X10: a run leaves out no file that it selects. The elements and the
    relationships of every entry point that exists, whatever its extension,
    and of every file with an extension of the language are in the graph
    that the run returns. *)
Theorem analysed_files_contribute (self : t) (r : Repo) (language : string)
    (entry_points : list string) (ccg : CodeContextGraph) (e : FsEntry)
    (parsed : Parsed) :
  List.NoDup (map rel_str (entries r)) ->
  analyze_codebase self r language entry_points = Ok ccg ->
  (In (rel_str e) entry_points /\ In e (entries r))
  \/ In e (_get_code_files r language) ->
  _analyze_file self (Below e) language = Ok parsed ->
  dom (fst parsed) ⊆ dom (elements ccg)
  /\ forall rel, In rel (snd parsed) -> In rel (relationships ccg).
Proof.
  intros Hnodup Hrun Hsel Hparsed.
  exact (run_includes self r language entry_points ccg e parsed
           Hnodup Hrun Hsel Hparsed).
Qed.

End Coverage.

(** ** The ids of a run *)

Section IdsOfRun.

Import CodeAnalyzer.

Context `{Runtime}.






End IdsOfRun.

(** * Further properties of the language detector *)

Section Detector.

Import LanguageDetector.

Lemma is_code_file_excluded_root (r : Repo) (e : FsEntry) (dir : string) :
  In dir exclude_dirs -> In dir (repo_parts r) -> is_code_file r e = false.
Proof.
  intros Hdir Hroot. unfold is_code_file.
  destruct (is_file e); [|done].
  assert (Hex : existsb
                  (fun excluded => existsb (String.eqb excluded) (path_parts r e))
                  exclude_dirs = true).
  { apply existsb_exists. exists dir. split; [done|].
    apply existsb_exists. exists dir. split; [|apply String.eqb_refl].
    unfold path_parts. apply in_app_iff. by left. }
  by rewrite Hex.
Qed.

Context `{Runtime}.

(** X11: when one of the directories on the path of the repository root
    itself carries an excluded name ([build], [env], [target], ...), the
    detector takes no file at all: the detection succeeds with the primary
    language [unknown], no language, no file and the confidence 0. *)
Theorem excluded_root_detects_nothing (r : Repo) (dir : string) :
  root_exists r = true ->
  In dir exclude_dirs -> In dir (repo_parts r) ->
  _get_code_files r = []
  /\ detect_languages_in_repo r
     = Ok {| primary_language := "unknown"; detected := ∅; counts := [];
             total_files := 0; confidence := 0%Q |}.
Proof.
  intros Hroot Hdir Hpath.
  assert (Hfiles : _get_code_files r = []).
  { rewrite detector_code_files.
    induction (entries r) as [|e es IH]; simpl; [done|].
    by rewrite (is_code_file_excluded_root r e dir). }
  split; [done|].
  unfold detect_languages_in_repo. by rewrite Hroot, Hfiles.
Qed.

(** X12: the code files of the detector are exactly the entries of the
    repository that are files, can be opened, have no NUL byte in their
    first 1024 bytes, have at most 10 MB and have no excluded name among the
    parts of their path; a file that cannot be opened counts as binary and
    is left out. *)
Theorem detector_code_files_are_readable_text (r : Repo) (e : FsEntry) :
  In e (_get_code_files r)
  <-> In e (entries r)
      /\ is_file e = true /\ readable e = true
      /\ has_nul_in_first_kb e = false
      /\ (st_size e <= 10 * 1024 * 1024)%N
      /\ forall dir, In dir exclude_dirs -> ~ In dir (path_parts r e).
Proof.
  rewrite detector_code_files, filter_In. unfold is_code_file.
  split.
  - intros [Hin Hcode].
    destruct (is_file e) eqn:Hfile; [|done].
    destruct (existsb _ exclude_dirs) eqn:Hex; [done|].
    destruct (_is_binary_file e) eqn:Hbin; [done|]. simpl in Hcode.
    destruct (10 * 1024 * 1024 <? st_size e)%N eqn:Hsize; [done|].
    unfold _is_binary_file, read_bytes in Hbin. rewrite Hfile in Hbin.
    destruct (readable e) eqn:Hread; simpl in Hbin; [|done].
    repeat split; try done.
    + by apply N.ltb_ge.
    + intros dir Hdir Hpart.
      assert (existsb
                (fun excluded => existsb (String.eqb excluded) (path_parts r e))
                exclude_dirs = true); [|congruence].
      apply existsb_exists. exists dir. split; [done|].
      apply existsb_exists. exists dir. split; [done | apply String.eqb_refl].
  - intros (Hin & Hfile & Hread & Hnul & Hsize & Hdirs).
    split; [done|]. rewrite Hfile.
    destruct (existsb _ exclude_dirs) eqn:Hex.
    + apply existsb_exists in Hex as (dir & Hdir & Hpart).
      apply existsb_exists in Hpart as (part & Hpart & Heq).
      apply String.eqb_eq in Heq as <-. by destruct (Hdirs dir).
    + unfold _is_binary_file, read_bytes. rewrite Hfile, Hread. simpl.
      unfold has_nul_in_first_kb in Hnul. rewrite Hnul. simpl.
      apply N.ltb_ge in Hsize. by rewrite Hsize.
Qed.

Lemma sorted_by_count_first (before after : list (string * nat))
    (lang : string) (n : nat) :
  Forall (fun x => snd x < n) before ->
  Forall (fun x => snd x <= n) after ->
  exists rest, sorted_by_count (before ++ (lang, n) :: after) = (lang, n) :: rest.
Proof.
  intros Hbefore Hafter.
  induction Hbefore as [|b before Hb _ IH]; simpl.
  - destruct after as [|a after]; [by eexists|].
    destruct (sorted_by_count_head (a :: after)) as (h & rest & Hsorted & Hin & _);
      [done|].
    rewrite Hsorted. simpl.
    rewrite Forall_forall in Hafter.
    assert (Hle : snd h <= n) by (apply Hafter; by apply list_elem_of_In).
    apply Nat.leb_le in Hle. rewrite Hle. by eexists.
  - destruct IH as [rest ->]. simpl.
    assert (Hgt : (n <=? snd b)%nat = false) by (apply Nat.leb_gt; lia).
    rewrite Hgt. by eexists.
Qed.

(** X13: among the languages with the largest number of files, the primary
    language is the one that was recorded first: the entry of [file_counts]
    that has a larger count than every entry before it and at least the
    count of every entry after it. *)
Theorem primary_language_is_first_maximum (self : t)
    (before after : list (string * nat)) (lang : string) (n : nat) :
  file_counts self = before ++ (lang, n) :: after ->
  Forall (fun x => snd x < n) before ->
  Forall (fun x => snd x <= n) after ->
  _get_primary_language self = lang.
Proof.
  intros Hcounts Hbefore Hafter. unfold _get_primary_language.
  destruct (sorted_by_count_first before after lang n Hbefore Hafter)
    as [rest Hsorted].
  rewrite Hcounts, Hsorted. by destruct before.
Qed.

Lemma first_language_spec (table : list (string * list string)) (content : string) :
  match first_language table content with
  | Some l =>
      exists before ps after,
        table = before ++ (l, ps) :: after
        /\ existsb (fun pattern => re_search pattern content) ps = true
        /\ Forall (fun item =>
                     existsb (fun pattern => re_search pattern content) (snd item)
                     = false) before
  | None =>
      Forall (fun item =>
                existsb (fun pattern => re_search pattern content) (snd item)
                = false) table
  end.
Proof.
  induction table as [|[l ps] table IH]; simpl; [constructor|].
  destruct (existsb (fun pattern => re_search pattern content) ps) eqn:Hps.
  - exists [], ps, table. repeat split; [done | constructor].
  - destruct (first_language table content) as [l'|].
    + destruct IH as (before & ps' & after & -> & Hmatch & Hbefore).
      exists ((l, ps) :: before), ps', after. repeat split; [done|].
      by constructor.
    + by constructor.
Qed.

(** X14: for a file whose suffix is not in the extension table and whose
    text can be read, the language is decided by the first 1024 characters:
    it is the first language, in the order of the pattern table, one of
    whose patterns is found there, and there is none when no pattern of the
    table is found. A pattern that a language shares with an earlier one
    never decides for the later language. *)
Theorem detect_by_content_first_match (file_path : FsEntry) (text : string) :
  dict_get EXTENSION_MAP (Str.lower (suffix (path_name file_path))) = None ->
  read_text file_path = Ok text ->
  match _detect_file_language file_path with
  | Some l =>
      exists before ps after,
        LANGUAGE_PATTERNS = before ++ (l, ps) :: after
        /\ (exists pattern, In pattern ps
              /\ re_search pattern (String.substring 0 1024 text) = true)
        /\ forall l' ps' pattern, In (l', ps') before -> In pattern ps' ->
             re_search pattern (String.substring 0 1024 text) = false
  | None =>
      forall l ps pattern, In (l, ps) LANGUAGE_PATTERNS -> In pattern ps ->
        re_search pattern (String.substring 0 1024 text) = false
  end.
Proof.
  intros Hext Hread. unfold _detect_file_language. rewrite Hext, Hread.
  pose proof (first_language_spec LANGUAGE_PATTERNS (String.substring 0 1024 text))
    as Hspec.
  destruct (first_language LANGUAGE_PATTERNS (String.substring 0 1024 text))
    as [l|].
  - destruct Hspec as (before & ps & after & Htable & Hmatch & Hbefore).
    exists before, ps, after. split; [done|]. split.
    + apply existsb_exists in Hmatch as (pattern & ? & ?). eauto.
    + intros l' ps' pattern Hin Hpattern. rewrite Forall_forall in Hbefore.
      apply list_elem_of_In in Hin. specialize (Hbefore _ Hin). simpl in Hbefore.
      destruct (re_search pattern (String.substring 0 1024 text)) eqn:Hfound;
        [|done].
      assert (existsb (fun pattern => re_search pattern (String.substring 0 1024 text))
                ps' = true); [|congruence].
      apply existsb_exists. eauto.
  - intros l ps pattern Hin Hpattern. rewrite Forall_forall in Hspec.
    apply list_elem_of_In in Hin. specialize (Hspec _ Hin). simpl in Hspec.
    destruct (re_search pattern (String.substring 0 1024 text)) eqn:Hfound;
      [|done].
    assert (existsb (fun pattern => re_search pattern (String.substring 0 1024 text))
              ps = true); [|congruence].
    apply existsb_exists. eauto.
Qed.

End Detector.

Section Totals.

Import LanguageDetector.

Lemma record_language_detected (self : t) (l : string) :
  Str.truthy (Some l) = true ->
  detected_languages (record_language self (Some l))
  = {[ l ]} ∪ detected_languages self.
Proof. intros Htruthy. unfold record_language. by rewrite Htruthy. Qed.

Context `{Runtime}.

Lemma scan_detected (files : list FsEntry) (self : t) :
  detected_languages
    (fold_left
       (fun self file_path => record_language self (_detect_file_language file_path))
       files self)
  = list_to_set (classified files) ∪ detected_languages self.
Proof.
  revert self. induction files as [|f files IH]; intros self.
  - simpl. set_solver.
  - change (classified (f :: files))
      with (match _detect_file_language f with
            | Some l => if Str.truthy (Some l) then [l] else []
            | None => []
            end ++ classified files).
    cbn [fold_left]. rewrite IH.
    destruct (_detect_file_language f) as [l|] eqn:Hl.
    + destruct (Str.truthy (Some l)) eqn:Htruthy.
      * rewrite record_language_detected by done.
        rewrite list_to_set_app_L. set_solver.
      * unfold record_language. rewrite Htruthy. simpl. set_solver.
    + simpl. set_solver.
Qed.

(** X15: the detection raises [ValueError] when the root does not exist.
    Otherwise it returns: as total the number of code files that got a
    language, as detected languages the languages of those files, and in
    [file_counts] one entry per detected language with the number of its
    files, which is at least 1; a language that no file got has no entry. *)
Theorem detection_summary (r : Repo) :
  (root_exists r = false -> detect_languages_in_repo r = Raise "ValueError")
  /\ (root_exists r = true ->
      exists d,
        detect_languages_in_repo r = Ok d
        /\ total_files d = length (classified (_get_code_files r))
        /\ (forall l, l ∈ detected d <-> In l (classified (_get_code_files r)))
        /\ List.NoDup (map fst (counts d))
        /\ forall l,
             dict_get (counts d) l
             = if (occurrences l (classified (_get_code_files r)) =? 0)%nat
               then None
               else Some (occurrences l (classified (_get_code_files r)))).
Proof.
  unfold detect_languages_in_repo. split; intros Hroot; rewrite Hroot; [done|].
  simpl. eexists. split; [reflexivity|]. simpl.
  destruct (counts_of_scan (_get_code_files r) [] __init__ counts_of_init)
    as (Hnodup & Hget & Htotal).
  repeat split; try done.
  - unfold scan_files. rewrite scan_detected. simpl.
    intros Hl. apply list_elem_of_In. set_solver.
  - unfold scan_files. rewrite scan_detected. simpl.
    intros Hl. apply list_elem_of_In in Hl. set_solver.
Qed.

End Totals.

(** * Further properties of the regex strategy *)

Section Positions.

Import CodeAnalyzer.

Lemma rfind_newline_from_bounds (i : Z) (stop : nat) (s : string) (last : Z) :
  (last < i)%Z ->
  (last <= Str.rfind_newline_from i stop s last < i + Z.of_nat stop)%Z.
Proof.
  revert i s last. induction stop as [|stop IH]; intros i s last Hlast; simpl.
  - destruct s; lia.
  - destruct s as [|c s]; [lia|].
    destruct (Ascii.eqb c Str.newline).
    + specialize (IH (i + 1)%Z s i). lia.
    + specialize (IH (i + 1)%Z s last). lia.
Qed.

Lemma count_newlines_bound (s : string) : Str.count_newlines s <= String.length s.
Proof.
  induction s as [|c s IH]; simpl; [lia|].
  destruct (Ascii.eqb c Str.newline); lia.
Qed.

Lemma substring_length_le (n m : nat) (s : string) :
  String.length (String.substring n m s) <= m.
Proof.
  revert n m. induction s as [|c s IH]; intros [|n] [|m]; simpl; try lia.
  - specialize (IH 0 m). lia.
  - apply (IH n 0).
  - apply (IH n (S m)).
Qed.

(** X16: the position that the regex strategy gives to a match: the line
    is counted from 1 and is at most one more than the offset of the match,
    the element starts and ends on that line, the start column lies between
    0 and the offset of the match, and the end column exceeds it by the
    length of the match. *)
Theorem regex_element_position (ty : ElementType) (fp content : string) (m : Match) :
  let el := element_of_match ty fp content m in
  (1 <= line_start el <= Z.of_nat (m_start m) + 1)%Z
  /\ line_end el = line_start el
  /\ (0 <= column_start el <= Z.of_nat (m_start m))%Z
  /\ (column_end el - column_start el
      = Z.of_nat (m_end m) - Z.of_nat (m_start m))%Z.
Proof.
  simpl.
  pose proof (rfind_newline_from_bounds 0 (m_start m) content (-1)) as Hrfind.
  unfold Str.rfind_newline.
  pose proof (count_newlines_bound (String.substring 0 (m_start m) content)).
  pose proof (substring_length_le 0 (m_start m) content).
  lia.
Qed.

End Positions.

(** * Properties of the repository mapper *)

Section EntryPoints.

Import RepoMapper.

Lemma collect_files (xs : list FsEntry) (acc : list string) :
  fold_left
    (fun entry_points file_path =>
       if is_file file_path then entry_points ++ [rel_str file_path]
       else entry_points)
    xs acc
  = acc ++ map rel_str (List.filter is_file xs).
Proof.
  revert acc. induction xs as [|x xs IH]; intros acc; simpl.
  - by rewrite app_nil_r.
  - rewrite IH. destruct (is_file x); [|done]. simpl. by rewrite <- app_assoc.
Qed.

Lemma collect_named (r : Repo) (patterns : list string) (acc : list string)
    (p : string) :
  In p
    (fold_left
       (fun entry_points pattern =>
          fold_left
            (fun entry_points file_path =>
               if is_file file_path then entry_points ++ [rel_str file_path]
               else entry_points)
            (rglob_name r pattern) entry_points)
       patterns acc)
  <-> In p acc
      \/ exists e, In e (entries r) /\ rel_str e = p /\ is_file e = true
                   /\ In (path_name e) patterns.
Proof.
  revert acc. induction patterns as [|pattern patterns IH]; intros acc; simpl.
  - split; [tauto|]. intros [?|(e & _ & _ & _ & [])]. done.
  - rewrite IH, collect_files, in_app_iff, in_map_iff. unfold rglob_name. split.
    + intros [[?|(e & Hp & He)]|(e & ? & ? & ? & ?)]; [tauto| |eauto 10].
      apply filter_In in He as [He Hfile].
      apply filter_In in He as [He Hname]. apply String.eqb_eq in Hname.
      right. exists e. eauto.
    + intros [?|(e & He & Hp & Hfile & [Hname|Hname])]; [tauto| |eauto 10].
      left. right. exists e. split; [done|].
      apply filter_In. split; [|done].
      apply filter_In. split; [done|]. by apply String.eqb_eq.
Qed.

Context `{Runtime}.

Lemma collect_main (r : Repo) (patterns : list string) (p : string) :
  In p (fold_left
          (fun entry_files file_path =>
             if has_main r patterns file_path
             then entry_files ++ [rel_str file_path] else entry_files)
          (entries r) [])
  <-> exists e, In e (entries r) /\ rel_str e = p /\ has_main r patterns e = true.
Proof.
  assert (Hgen : forall es acc,
    fold_left
      (fun entry_files file_path =>
         if has_main r patterns file_path
         then entry_files ++ [rel_str file_path] else entry_files)
      es acc
    = acc ++ map rel_str (List.filter (has_main r patterns) es)).
  { induction es as [|x es IH]; intros acc; simpl.
    - by rewrite app_nil_r.
    - rewrite IH. destruct (has_main r patterns x); [|done].
      simpl. by rewrite <- app_assoc. }
  rewrite Hgen. simpl. rewrite in_map_iff. split.
  - intros (e & Hp & He). apply filter_In in He as [? ?]. eauto.
  - intros (e & ? & ? & ?). exists e. split; [done|]. by apply filter_In.
Qed.

Lemma find_main_functions_spec (r : Repo) (language p : string) :
  In p (_find_main_functions r language)
  <-> exists e, In e (entries r) /\ rel_str e = p
                /\ has_main r (default [] (dict_get main_patterns language)) e = true.
Proof.
  unfold _find_main_functions.
  destruct (default [] (dict_get main_patterns language)) as [|pattern rest]
    eqn:Hpatterns; [|apply collect_main].
  split; [done|]. intros (e & _ & _ & Hmain).
  unfold has_main in Hmain. repeat case_match; done.
Qed.

(** X17: the entry points that the mapper returns are exactly the paths of
    the files of the repository that have a conventional name for the
    language, ignored or not, or, for python, javascript, java, cpp, rust
    and go, that are not ignored, can be read and show a main pattern of the
    language in their first 1024 characters; for a language in neither
    table there is none. *)
Theorem entry_points_characterised (r : Repo) (language p : string) :
  p ∈ _find_entry_points r language
  <-> exists e,
        In e (entries r) /\ rel_str e = p /\ is_file e = true
        /\ (In (path_name e) (default [] (dict_get entry_patterns language))
            \/ (In language ["python"; "javascript"; "java"; "cpp"; "rust"; "go"]
                /\ _should_ignore r e = false
                /\ exists text pattern,
                     read_text e = Ok text
                     /\ In pattern (default [] (dict_get main_patterns language))
                     /\ re_search pattern (String.substring 0 1024 text) = true)).
Proof.
  unfold _find_entry_points. rewrite elem_of_list_to_set, list_elem_of_In.
  unfold entry_point_candidates.
  assert (Hmain : forall e,
    has_main r (default [] (dict_get main_patterns language)) e = true
    <-> is_file e = true /\ _should_ignore r e = false
        /\ exists text pattern,
             read_text e = Ok text
             /\ In pattern (default [] (dict_get main_patterns language))
             /\ re_search pattern (String.substring 0 1024 text) = true).
  { intros e. unfold has_main. split.
    - destruct (is_file e); [|done].
      destruct (_should_ignore r e); [done|]. simpl.
      destruct (read_text e) as [text|]; [|done].
      intros Hex. apply existsb_exists in Hex as (pattern & ? & ?). eauto 10.
    - intros (-> & -> & text & pattern & -> & Hin & Hfound). simpl.
      apply existsb_exists. eauto. }
  destruct (existsb (String.eqb language)
              ["python"; "javascript"; "java"; "cpp"; "rust"; "go"]) eqn:Hsix.
  - apply existsb_exists in Hsix as (l & Hl & Heq). apply String.eqb_eq in Heq.
    subst l. rewrite in_app_iff, collect_named, find_main_functions_spec. split.
    + intros [[[]|(e & ? & ? & ? & ?)]|(e & ? & ? & Hm)]; [eauto 10|].
      apply Hmain in Hm as (? & ? & ?). eauto 10.
    + intros (e & ? & ? & ? & [?|(_ & ? & ?)]); [left; right; eauto 10|].
      right. exists e. split; [done|]. split; [done|]. apply Hmain. eauto.
  - rewrite collect_named. split.
    + intros [[]|(e & ? & ? & ? & ?)]. eauto 10.
    + intros (e & ? & ? & ? & [?|(Hl & _)]); [right; eauto 10|].
      assert (existsb (String.eqb language)
                ["python"; "javascript"; "java"; "cpp"; "rust"; "go"] = true);
        [|congruence].
      apply existsb_exists. exists language. split; [done | apply String.eqb_refl].
Qed.

(** X18: when the root of the repository lies below a directory with an
    ignored name, every path of the repository is ignored, and the search
    for main functions returns nothing for every language. *)
Theorem ignored_root_hides_everything (r : Repo) (pattern : string) :
  In pattern ignore_patterns -> String.prefix "*" pattern = false ->
  In pattern (repo_parts r) ->
  (forall e, _should_ignore r e = true)
  /\ forall language, _find_main_functions r language = [].
Proof.
  intros Hpattern Hliteral Hroot.
  assert (Hignore : forall e, _should_ignore r e = true).
  { intros e. unfold _should_ignore, should_ignore_parts.
    apply existsb_exists. exists pattern. split; [done|].
    unfold pattern_matches. rewrite Hliteral.
    apply orb_true_iff. left. apply existsb_exists. exists pattern.
    split; [|apply String.eqb_refl].
    unfold path_parts. apply in_app_iff. by left. }
  split; [exact Hignore|]. intros language.
  destruct (_find_main_functions r language) as [|p ps] eqn:Hfound; [done|].
  assert (Hin : In p (_find_main_functions r language)) by (rewrite Hfound; by left).
  apply find_main_functions_spec in Hin as (e & _ & _ & Hmain).
  unfold has_main in Hmain. rewrite Hignore in Hmain.
  by destruct (is_file e).
Qed.

End EntryPoints.

(** * The name of a repository *)

Section RepoName.

Import GitManager.

Lemma split_slash_free (s cur : string) :
  Str.contains "/" cur = false ->
  Forall (fun part => Str.contains "/" part = false) (split_slash_from s cur).
Proof.
  revert cur. induction s as [|c s IH]; intros cur Hcur; simpl.
  - by repeat constructor.
  - destruct (Ascii.eqb c "/") eqn:Hc.
    + constructor; [done|]. by apply IH.
    + apply IH. rewrite contains_slash_app, Hcur, contains_slash_cons.
      rewrite Ascii.eqb_sym, Hc. done.
Qed.

Lemma last_two_In (parts : list string) (a b : string) :
  last_two parts = Some (a, b) -> In a parts /\ In b parts.
Proof.
  induction parts as [|x parts IH]; [done|].
  destruct parts as [|y [|z parts]].
  - done.
  - intros [= -> ->]. simpl. tauto.
  - intros Hlast. destruct (IH Hlast). simpl in *. tauto.
Qed.

(** X19: the name never holds a path separator, whatever the URL, so the
    clone directory and the output directory that are built from it lie
    directly below their parent. *)
Theorem repo_name_has_no_separator (url : string) :
  Str.contains "/" (_extract_repo_name url) = false.
Proof.
  unfold _extract_repo_name.
  set (u := if String.prefix "git@github.com:" _ then _ else _).
  destruct (last_two (split_slash (rstrip_slash u))) as [[owner repo]|] eqn:Hlast;
    [|done].
  apply last_two_In in Hlast as [Howner Hrepo].
  pose proof (split_slash_free (rstrip_slash u) "" eq_refl) as Hfree.
  rewrite Forall_forall in Hfree.
  apply list_elem_of_In, Hfree in Howner. apply list_elem_of_In, Hfree in Hrepo.
  rewrite !contains_slash_app, Howner, Hrepo. done.
Qed.

Lemma split_slash_from_app (a s cur : string) :
  Str.contains "/" a = false ->
  split_slash_from (a ++ String "/" s) cur
  = (cur ++ a)%string :: split_slash_from s "".
Proof.
  revert cur. induction a as [|c a IH]; intros cur Ha.
  - change ("" ++ String "/" s)%string with (String "/" s). simpl.
    by rewrite append_nil_r.
  - rewrite contains_slash_cons in Ha. apply orb_false_iff in Ha as [Hc Ha].
    change (String c a ++ String "/" s)%string with (String c (a ++ String "/" s)).
    simpl. rewrite Ascii.eqb_sym, Hc, IH by done.
    by rewrite append_assoc.
Qed.

Lemma split_slash_from_free (a cur : string) :
  Str.contains "/" a = false -> split_slash_from a cur = [(cur ++ a)%string].
Proof.
  revert cur. induction a as [|c a IH]; intros cur Ha; simpl.
  - by rewrite append_nil_r.
  - rewrite contains_slash_cons in Ha. apply orb_false_iff in Ha as [Hc Ha].
    rewrite Ascii.eqb_sym, Hc, IH by done. by rewrite append_assoc.
Qed.

Lemma rstrip_slash_free (b : string) :
  Str.contains "/" b = false -> rstrip_slash b = b.
Proof.
  induction b as [|c b IH]; [done|]. intros Hb.
  rewrite contains_slash_cons in Hb. apply orb_false_iff in Hb as [Hc Hb].
  simpl. rewrite IH by done. rewrite Ascii.eqb_sym, Hc. by destruct b.
Qed.

Lemma rstrip_slash_app (a b : string) :
  rstrip_slash b <> "" -> rstrip_slash (a ++ b) = (a ++ rstrip_slash b)%string.
Proof.
  intros Hb. induction a as [|c a IH]; [done|].
  change (String c a ++ b)%string with (String c (a ++ b)).
  change (String c a ++ rstrip_slash b)%string with (String c (a ++ rstrip_slash b)).
  simpl. rewrite IH.
  destruct (a ++ rstrip_slash b)%string eqn:Hrest; [|done].
  destruct a; [|done]. by destruct Hb.
Qed.

Lemma rstrip_slash_trailing (s : string) :
  rstrip_slash (s ++ "/") = rstrip_slash s.
Proof.
  induction s as [|c s IH]; [done|].
  change (String c s ++ "/")%string with (String c (s ++ "/")).
  simpl. by rewrite IH.
Qed.

Lemma substring_all (s : string) : String.substring 0 (String.length s) s = s.
Proof. induction s as [|c s IH]; simpl; [done | by rewrite IH]. Qed.

Lemma substring_take (a b : string) :
  String.substring 0 (String.length a) (a ++ b) = a.
Proof.
  induction a as [|c a IH]; [by destruct b|].
  change (String c a ++ b)%string with (String c (a ++ b)).
  simpl. by rewrite IH.
Qed.

Lemma substring_skip (a b : string) (m : nat) :
  String.substring (String.length a) m (a ++ b) = String.substring 0 m b.
Proof.
  induction a as [|c a IH]; [done|].
  change (String c a ++ b)%string with (String c (a ++ b)). simpl. exact IH.
Qed.

Lemma substring_split (s : string) (i : nat) :
  i <= String.length s ->
  s = (String.substring 0 i s
       ++ String.substring i (String.length s - i) s)%string.
Proof.
  revert i. induction s as [|c s IH]; intros [|i] Hi; simpl in *; try lia.
  - done.
  - by rewrite substring_all.
  - change (String c s = String c (String.substring 0 i s
                                   ++ String.substring i (String.length s - i) s)).
    rewrite <- IH by lia. done.
Qed.

Lemma endswith_app (a b : string) : Str.endswith (a ++ b) b = true.
Proof.
  unfold Str.endswith. rewrite length_append.
  replace (String.length a + String.length b - String.length b)
    with (String.length a) by lia.
  rewrite substring_skip, substring_all, String.eqb_refl.
  apply andb_true_iff. split; [|done]. apply Nat.leb_le. lia.
Qed.

Lemma endswith_suffix (s suf : string) :
  Str.endswith s suf = true -> exists pre, s = (pre ++ suf)%string.
Proof.
  unfold Str.endswith. intros Hend.
  apply andb_true_iff in Hend as [Hlen Heq].
  apply Nat.leb_le in Hlen. apply String.eqb_eq in Heq.
  exists (String.substring 0 (String.length s - String.length suf) s).
  pose proof (substring_split s (String.length s - String.length suf)) as Hsplit.
  replace (String.length s - (String.length s - String.length suf))
    with (String.length suf) in Hsplit by lia.
  rewrite Heq in Hsplit. apply Hsplit. lia.
Qed.

Lemma append_last_inj (a b : string) (c d : ascii) :
  (a ++ String c "" = b ++ String d "")%string -> c = d.
Proof.
  revert b. induction a as [|x a IH]; intros [|y b] Heq.
  - by injection Heq.
  - change (String c "" = String y (b ++ String d "")) in Heq.
    injection Heq as _ Heq. by destruct b.
  - change (String x (a ++ String c "") = String d "") in Heq.
    injection Heq as _ Heq. by destruct a.
  - change (String x (a ++ String c "") = String y (b ++ String d "")) in Heq.
    injection Heq as _ Heq. by apply (IH b).
Qed.

Lemma endswith_git_slash (s : string) : Str.endswith (s ++ "/") ".git" = false.
Proof.
  destruct (Str.endswith (s ++ "/") ".git") eqn:Hend; [|done].
  apply endswith_suffix in Hend as [pre Heq].
  change ".git" with (".gi" ++ "t")%string in Heq.
  rewrite <- append_assoc in Heq. by apply append_last_inj in Heq.
Qed.

Lemma prefix_app (a b : string) : String.prefix a (a ++ b) = true.
Proof.
  induction a as [|c a IH]; [by destruct b|].
  change (String c a ++ b)%string with (String c (a ++ b)).
  cbn [String.prefix]. by destruct (Ascii.ascii_dec c c).
Qed.

Lemma replace_absent (old new s : string) :
  Str.contains old s = false -> replace_from old new 0 s = s.
Proof.
  induction s as [|c s IH]; [done|]. intros Hs.
  cbn [Str.contains] in Hs. apply orb_false_iff in Hs as [Hprefix Hs].
  cbn [replace_from]. by rewrite Hprefix, IH.
Qed.

Lemma replace_skip (old new a x : string) :
  replace_from old new (String.length a) (a ++ x) = replace_from old new 0 x.
Proof.
  induction a as [|c a IH]; [done|].
  change (String c a ++ x)%string with (String c (a ++ x)). simpl. exact IH.
Qed.

Lemma replace_match (old new x : string) :
  old <> "" ->
  replace old new (old ++ x) = (new ++ replace_from old new 0 x)%string.
Proof.
  destruct old as [|c old]; [done|]. intros _. unfold replace.
  pose proof (prefix_app (String c old) x) as Hprefix.
  change (String c old ++ x)%string with (String c (old ++ x)) in *.
  cbn [replace_from]. rewrite Hprefix.
  replace (String.length (String c old) - 1) with (String.length old)
    by (simpl; lia).
  by rewrite replace_skip.
Qed.

(** The name that the rest of the function gives to the canonical URL. *)
Lemma canonical_name (owner repo : string) :
  Str.contains "/" owner = false -> Str.contains "/" repo = false ->
  repo <> "" ->
  last_two
    (split_slash
       (rstrip_slash ("https://github.com/" ++ owner ++ "/" ++ repo)))
  = Some (owner, repo).
Proof.
  intros Howner Hrepo Hne.
  assert (Hstrip : rstrip_slash repo = repo) by (by apply rstrip_slash_free).
  change ("https://github.com/" ++ owner ++ "/" ++ repo)%string
    with ("https://github.com/" ++ (owner ++ (String "/" repo)))%string.
  rewrite <- !append_assoc.
  change (String "/" repo) with ("/" ++ repo)%string.
  rewrite <- append_assoc.
  rewrite rstrip_slash_app by (by rewrite Hstrip).
  rewrite Hstrip. rewrite !append_assoc.
  change ("https://github.com/" ++ owner ++ "/" ++ repo)%string
    with ("https:" ++ String "/" ("" ++ String "/"
            ("github.com" ++ String "/" (owner ++ String "/" repo))))%string.
  unfold split_slash.
  rewrite !split_slash_from_app, split_slash_from_free by done.
  done.
Qed.

(** X20: the usual spellings of a GitHub URL give one name. For an owner
    and a non-empty repository name without [/], the HTTPS URL, the same
    with a trailing [/] or a trailing [.git], and the SSH URL with [.git]
    all give [{owner}_{repo}]. *)
Theorem repo_name_of_github_url (owner repo : string) :
  Str.contains "/" owner = false -> Str.contains "/" repo = false ->
  repo <> "" ->
  (Str.endswith ("https://github.com/" ++ owner ++ "/" ++ repo) ".git" = false ->
   _extract_repo_name ("https://github.com/" ++ owner ++ "/" ++ repo)
   = (owner ++ "_" ++ repo)%string)
  /\ _extract_repo_name (("https://github.com/" ++ owner ++ "/" ++ repo) ++ "/")
     = (owner ++ "_" ++ repo)%string
  /\ _extract_repo_name (("https://github.com/" ++ owner ++ "/" ++ repo) ++ ".git")
     = (owner ++ "_" ++ repo)%string
  /\ (Str.contains "git@github.com:" (owner ++ "/" ++ repo) = false ->
      _extract_repo_name (("git@github.com:" ++ owner ++ "/" ++ repo) ++ ".git")
      = (owner ++ "_" ++ repo)%string).
Proof.
  intros Howner Hrepo Hne.
  pose proof (canonical_name owner repo Howner Hrepo Hne) as Hname.
  repeat split.
  - intros Hgit. unfold _extract_repo_name. rewrite Hgit.
    change (String.prefix "git@github.com:"
              ("https://github.com/" ++ owner ++ "/" ++ repo)) with false.
    cbv iota. by rewrite Hname.
  - unfold _extract_repo_name. rewrite endswith_git_slash.
    change (String.prefix "git@github.com:"
              (("https://github.com/" ++ owner ++ "/" ++ repo) ++ "/")) with false.
    cbv iota. by rewrite rstrip_slash_trailing, Hname.
  - unfold _extract_repo_name. rewrite endswith_app.
    rewrite length_append.
    replace (String.length ("https://github.com/" ++ owner ++ "/" ++ repo)
             + String.length ".git" - 4)
      with (String.length ("https://github.com/" ++ owner ++ "/" ++ repo))
      by (simpl; lia).
    rewrite substring_take.
    change (String.prefix "git@github.com:"
              ("https://github.com/" ++ owner ++ "/" ++ repo)) with false.
    cbv iota. by rewrite Hname.
  - intros Habsent. unfold _extract_repo_name. rewrite endswith_app.
    rewrite length_append.
    replace (String.length ("git@github.com:" ++ owner ++ "/" ++ repo)
             + String.length ".git" - 4)
      with (String.length ("git@github.com:" ++ owner ++ "/" ++ repo))
      by (simpl; lia).
    rewrite substring_take.
    rewrite prefix_app.
    rewrite replace_match by done.
    rewrite replace_absent by done. by rewrite Hname.
Qed.

End RepoName.

(** * The further properties at concrete inputs *)

Lemma relationships_are_containment_witness :
  exists ccg,
    @CodeAnalyzer.analyze_codebase Demo.grammar_runtime
      (@CodeAnalyzer.__init__ Demo.grammar_runtime) Demo.project "python"
      ["pkg/foo.py"] = Ok ccg
    /\ relationships ccg = [("pkg/foo.py:Foo", "pkg/foo.py:bar", "contains")]
    /\ "contains" = "contains".
Proof.
  eexists. split; [reflexivity|]. split; [by vm_compute|].
  apply (@relationships_are_containment Demo.grammar_runtime
           (@CodeAnalyzer.__init__ Demo.grammar_runtime) Demo.project
           "python" ["pkg/foo.py"] _ eq_refl "pkg/foo.py:Foo" "pkg/foo.py:bar").
  vm_compute. by left.
Defined.

Lemma query_on_assembled_graph_is_empty_witness :
  exists ccg,
    @CodeAnalyzer.analyze_codebase Demo.grammar_runtime
      (@CodeAnalyzer.__init__ Demo.grammar_runtime) Demo.project "python"
      ["pkg/foo.py"] = Ok ccg
    /\ relationships ccg <> []
    /\ CodeAnalyzer.query_relationships ccg "what calls bar?" = [].
Proof.
  eexists. split; [reflexivity|]. split; [by vm_compute|].
  apply (@query_on_assembled_graph_is_empty Demo.grammar_runtime
           (@CodeAnalyzer.__init__ Demo.grammar_runtime) Demo.project
           "python" ["pkg/foo.py"] _ "what calls bar?" eq_refl).
Defined.

Lemma other_languages_give_empty_graph_witness :
  Forall (passes Demo.repo) ["cmd/server.go"]
  /\ @CodeAnalyzer.analyze_codebase Demo.runtime (@CodeAnalyzer.__init__ Demo.runtime)
       Demo.repo "go" ["cmd/server.go"]
     = Ok {| elements := ∅; relationships := []; graph := empty_graph |}.
Proof.
  assert (Hpasses : Forall (passes Demo.repo) ["cmd/server.go"]).
  { repeat constructor. }
  split; [exact Hpasses|].
  apply (proj2 (@other_languages_give_empty_graph Demo.runtime
                  (@CodeAnalyzer.__init__ Demo.runtime) Demo.repo "go"
                  ["cmd/server.go"] ltac:(discriminate) ltac:(discriminate)
                  ltac:(discriminate)) Hpasses).
Defined.

(** The entry point [../other/x.py] names a file beside the checkout; its
    records carry that relative path. *)
Lemma element_record_matches_id_witness :
  exists ccg el,
    @CodeAnalyzer.analyze_codebase Demo.grammar_runtime
      (@CodeAnalyzer.__init__ Demo.grammar_runtime) Demo.hosted "python"
      ["../other/x.py"] = Ok ccg
    /\ elements ccg !! "../other/x.py:bar" = Some el
    /\ file_path el = "../other/x.py"
    /\ exists fp, analysed_path Demo.hosted ["../other/x.py"] fp
                  /\ record_of fp "../other/x.py:bar" el.
Proof.
  eexists. eexists. split; [reflexivity|]. split; [by vm_compute|].
  split; [reflexivity|].
  apply (@element_record_matches_id Demo.grammar_runtime
           (@CodeAnalyzer.__init__ Demo.grammar_runtime) Demo.hosted
           "python" ["../other/x.py"] _ eq_refl "../other/x.py:bar").
  by vm_compute.
Defined.

(** The method [bar] of [Foo] is contained in [Foo], and the record under
    [pkg/foo.py:bar] has no parent. *)
Lemma parent_is_never_set_witness :
  exists ccg el,
    @CodeAnalyzer.analyze_codebase Demo.grammar_runtime
      (@CodeAnalyzer.__init__ Demo.grammar_runtime) Demo.project "python"
      ["pkg/foo.py"] = Ok ccg
    /\ relationships ccg = [("pkg/foo.py:Foo", "pkg/foo.py:bar", "contains")]
    /\ elements ccg !! "pkg/foo.py:bar" = Some el
    /\ parent el = None.
Proof.
  eexists. eexists. split; [reflexivity|]. split; [by vm_compute|].
  split; [by vm_compute|].
  apply (@parent_is_never_set Demo.grammar_runtime
           (@CodeAnalyzer.__init__ Demo.grammar_runtime) Demo.project
           "python" ["pkg/foo.py"] _ eq_refl "pkg/foo.py:bar").
  by vm_compute.
Defined.

Lemma python_class_contains_its_methods_witness :
  In ("pkg/foo.py:Foo", "pkg/foo.py:bar", "contains")
    (snd (CodeAnalyzer._parse_python_ast Demo.root "pkg/foo.py" Demo.source)).
Proof.
  apply (python_class_contains_its_methods Demo.root Demo.class_foo
           Demo.foo_block Demo.method_bar "pkg/foo.py" Demo.source "Foo" "bar").
  - apply subnode_below with Demo.class_foo; [by left | apply subnode_here].
  - reflexivity.
  - reflexivity.
  - discriminate.
  - simpl. tauto.
  - reflexivity.
  - by left.
  - reflexivity.
  - reflexivity.
  - discriminate.
Defined.

Lemma java_class_contains_its_methods_witness :
  In ("src/Box.java:Box", "src/Box.java:size", "contains")
    (snd (CodeAnalyzer._parse_java_ast Demo.java_root "src/Box.java"
            Demo.java_source)).
Proof.
  apply (java_class_contains_its_methods Demo.java_root Demo.class_box
           Demo.box_body Demo.method_size "src/Box.java" Demo.java_source
           "Box" "size").
  - apply subnode_below with Demo.class_box; [by left | apply subnode_here].
  - reflexivity.
  - reflexivity.
  - discriminate.
  - simpl. tauto.
  - reflexivity.
  - simpl. tauto.
  - reflexivity.
  - reflexivity.
  - discriminate.
Defined.

Lemma javascript_run_has_no_relationships_witness :
  exists ccg,
    @CodeAnalyzer.analyze_codebase Demo.runtime (@CodeAnalyzer.__init__ Demo.runtime)
      Demo.repo "javascript" [] = Ok ccg
    /\ relationships ccg = [] /\ edges (graph ccg) = ∅.
Proof.
  eexists. split; [reflexivity|].
  apply (@javascript_run_has_no_relationships Demo.runtime
           (@CodeAnalyzer.__init__ Demo.runtime) Demo.repo []).
  reflexivity.
Defined.

(** Without the grammar library no parser is registered. *)
Lemma parsers_registered_up_to_first_failure_witness :
  CodeAnalyzer.parsers (@CodeAnalyzer.__init__ Demo.runtime) = ∅.
Proof.
  apply (proj2 (proj2 (@parsers_registered_up_to_first_failure Demo.runtime
                         "python"))).
  by exists "OSError".
Defined.

Lemma analysed_files_contribute_witness :
  exists ccg,
    @CodeAnalyzer.analyze_codebase Demo.grammar_runtime
      (@CodeAnalyzer.__init__ Demo.grammar_runtime) Demo.project "python"
      ["pkg/foo.py"] = Ok ccg
    /\ dom (fst (CodeAnalyzer._parse_python_ast Demo.root "pkg/foo.py" Demo.source))
       ⊆ dom (elements ccg).
Proof.
  eexists. split; [reflexivity|].
  refine (proj1 (@analysed_files_contribute Demo.grammar_runtime
                   (@CodeAnalyzer.__init__ Demo.grammar_runtime) Demo.project
                   "python" ["pkg/foo.py"] _ Demo.foo_py
                   (CodeAnalyzer._parse_python_ast Demo.root "pkg/foo.py"
                      Demo.source) _ eq_refl _ _)).
  - vm_compute.
    repeat (constructor; [intros Hin; simpl in Hin; intuition discriminate|]).
    constructor.
  - left. simpl. tauto.
  - reflexivity.
Defined.

Lemma excluded_root_detects_nothing_witness :
  @LanguageDetector.detect_languages_in_repo Demo.runtime Demo.built_repo
  = Ok {| LanguageDetector.primary_language := "unknown";
          LanguageDetector.detected := ∅; LanguageDetector.counts := [];
          LanguageDetector.total_files := 0;
          LanguageDetector.confidence := 0%Q |}.
Proof.
  apply (proj2 (@excluded_root_detects_nothing Demo.runtime Demo.built_repo
                  "build" eq_refl ltac:(simpl; tauto) ltac:(simpl; tauto))).
Defined.

Lemma detector_code_files_are_readable_text_witness :
  readable Demo.main_py = true /\ has_nul_in_first_kb Demo.main_py = false.
Proof.
  destruct (proj1 (detector_code_files_are_readable_text Demo.repo Demo.main_py))
    as (_ & _ & Hread & Hnul & _); [|by split].
  vm_compute. tauto.
Defined.

Lemma primary_language_is_first_maximum_witness :
  LanguageDetector._get_primary_language Demo.tied = "python".
Proof.
  apply (primary_language_is_first_maximum Demo.tied [("go", 1)] [("java", 2)]
           "python" 2).
  - reflexivity.
  - repeat constructor.
  - repeat constructor.
Defined.

(** A file without suffix whose text shows [import\s+\w+] is taken for
    python, the first language of the table with that pattern. *)
Lemma detect_by_content_first_match_witness :
  @LanguageDetector._detect_file_language Demo.search_runtime Demo.script
  = Some "python"
  /\ exists before ps after,
       LanguageDetector.LANGUAGE_PATTERNS = before ++ ("python", ps) :: after
       /\ (exists pattern, In pattern ps
             /\ @re_search Demo.search_runtime pattern
                  (String.substring 0 1024 "import java.util.List;") = true)
       /\ forall l' ps' pattern, In (l', ps') before -> In pattern ps' ->
            @re_search Demo.search_runtime pattern
              (String.substring 0 1024 "import java.util.List;") = false.
Proof.
  split; [reflexivity|].
  exact (@detect_by_content_first_match Demo.search_runtime Demo.script
           "import java.util.List;" eq_refl eq_refl).
Defined.

Lemma detection_summary_witness :
  exists d,
    @LanguageDetector.detect_languages_in_repo Demo.runtime Demo.repo = Ok d
    /\ LanguageDetector.total_files d
       = length (@classified Demo.runtime
                   (LanguageDetector._get_code_files Demo.repo)).
Proof.
  destruct (proj2 (@detection_summary Demo.runtime Demo.repo) eq_refl)
    as (d & Hd & Htotal & _).
  exists d. by split.
Defined.

(** A file named [main.py] below [node_modules] is an entry point. *)
Lemma entry_points_characterised_witness :
  RepoMapper._should_ignore Demo.vendored Demo.vendored_main = true
  /\ "node_modules/pkg/main.py"
     ∈ @RepoMapper._find_entry_points Demo.runtime Demo.vendored "python".
Proof.
  split; [reflexivity|].
  apply (proj2 (@entry_points_characterised Demo.runtime Demo.vendored "python"
                  "node_modules/pkg/main.py")).
  exists Demo.vendored_main. repeat split; [by left|]. left. simpl. tauto.
Defined.

Lemma ignored_root_hides_everything_witness :
  @RepoMapper._find_main_functions Demo.runtime Demo.built_repo "go" = [].
Proof.
  apply (proj2 (@ignored_root_hides_everything Demo.runtime Demo.built_repo
                  "build" ltac:(simpl; tauto) eq_refl ltac:(simpl; tauto))).
Defined.

Lemma repo_name_of_github_url_witness :
  GitManager._extract_repo_name "git@github.com:octocat/Hello-World.git"
  = "octocat_Hello-World"
  /\ GitManager._extract_repo_name "https://github.com/octocat/Hello-World/"
     = "octocat_Hello-World".
Proof.
  destruct (repo_name_of_github_url "octocat" "Hello-World" eq_refl eq_refl
              ltac:(discriminate)) as (_ & Hslash & _ & Hssh).
  split; [by apply Hssh | exact Hslash].
Defined.

(** ** The amended claims at concrete inputs *)



(** Entry points as [analyze_codebase] treats them, on [Demo.hosted]: an
    entry point written [./pkg/foo.py] is analysed as [pkg/foo.py], and
    again by the loop over the code files, which compares the texts; an
    entry point for which [os.stat] raises ends the run with that
    error. *)
Example entry_point_examples :
  (exists ccg,
     @CodeAnalyzer.analyze_codebase Demo.grammar_runtime
       (@CodeAnalyzer.__init__ Demo.grammar_runtime) Demo.hosted "python"
       ["./pkg/foo.py"] = Ok ccg
     /\ relationships ccg
        = [ ("pkg/foo.py:Foo", "pkg/foo.py:bar", "contains");
            ("pkg/foo.py:Foo", "pkg/foo.py:bar", "contains") ])
  /\ @CodeAnalyzer.analyze_codebase Demo.grammar_runtime
       (@CodeAnalyzer.__init__ Demo.grammar_runtime) Demo.hosted "python"
       ["/root/x.py"] = Raise "PermissionError"
  /\ passes Demo.hosted "./pkg/foo.py"
  /\ ~ passes Demo.hosted "/root/x.py"
  /\ ~ passes Demo.hosted "/etc/hostname".
Proof.
  split; [eexists; split; [reflexivity | by vm_compute]|].
  split; [by vm_compute|]. split; [exact I|]. split; [intros []|].
  unfold passes. by vm_compute.
Qed.

(** C8 as stated fails: [/etc/hostname] exists and can be read, and it is
    not below the checkout; [relative_to] raises for it outside every
    [try], so the run with that entry point raises, and the file
    [pkg/foo.py], which the run without the entry point analyses, is
    not processed. *)
Lemma outside_entry_point_aborts_run :
  @CodeAnalyzer.analyze_codebase Demo.grammar_runtime
    (@CodeAnalyzer.__init__ Demo.grammar_runtime) Demo.hosted "python"
    ["/etc/hostname"] = Raise "ValueError"
  /\ exists ccg,
       @CodeAnalyzer.analyze_codebase Demo.grammar_runtime
         (@CodeAnalyzer.__init__ Demo.grammar_runtime) Demo.hosted "python" []
       = Ok ccg
       /\ "pkg/foo.py:Foo" ∈ dom (elements ccg).
Proof.
  split; [by vm_compute|]. eexists. split; [reflexivity|]. by vm_compute.
Qed.
